(** * Statistical-arbitrage framework: a shallow embedding of the analytical core

    The Python sources (estimation/kalman.py, signals/zscore.py,
    cointegration/tester.py, backtest/engine.py, risk/manager.py,
    risk/sector_constraints.py) are transcribed function by function.  Numbers
    are IEEE-style extended values (finite, +inf, -inf, NaN) whose finite part
    is an exact rational: rounding is idealised, the special values and the
    comparison rules of numpy/pandas floats are kept, and so is the difference
    between the division of Python floats, which raises on a zero divisor, and
    that of numpy floats, which does not.  Bounds that hold of exact rationals
    but that rounding can break (a variance that stays non-negative, a residual
    that keeps its sign) are not stated.  Python exceptions are values of an
    error monad.  Library routines of numpy, pandas
    and statsmodels that the sources only call (sqrt, power, std, skew, ewm,
    rolling, lstsq, adfuller, coint, corr) are section variables. *)

From Stdlib Require Import String ZArith QArith Qabs Qreduction List Bool Lia Lqa.
From Stdlib Require Import Sorted.
Import ListNotations.

(** ** Extended numbers *)

Module Float.

Inductive float : Type :=
| Fin (q : Q)
| PInf
| NInf
| NaN.

Definition zero : float := Fin 0.
Definition one : float := Fin 1.
Definition of_Z (z : Z) : float := Fin (inject_Z z).
Definition of_nat (n : nat) : float := of_Z (Z.of_nat n).

Definition isnan (a : float) : bool :=
  match a with NaN => true | _ => false end.

Definition is_finite (a : float) : bool :=
  match a with Fin _ => true | _ => false end.

Definition fopp (a : float) : float :=
  match a with
  | Fin q => Fin (Qred (- q))
  | PInf => NInf
  | NInf => PInf
  | NaN => NaN
  end.

Definition fadd (a b : float) : float :=
  match a, b with
  | NaN, _ | _, NaN => NaN
  | PInf, NInf | NInf, PInf => NaN
  | PInf, _ | _, PInf => PInf
  | NInf, _ | _, NInf => NInf
  | Fin p, Fin q => Fin (Qred (p + q))
  end.

Definition fsub (a b : float) : float :=
  match a, b with
  | NaN, _ | _, NaN => NaN
  | PInf, PInf | NInf, NInf => NaN
  | PInf, _ | _, NInf => PInf
  | NInf, _ | _, PInf => NInf
  | Fin p, Fin q => Fin (Qred (p - q))
  end.

(** The infinity with the sign of [q] times the sign of [pos]; NaN for [q = 0]. *)
Definition inf_times (pos : bool) (q : Q) : float :=
  match q ?= 0 with
  | Eq => NaN
  | Gt => if pos then PInf else NInf
  | Lt => if pos then NInf else PInf
  end.

Definition fmul (a b : float) : float :=
  match a, b with
  | NaN, _ | _, NaN => NaN
  | Fin p, Fin q => Fin (Qred (p * q))
  | PInf, Fin q | Fin q, PInf => inf_times true q
  | NInf, Fin q | Fin q, NInf => inf_times false q
  | PInf, PInf | NInf, NInf => PInf
  | PInf, NInf | NInf, PInf => NInf
  end.

(** numpy division: a zero divisor gives an infinity or NaN, never an
    exception. *)
Definition fdiv (a b : float) : float :=
  match a, b with
  | NaN, _ | _, NaN => NaN
  | Fin p, Fin q =>
      if Qeq_bool q 0 then
        match p ?= 0 with Eq => NaN | Gt => PInf | Lt => NInf end
      else Fin (Qred (p / q))
  | Fin _, PInf | Fin _, NInf => Fin 0
  | PInf, Fin q => if Qle_bool 0 q then PInf else NInf
  | NInf, Fin q => if Qle_bool 0 q then NInf else PInf
  | PInf, PInf | PInf, NInf | NInf, PInf | NInf, NInf => NaN
  end.

Definition fabs (a : float) : float :=
  match a with
  | Fin q => Fin (Qred (Qabs q))
  | PInf | NInf => PInf
  | NaN => NaN
  end.

(** Comparisons: every comparison with NaN is false. *)
Definition flt (a b : float) : bool :=
  match a, b with
  | NaN, _ | _, NaN => false
  | Fin p, Fin q => match p ?= q with Lt => true | _ => false end
  | NInf, NInf => false
  | NInf, _ => true
  | _, NInf => false
  | PInf, _ => false
  | Fin _, PInf => true
  end.

Definition fle (a b : float) : bool :=
  match a, b with
  | NaN, _ | _, NaN => false
  | Fin p, Fin q => Qle_bool p q
  | NInf, _ => true
  | _, NInf => false
  | _, PInf => true
  | PInf, Fin _ => false
  end.

Definition fgt (a b : float) : bool := flt b a.
Definition fge (a b : float) : bool := fle b a.

Definition feqb (a b : float) : bool :=
  match a, b with
  | Fin p, Fin q => Qeq_bool p q
  | PInf, PInf | NInf, NInf => true
  | _, _ => false
  end.

(** Truth value of a float in a Python condition: false exactly for zero. *)
Definition truthy (a : float) : bool := negb (feqb a zero).

(** Equality of values (the finite parts compared as rationals). *)
Definition feq (a b : float) : Prop :=
  match a, b with
  | Fin p, Fin q => p == q
  | PInf, PInf | NInf, NInf | NaN, NaN => True
  | _, _ => False
  end.

End Float.
Export Float.

Declare Scope float_scope.
Delimit Scope float_scope with float.
Bind Scope float_scope with float.
Infix "+" := fadd : float_scope.
Infix "-" := fsub : float_scope.
Infix "*" := fmul : float_scope.
Infix "/" := fdiv : float_scope.
Infix "==" := feq (at level 70, no associativity) : float_scope.

(** ** Python exceptions as an error monad *)

Inductive exn : Type :=
| IndexError
| ZeroDivisionError
| ValueError
| KeyError
| LinAlgError.

Inductive result (A : Type) : Type :=
| Ok (a : A)
| Raise (e : exn).
Arguments Ok {A} a.
Arguments Raise {A} e.

Definition bind {A B : Type} (c : result A) (k : A -> result B) : result B :=
  match c with
  | Ok a => k a
  | Raise e => Raise e
  end.

Notation "x <- c ;; k" := (bind c (fun x => k))
  (at level 61, c at next level, right associativity).

(** Python float division [a / b]: a zero divisor raises. *)
Definition py_truediv (a b : float) : result float :=
  if feqb b zero then Raise ZeroDivisionError else Ok (fdiv a b).

(** numpy's true division [a / b], which never raises. *)
Definition np_truediv (a b : float) : result float := Ok (fdiv a b).

(** [l[i]] and [l[i] = v] on an array, for a non-negative index. *)
Definition getitem {A : Type} (l : list A) (i : nat) : result A :=
  match nth_error l i with
  | Some v => Ok v
  | None => Raise IndexError
  end.

Fixpoint update {A : Type} (l : list A) (i : nat) (v : A) : list A :=
  match l, i with
  | [], _ => []
  | _ :: t, O => v :: t
  | h :: t, S j => h :: update t j v
  end.

Definition setitem {A : Type} (l : list A) (i : nat) (v : A) : result (list A) :=
  if Nat.ltb i (length l) then Ok (update l i v) else Raise IndexError.

(** [for t in range(lo, hi): st = body st t], stopping at the first exception. *)
Fixpoint for_each {S : Type} (ts : list nat) (body : S -> nat -> result S) (st : S)
  : result S :=
  match ts with
  | [] => Ok st
  | t :: rest => st' <- body st t ;; for_each rest body st'
  end.

Definition for_range {S : Type} (lo hi : nat) (body : S -> nat -> result S) (st : S)
  : result S :=
  for_each (seq lo (hi - lo)) body st.

(** Element-wise numpy arithmetic on arrays of one length. *)
Fixpoint zip_with (f : float -> float -> float) (a b : list float) : result (list float) :=
  match a, b with
  | [], [] => Ok []
  | p :: a', q :: b' => r <- zip_with f a' b' ;; Ok (f p q :: r)
  | _, _ => Raise ValueError
  end.

(** ** estimation/kalman.py *)

Module Kalman.
Section Kalman.

(** [np.sqrt] on floats. *)
Variable np_sqrt : float -> float.

Record KalmanHedgeRatio : Type := {
  delta : float;
  Ve : float;
  initial_mean : float;
  initial_cov : float
}.

(** The four work arrays of [filter]. *)
Record arrays : Type := {
  beta : list float;
  P : list float;
  spread : list float;
  forecast_error : list float
}.

(** The data frame [filter] returns, column by column. *)
Record frame : Type := {
  col_hedge_ratio : list float;
  col_hedge_ratio_std : list float;
  col_spread : list float;
  col_forecast_error : list float
}.

(** The local variables of one update, kept so that they can be named. *)
Record locals : Type := {
  l_P_pred : float;
  l_e : float;
  l_S : float;
  l_K : float;
  l_beta : float;
  l_P : float
}.

Local Open Scope float_scope.

(** Lines 30-39 of [filter], after the reads of [beta[t-1]], [P[t-1]],
    [x.iloc[t]] and [y.iloc[t]]. *)
Definition filter_step (self : KalmanHedgeRatio) (Vw beta_tm1 P_tm1 x_t y_t : float)
  : locals :=
  let beta_pred := beta_tm1 in
  let P_pred := P_tm1 + Vw in
  let e := y_t - beta_pred * x_t in
  let S := x_t * P_pred * x_t + Ve self in
  let K := P_pred * x_t / S in
  {| l_P_pred := P_pred; l_e := e; l_S := S; l_K := K;
     l_beta := beta_pred + K * e;
     l_P := (Fin 1 - K * x_t) * P_pred |}.

(** The body of the loop [for t in range(1, n)]. *)
Definition filter_body (self : KalmanHedgeRatio) (Vw : float) (y x : list float)
  (st : arrays) (t : nat) : result arrays :=
  beta_tm1 <- getitem (beta st) (t - 1) ;;
  P_tm1 <- getitem (P st) (t - 1) ;;
  x_t <- getitem x t ;;
  y_t <- getitem y t ;;
  let l := filter_step self Vw beta_tm1 P_tm1 x_t y_t in
  beta' <- setitem (beta st) t (l_beta l) ;;
  P' <- setitem (P st) t (l_P l) ;;
  spread' <- setitem (spread st) t (l_e l) ;;
  forecast_error' <- setitem (forecast_error st) t (l_e l) ;;
  Ok {| beta := beta'; P := P'; spread := spread'; forecast_error := forecast_error' |}.

Definition filter (self : KalmanHedgeRatio) (y x : list float) : result frame :=
  let n := length y in
  let beta0 := repeat zero n in
  let P0 := repeat zero n in
  let spread0 := repeat zero n in
  let forecast_error0 := repeat zero n in
  beta1 <- setitem beta0 0 (initial_mean self) ;;
  P1 <- setitem P0 0 (initial_cov self) ;;
  Vw <- py_truediv (delta self) (Fin 1 - delta self) ;;
  st <- for_range 1 n (filter_body self Vw y x)
          {| beta := beta1; P := P1; spread := spread0;
             forecast_error := forecast_error0 |} ;;
  bx <- zip_with fmul (beta st) x ;;
  sp <- zip_with fsub y bx ;;
  Ok {| col_hedge_ratio := beta st;
        col_hedge_ratio_std := map np_sqrt (P st);
        col_spread := sp;
        col_forecast_error := forecast_error st |}.

(** Lines 52-57 of [online_update], in the order they are written.  The
    arguments are the numbers of the caller, and [truediv] is their true
    division: [py_truediv] for Python floats, which raises on a zero divisor,
    [np_truediv] for numpy floats (what [x.iloc[t]] and the entries of an array
    are), which does not.  In [filter] the operands of [P_pred * x_t / S] are
    numpy floats. *)
Definition online_locals (truediv : float -> float -> result float)
  (self : KalmanHedgeRatio) (Vw y_new x_new beta_prev P_prev : float)
  : result locals :=
  let P_pred := P_prev + Vw in
  let S := x_new * P_pred * x_new + Ve self in
  K <- truediv (P_pred * x_new) S ;;
  let e := y_new - beta_prev * x_new in
  Ok {| l_P_pred := P_pred; l_e := e; l_S := S; l_K := K;
        l_beta := beta_prev + K * e;
        l_P := (Fin 1 - K * x_new) * P_pred |}.

Definition online_update (truediv : float -> float -> result float)
  (self : KalmanHedgeRatio) (y_new x_new beta_prev P_prev : float)
  : result (float * float * float) :=
  Vw <- py_truediv (delta self) (Fin 1 - delta self) ;;
  l <- online_locals truediv self Vw y_new x_new beta_prev P_prev ;;
  Ok (l_beta l, l_P l, l_e l).

(** A caller replaying a path: [online_update] applied to each observation
    in turn, each call fed the estimate and variance the previous one
    returned. *)
Fixpoint replay (truediv : float -> float -> result float)
  (self : KalmanHedgeRatio) (obs : list (float * float))
  (beta_prev P_prev : float) : result (list (float * float * float)) :=
  match obs with
  | [] => Ok []
  | (y_new, x_new) :: rest =>
      r <- online_update truediv self y_new x_new beta_prev P_prev ;;
      let '(beta_new, P_new, e) := r in
      tl <- replay truediv self rest beta_new P_new ;;
      Ok ((beta_new, P_new, e) :: tl)
  end.

(** The estimates the loop of [filter] passes through on the observations
    [obs], given the process noise [Vw], and the innovation variance [S] of
    each of these steps. *)
Fixpoint trace (self : KalmanHedgeRatio) (Vw : float) (obs : list (float * float))
  (beta_prev P_prev : float) : list (float * float * float) :=
  match obs with
  | [] => []
  | (y_t, x_t) :: rest =>
      let l := filter_step self Vw beta_prev P_prev x_t y_t in
      (l_beta l, l_P l, l_e l) :: trace self Vw rest (l_beta l) (l_P l)
  end.

Fixpoint innovations (self : KalmanHedgeRatio) (Vw : float) (obs : list (float * float))
  (beta_prev P_prev : float) : list float :=
  match obs with
  | [] => []
  | (y_t, x_t) :: rest =>
      let l := filter_step self Vw beta_prev P_prev x_t y_t in
      l_S l :: innovations self Vw rest (l_beta l) (l_P l)
  end.

Definition step_beta (s : float * float * float) : float := fst (fst s).
Definition step_P (s : float * float * float) : float := snd (fst s).
Definition step_e (s : float * float * float) : float := snd s.

End Kalman.
End Kalman.

(** ** pandas Series on one positional index *)

(** Element-wise arithmetic of two Series: labels present in one operand only
    give NaN. *)
Fixpoint series_op (f : float -> float -> float) (a b : list float) : list float :=
  match a with
  | [] => map (fun _ => NaN) b
  | p :: a' =>
      match b with
      | [] => NaN :: map (fun _ => NaN) a'
      | q :: b' => f p q :: series_op f a' b'
      end
  end.

(** Assigning a Series as a column of a frame with [n] rows. *)
Definition reindex (n : nat) (col : list float) : list float :=
  firstn n col ++ repeat NaN (n - length col).

(** [s.shift(1)]. *)
Definition shift1 (s : list float) : list float :=
  match s with
  | [] => []
  | _ :: _ => NaN :: removelast s
  end.

(** [s.pct_change()], with no filling of missing values: [s / s.shift(1) - 1]. *)
Definition pct_change (s : list float) : list float :=
  map (fun r => fsub r (Fin 1)) (series_op fdiv s (shift1 s)).

(** [s.diff()]: [s - s.shift(1)]. *)
Definition diff (s : list float) : list float :=
  series_op fsub s (shift1 s).

(** [np.cumprod]. *)
Fixpoint np_cumprod_from (acc : float) (l : list float) : list float :=
  match l with
  | [] => []
  | v :: r => let acc' := fmul acc v in acc' :: np_cumprod_from acc' r
  end.

Definition np_cumprod (l : list float) : list float :=
  match l with
  | [] => []
  | v :: r => v :: np_cumprod_from v r
  end.

(** [s.cumprod()] of pandas: missing values are replaced by 1 for the
    accumulation and put back afterwards. *)
Definition cumprod (s : list float) : list float :=
  map (fun va => if isnan (fst va) then NaN else snd va)
    (combine s (np_cumprod (map (fun v => if isnan v then Fin 1 else v) s))).

(** The running product of the first [k] entries, missing ones skipped. *)
Definition running_product (l : list float) (k : nat) : float :=
  fold_left fmul (map (fun v => if isnan v then Fin 1 else v) (firstn k l)) (Fin 1).

(** [np.clip] on one value. *)
Definition np_clip (a lo hi : float) : float :=
  if isnan a then NaN
  else if flt a lo then lo
  else if fgt a hi then hi
  else a.

(** ** signals/zscore.py *)

Module Signals.
Section Signals.

(** pandas estimators: [s.ewm(halflife=h).mean()], [s.ewm(halflife=h).std()],
    [s.rolling(n).mean()] and [s.rolling(n).std()]. *)
Variable ewm_mean ewm_std : float -> list float -> list float.
Variable rolling_mean rolling_std : nat -> list float -> list float.

Record ZScoreSignalGenerator : Type := {
  entry_z : float;
  exit_z : float;
  stop_z : float;
  lookback : nat;
  use_ewm : bool;
  ewm_halflife : float
}.

(** The frame [generate_signals] returns. *)
Record signals_frame : Type := {
  sig_spread : list float;
  sig_zscore : list float;
  sig_position : list Z;
  sig_confidence : list float
}.

(** The frame [compute_signal_pnl] returns. *)
Record pnl_frame : Type := {
  strategy_return : list float;
  transaction_costs : list float;
  net_return : list float;
  cumulative_return : list float
}.

Local Open Scope float_scope.

Definition compute_spread (y x : list float) (hedge_ratio intercept : float)
  : list float :=
  map (fun v => v - intercept) (series_op fsub y (map (fun v => hedge_ratio * v) x)).

Definition compute_zscore (self : ZScoreSignalGenerator) (spread : list float)
  : list float :=
  let mean :=
    if use_ewm self then ewm_mean (ewm_halflife self) spread
    else rolling_mean (lookback self) spread in
  let std :=
    if use_ewm self then ewm_std (ewm_halflife self) spread
    else rolling_std (lookback self) spread in
  series_op fdiv (series_op fsub spread mean) std.

(** Lines 66-76: the new value of [position] for a z-score that is not NaN. *)
Definition next_position (self : ZScoreSignalGenerator) (position : Z) (z : float) : Z :=
  if (position =? 0)%Z then
    if flt z (fopp (entry_z self)) then 1%Z
    else if fgt z (entry_z self) then (-1)%Z
    else position
  else if (position =? 1)%Z then
    if fgt z (fopp (exit_z self)) || fgt z (stop_z self) then 0%Z
    else position
  else if (position =? -1)%Z then
    if flt z (exit_z self) || flt z (fopp (stop_z self)) then 0%Z
    else position
  else position.

(** The body of the loop [for i in range(1, len(signals))]: the state is the
    variable [position] and the column [signals['position']]. *)
Definition signal_body (self : ZScoreSignalGenerator) (zscore : list float)
  (st : Z * list Z) (i : nat) : result (Z * list Z) :=
  let '(position, column) := st in
  z <- getitem zscore i ;;
  if isnan z then Ok (position, column)
  else
    let position' := next_position self position z in
    column' <- setitem column i position' ;;
    Ok (position', column').

Definition generate_signals (self : ZScoreSignalGenerator) (y x : list float)
  (hedge_ratio intercept : float) : result signals_frame :=
  let spread := compute_spread y x hedge_ratio intercept in
  let zscore := compute_zscore self spread in
  let n := length spread in
  let zscore_col := reindex n zscore in
  let position_col := repeat 0%Z n in
  st <- for_range 1 n (signal_body self zscore) (0%Z, position_col) ;;
  let confidence :=
    map (fun z => np_clip ((fabs z - exit_z self) / (entry_z self - exit_z self))
                    (Fin 0) (Fin 1)) zscore_col in
  Ok {| sig_spread := spread; sig_zscore := zscore_col;
        sig_position := snd st; sig_confidence := confidence |}.

Definition compute_signal_pnl (position : list Z) (y x : list float)
  (hedge_ratio tc_bps : float) : pnl_frame :=
  let n := length position in
  let pos := map of_Z position in
  let spread_ret :=
    series_op fsub (pct_change y) (map (fun v => hedge_ratio * v) (pct_change x)) in
  let strategy := reindex n (series_op fmul (shift1 pos) spread_ret) in
  let costs :=
    reindex n (map (fun d => fabs d * tc_bps / Fin 10000) (diff pos)) in
  let net := series_op fsub strategy costs in
  {| strategy_return := strategy;
     transaction_costs := costs;
     net_return := net;
     cumulative_return := cumprod (map (fun r => Fin 1 + r) net) |}.

(** The positions the loop of [generate_signals] records for the z-scores
    [zs], entered with the variable [position]: 0 is left in the column at a
    NaN step, the new position is written at every other step. *)
Fixpoint track (self : ZScoreSignalGenerator) (position : Z) (zs : list float) : list Z :=
  match zs with
  | [] => []
  | z :: rest =>
      if isnan z then 0%Z :: track self position rest
      else
        let position' := next_position self position z in
        position' :: track self position' rest
  end.

(** The variable [position] after the loop. *)
Fixpoint carried (self : ZScoreSignalGenerator) (position : Z) (zs : list float) : Z :=
  match zs with
  | [] => position
  | z :: rest =>
      if isnan z then carried self position rest
      else carried self (next_position self position z) rest
  end.

(** The position column for a z-score column: row 0 is never visited. *)
Definition recorded (self : ZScoreSignalGenerator) (zscore : list float) : list Z :=
  match zscore with
  | [] => []
  | _ :: zs => 0%Z :: track self 0%Z zs
  end.

(** The changes of position along a column, as (from, to) pairs. *)
Fixpoint transitions_from (prev : Z) (l : list Z) : list (Z * Z) :=
  match l with
  | [] => []
  | p :: rest =>
      if (prev =? p)%Z then transitions_from p rest
      else (prev, p) :: transitions_from p rest
  end.

Definition transitions (l : list Z) : list (Z * Z) :=
  match l with
  | [] => []
  | p :: rest => transitions_from p rest
  end.

(** The confidence entry for one z-score. *)
Definition confidence_of (self : ZScoreSignalGenerator) (z : float) : float :=
  np_clip ((fabs z - exit_z self) / (entry_z self - exit_z self))%float (Fin 0) (Fin 1).

(** A z-score within [-entry_z, entry_z]. *)
Definition quiet (self : ZScoreSignalGenerator) (z : float) : Prop :=
  fle (fopp (entry_z self)) z = true /\ fle z (entry_z self) = true.

End Signals.
End Signals.

(** ** cointegration/tester.py *)

(** [np.log(2)]: the double nearest to ln 2, a rational. *)
Definition np_log2 : float := Fin (6243314768165359 # 9007199254740992).

(** [np.diff] of an array. *)
Fixpoint np_diff (a : list float) : list float :=
  match a with
  | [] => []
  | p :: rest =>
      match rest with
      | [] => []
      | q :: _ => fsub q p :: np_diff rest
      end
  end.

(** [np.column_stack([np.ones(len(v)), v])]. *)
Definition with_const (v : list float) : list (list float) :=
  map (fun e => [Fin 1; e]) v.

(** [itertools.combinations(l, 2)]. *)
Fixpoint combinations2 {A : Type} (l : list A) : list (A * A) :=
  match l with
  | [] => []
  | h :: t => map (fun e => (h, e)) t ++ combinations2 t
  end.

Module Tester.
Section Tester.

(** A price frame: named columns over one index. *)
Definition DataFrame : Type := list (string * list float).

(** Library routines: [np.linalg.lstsq(a, b, rcond=None)[0]],
    [adfuller(spread, autolag='AIC')] (statistic, p-value, critical values),
    [coint(y, x)] (statistic, p-value), each of which may raise, and
    [prices.pct_change().dropna().corr()]. *)
Variable lstsq : list (list float) -> list float -> result (list float).
Variable adfuller : list float -> result (float * float * list float).
Variable coint : list float -> list float -> result (float * float).
Variable corr : DataFrame -> string -> string -> float.

Record CointegrationTester : Type := {
  significance : float;
  min_half_life : float;
  max_half_life : float;
  min_correlation : float;
  rolling_window : nat
}.

(** The dictionary [engle_granger_test] returns. *)
Record eg_result : Type := {
  eg_adf_statistic : float;
  eg_adf_pvalue : float;
  eg_coint_statistic : float;
  eg_coint_pvalue : float;
  eg_hedge_ratio : float;
  eg_intercept : float;
  eg_spread : list float;
  eg_critical_values : list float
}.

(** One entry of the list [screen_universe] returns. *)
Record pair_record : Type := {
  ticker_y : string;
  ticker_x : string;
  hedge_ratio : float;
  intercept : float;
  coint_pvalue : float;
  adf_pvalue : float;
  half_life : float;
  correlation : float
}.

Local Open Scope float_scope.

Definition engle_granger_test (y x : list float) : result eg_result :=
  let x_with_const := with_const x in
  beta <- lstsq x_with_const y ;;
  beta1 <- getitem beta 1 ;;
  ybx <- zip_with fsub y (map (fun v => beta1 * v) x) ;;
  beta0 <- getitem beta 0 ;;
  let spread := map (fun v => v - beta0) ybx in
  adf <- adfuller spread ;;
  let '(adf_stat, p_value, critical_values) := adf in
  co <- coint y x ;;
  let '(coint_stat, coint_pv) := co in
  Ok {| eg_adf_statistic := adf_stat; eg_adf_pvalue := p_value;
        eg_coint_statistic := coint_stat; eg_coint_pvalue := coint_pv;
        eg_hedge_ratio := beta1; eg_intercept := beta0;
        eg_spread := spread; eg_critical_values := critical_values |}.

Definition estimate_half_life (spread : list float) : result float :=
  let spread_lag := removelast spread in
  let spread_diff := np_diff spread in
  let x := with_const spread_lag in
  sol <- lstsq x spread_diff ;;
  theta <- getitem sol 1 ;;
  if fge theta (Fin 0) then Ok PInf
  else Ok (fopp np_log2 / theta).

(** [prices[ticker]]. *)
Fixpoint column (prices : DataFrame) (ticker : string) : result (list float) :=
  match prices with
  | [] => Raise KeyError
  | (name, col) :: rest =>
      if String.eqb name ticker then Ok col else column rest ticker
  end.

(** [y = prices[ticker_y].dropna()], [x = prices[ticker_x].dropna()] taken at
    the labels both keep: the rows where neither price is missing. *)
Definition common_rows (col_y col_x : list float) : list (float * float) :=
  filter (fun yx => negb (isnan (fst yx)) && negb (isnan (snd yx)))
    (combine col_y col_x).

(** The body of the loop over candidate pairs; [continue] returns the list
    unchanged. *)
Definition screen_pair (self : CointegrationTester) (prices : DataFrame)
  (valid_pairs : list pair_record) (pair : string * string)
  : result (list pair_record) :=
  let '(t_y, t_x) := pair in
  let correlation := corr prices t_y t_x in
  if flt (fabs correlation) (min_correlation self) then Ok valid_pairs
  else
    col_y <- column prices t_y ;;
    col_x <- column prices t_x ;;
    let common := common_rows col_y col_x in
    if Nat.ltb (length common) (rolling_window self) then Ok valid_pairs
    else
      let y := map fst common in
      let x := map snd common in
      match engle_granger_test y x with
      | Raise _ => Ok valid_pairs
      | Ok results =>
          if fgt (eg_coint_pvalue results) (significance self) then Ok valid_pairs
          else
            hl <- estimate_half_life (eg_spread results) ;;
            if negb (fle (min_half_life self) hl && fle hl (max_half_life self))
            then Ok valid_pairs
            else
              Ok (valid_pairs ++
                  [{| ticker_y := t_y; ticker_x := t_x;
                      hedge_ratio := eg_hedge_ratio results;
                      intercept := eg_intercept results;
                      coint_pvalue := eg_coint_pvalue results;
                      adf_pvalue := eg_adf_pvalue results;
                      half_life := hl; correlation := correlation |}])
      end.

(** [valid_pairs.sort(key=lambda p: p['half_life'])]: a stable sort. *)
Fixpoint insert_by_half_life (p : pair_record) (sorted : list pair_record)
  : list pair_record :=
  match sorted with
  | [] => [p]
  | q :: rest =>
      if flt (half_life p) (half_life q) then p :: q :: rest
      else q :: insert_by_half_life p rest
  end.

Definition sort_by_half_life (l : list pair_record) : list pair_record :=
  fold_left (fun acc p => insert_by_half_life p acc) l [].

Fixpoint for_pairs (pairs : list (string * string))
  (body : list pair_record -> string * string -> result (list pair_record))
  (acc : list pair_record) : result (list pair_record) :=
  match pairs with
  | [] => Ok acc
  | pr :: rest => acc' <- body acc pr ;; for_pairs rest body acc'
  end.

Definition screen_universe (self : CointegrationTester) (prices : DataFrame)
  : result (list pair_record) :=
  let tickers := map fst prices in
  valid_pairs <- for_pairs (combinations2 tickers) (screen_pair self prices) [] ;;
  Ok (sort_by_half_life valid_pairs).

(** The body of the loop of [rolling_cointegration_check]: one [try] around
    both the test and the half-life estimate. *)
Definition rolling_check_window (self : CointegrationTester)
  (y x : list float) : option (float * float * float * bool) :=
  match engle_granger_test y x with
  | Raise _ => None
  | Ok test =>
      match estimate_half_life (eg_spread test) with
      | Raise _ => None
      | Ok hl =>
          Some (eg_coint_pvalue test, eg_hedge_ratio test, hl,
                flt (eg_coint_pvalue test) (significance self))
      end
  end.

(** What the screener guarantees of every pair it keeps. *)
Definition kept (self : CointegrationTester) (prices : DataFrame) (r : pair_record)
  : Prop :=
  fle (min_half_life self) (half_life r) = true /\
  fle (half_life r) (max_half_life self) = true /\
  exists (col_y col_x : list float) (results : eg_result),
    column prices (ticker_y r) = Ok col_y /\
    column prices (ticker_x r) = Ok col_x /\
    engle_granger_test (map fst (common_rows col_y col_x))
      (map snd (common_rows col_y col_x)) = Ok results /\
    estimate_half_life (eg_spread results) = Ok (half_life r).

End Tester.
End Tester.

(** ** backtest/engine.py *)

(** [s.dropna()]. *)
Definition dropna (s : list float) : list float :=
  filter (fun v => negb (isnan v)) s.

(** [s.prod()] and [s.sum()] of pandas: missing values are skipped. *)
Definition prod (s : list float) : float :=
  fold_left fmul (dropna s) (Fin 1).

Definition sum (s : list float) : float :=
  fold_left fadd (dropna s) (Fin 0).

(** [s.mean()]: the sum of the values present over their number. *)
Definition mean (s : list float) : float :=
  let v := dropna s in
  match v with
  | [] => NaN
  | _ :: _ => fdiv (sum v) (of_nat (length v))
  end.

(** [s.cummax()]: the running maximum of the values present; a missing value
    stays missing. *)
Fixpoint cummax_from (best : option float) (s : list float) : list float :=
  match s with
  | [] => []
  | v :: rest =>
      if isnan v then NaN :: cummax_from best rest
      else
        let m := match best with
                 | None => v
                 | Some b => if flt b v then v else b
                 end in
        m :: cummax_from (Some m) rest
  end.

Definition cummax (s : list float) : list float := cummax_from None s.

(** [s.min()]: the least value present, NaN when there is none. *)
Definition series_min (s : list float) : float :=
  match dropna s with
  | [] => NaN
  | v :: rest => fold_left (fun m e => if flt e m then e else m) rest v
  end.

(** A dictionary with string keys, in insertion order. *)
Definition dict : Type := list (string * float).

Fixpoint dict_get (d : dict) (key : string) : option float :=
  match d with
  | [] => None
  | (k, v) :: rest => if String.eqb k key then Some v else dict_get rest key
  end.

Module Backtest.
Section Backtest.

(** Library routines: [np.sqrt], float power [**], and the [std], [skew] and
    [kurtosis] of a pandas Series. *)
Variable np_sqrt : float -> float.
Variable np_power : float -> float -> float.
Variable pd_std pd_skew pd_kurtosis : list float -> float.

Local Open Scope float_scope.
Local Open Scope string_scope.

Definition _compute_metrics (returns : list float) : result dict :=
  let r := dropna returns in
  if Nat.eqb (length r) 0 then Ok []
  else
    let total := prod (map (fun v => Fin 1 + v) r) - Fin 1 in
    exponent <- py_truediv (Fin 252) (of_nat (length r)) ;;
    let ann := np_power (Fin 1 + total) exponent - Fin 1 in
    let vol := pd_std r * np_sqrt (Fin 252) in
    let cum := cumprod (map (fun v => Fin 1 + v) r) in
    let dd := series_min (series_op fdiv (series_op fsub cum (cummax cum)) (cummax cum)) in
    let wins := length (filter (fun v => fgt v (Fin 0)) r) in
    let trades := length (filter (fun v => negb (feqb v (Fin 0))) r) in
    let gp := sum (filter (fun v => fgt v (Fin 0)) r) in
    let gl := fabs (sum (filter (fun v => flt v (Fin 0)) r)) in
    Ok [ ("total_return", total);
         ("annualized_return", ann);
         ("annualized_volatility", vol);
         ("sharpe_ratio", if truthy vol then ann / vol else Fin 0);
         ("max_drawdown", dd);
         ("win_rate",
          if negb (Nat.eqb trades 0) then of_nat wins / of_nat trades else Fin 0);
         ("profit_factor", if truthy gl then gp / gl else PInf);
         ("num_trading_days", of_nat (length r));
         ("avg_daily_return", mean r);
         ("skewness", pd_skew r);
         ("kurtosis", pd_kurtosis r) ].

End Backtest.
End Backtest.

(** ** Concrete instances used in the examples *)

Module Examples.

Local Open Scope string_scope.

(** A square root that is exact on squares of rationals. *)
Definition rational_sqrt (a : float) : float :=
  match a with
  | Fin (Qmake n d) =>
      if (n <? 0)%Z then NaN else Fin (Qred (Qmake (Z.sqrt n) (Pos.sqrt d)))
  | PInf => PInf
  | NInf | NaN => NaN
  end.

(** The default configuration of [KalmanHedgeRatio]. *)
Definition kalman_default : Kalman.KalmanHedgeRatio :=
  {| Kalman.delta := Fin (1 # 10000); Kalman.Ve := Fin 1;
     Kalman.initial_mean := Fin 0; Kalman.initial_cov := Fin 1 |}.

(** The default configuration with [observation_noise=0]. *)
Definition kalman_no_noise : Kalman.KalmanHedgeRatio :=
  {| Kalman.delta := Fin (1 # 10000); Kalman.Ve := Fin 0;
     Kalman.initial_mean := Fin 0; Kalman.initial_cov := Fin 1 |}.

(** The default configuration of [ZScoreSignalGenerator]. *)
Definition generator_default : Signals.ZScoreSignalGenerator :=
  {| Signals.entry_z := Fin 2; Signals.exit_z := Fin (1 # 2);
     Signals.stop_z := Fin (7 # 2); Signals.lookback := 60;
     Signals.use_ewm := true; Signals.ewm_halflife := Fin 30 |}.

(** Estimators of a standardised spread: mean 0 and standard deviation 1 at
    every step but the first, where the deviation of a single observation is
    missing. *)
Definition mean_zero (_ : float) (s : list float) : list float :=
  map (fun _ => Fin 0) s.

Definition std_one (_ : float) (s : list float) : list float :=
  match s with
  | [] => []
  | _ :: rest => NaN :: map (fun _ => Fin 1) rest
  end.

Definition rolling_unused (_ : nat) (s : list float) : list float :=
  map (fun _ => NaN) s.

Definition signals_of (y : list float) : result Signals.signals_frame :=
  Signals.generate_signals mean_zero std_one rolling_unused rolling_unused
    generator_default y (map (fun _ => Fin 0) y) (Fin 0) (Fin 0).

Definition frame_of (r : result Signals.signals_frame) : Signals.signals_frame :=
  match r with
  | Ok df => df
  | Raise _ =>
      {| Signals.sig_spread := []; Signals.sig_zscore := [];
         Signals.sig_position := []; Signals.sig_confidence := [] |}
  end.

(** A z-score path that rises above entry_z, falls below exit_z and rises
    above stop_z. *)
Definition rise_fall_rise : list float :=
  [Fin 0; Fin (5 # 2); Fin (3 # 10); Fin 4].

(** The same with quiet steps between the three crossings. *)
Definition rise_fall_rise_slow : list float :=
  [Fin 0; Fin 1; Fin (5 # 2); Fin 1; Fin (3 # 10); Fin 1; Fin 4].

(** A spread with a missing value one step after an entry. *)
Definition gap_after_entry : list float :=
  [Fin 0; Fin (5 # 2); NaN; Fin 1].

(** Least squares on two rows [[1, x1], [1, x2]] with x1 <> x2: the line
    through the two points. *)
Definition lstsq_two_rows (a : list (list float)) (b : list float)
  : result (list float) :=
  match a, b with
  | [[_; x1]; [_; x2]], [y1; y2] =>
      let theta := fdiv (fsub y2 y1) (fsub x2 x1) in
      Ok [fsub y1 (fmul theta x1); theta]
  | _, _ => Raise LinAlgError
  end.

(** The least-squares coefficient of the regression without a constant,
    diff(t) = theta * lag(t) + eps: sum(lag * diff) / sum(lag * lag). *)
Definition ols_no_intercept (spread : list float) : float :=
  let lag := removelast spread in
  let d := np_diff spread in
  fdiv (sum (map (fun p => fmul (fst p) (snd p)) (combine lag d)))
       (sum (map (fun v => fmul v v) lag)).

(** Library routines for a screening run: a least-squares routine that does
    not converge on fewer than three rows and otherwise answers intercept 0
    and slope -0.1, tests that report a p-value of 0.01, correlation 0.9. *)
Definition lstsq_needs_three (a : list (list float)) (b : list float)
  : result (list float) :=
  if Nat.ltb (length a) 3 then Raise LinAlgError else Ok [Fin 0; Fin (-1 # 10)].

Definition adfuller_significant (s : list float) : result (float * float * list float) :=
  Ok (Fin (-4), Fin (1 # 100), []).

Definition coint_significant (y x : list float) : result (float * float) :=
  Ok (Fin (-4), Fin (1 # 100)).

Definition corr_high (p : Tester.DataFrame) (a b : string) : float := Fin (9 # 10).

Definition tester_small : Tester.CointegrationTester :=
  {| Tester.significance := Fin (5 # 100); Tester.min_half_life := Fin 5;
     Tester.max_half_life := Fin 120; Tester.min_correlation := Fin (1 # 2);
     Tester.rolling_window := 2 |}.

Definition screen (prices : Tester.DataFrame) : result (list Tester.pair_record) :=
  Tester.screen_universe lstsq_needs_three adfuller_significant coint_significant
    corr_high tester_small prices.


(** C misses two prices: the regression of the test itself has two rows. *)
Definition panel_two_gaps : Tester.DataFrame :=
  [("A", [Fin 10; Fin 11; Fin 12; Fin 13]);
   ("B", [Fin 20; Fin 21; Fin 23; Fin 22]);
   ("C", [Fin 30; NaN; NaN; Fin 33])].

Definition pair_A_B : Tester.pair_record :=
  {| Tester.ticker_y := "A"; Tester.ticker_x := "B";
     Tester.hedge_ratio := Fin (-1 # 10); Tester.intercept := Fin 0;
     Tester.coint_pvalue := Fin (1 # 100); Tester.adf_pvalue := Fin (1 # 100);
     Tester.half_life := fdiv (fopp np_log2) (Fin (-1 # 10));
     Tester.correlation := Fin (9 # 10) |}.

(** Library routines for the metrics: a power that is exact for exponent 1
    and missing otherwise, and moments that are 0 on series of zeros. *)
Definition power_stub (a e : float) : float :=
  if feqb e (Fin 1) then a else NaN.

Definition moment_stub (s : list float) : float :=
  if forallb (fun v => feqb v zero) s then Fin 0 else NaN.

Definition metrics_of (returns : list float) : result dict :=
  Backtest._compute_metrics rational_sqrt power_stub moment_stub moment_stub
    moment_stub returns.

End Examples.

(** ** Definitions for the further properties *)

(** [range(lo, hi, step)] for non-negative arguments. *)
Fixpoint range_from (count lo step : nat) : list nat :=
  match count with
  | O => []
  | S c => lo :: range_from c (lo + step) step
  end.

Definition range_step (lo hi step : nat) : result (list nat) :=
  if Nat.eqb step 0 then Raise ValueError
  else Ok (range_from ((hi - lo + step - 1) / step) lo step).

(** [s.iloc[a:b]] for [0 <= a]. *)
Definition iloc_slice {A : Type} (s : list A) (a b : nat) : list A :=
  firstn (b - a) (skipn a s).

Module TesterRolling.
Import Tester.
Section TesterRolling.

Variable lstsq : list (list float) -> list float -> result (list float).
Variable adfuller : list float -> result (float * float * list float).
Variable coint : list float -> list float -> result (float * float).

(** One row of the frame [rolling_cointegration_check] returns; the date is
    the position of the row of [y] it is taken from. *)
Record rolling_row : Type := {
  rr_date : nat;
  rr_coint_pvalue : float;
  rr_hedge_ratio : float;
  rr_half_life : float;
  rr_is_cointegrated : bool
}.

(** [y.index[end - 1]]: for [end = 0] the index -1 is the last row. *)
Definition window_date (y : list float) (end_ : nat) : nat :=
  if Nat.eqb end_ 0 then length y - 1 else end_ - 1.

Definition rolling_rows (self : CointegrationTester) (y x : list float)
  (window : nat) (ends : list nat) : list rolling_row :=
  flat_map
    (fun end_ =>
       match rolling_check_window lstsq adfuller coint self
               (iloc_slice y (end_ - window) end_)
               (iloc_slice x (end_ - window) end_) with
       | None => []
       | Some (pv, hr, hl, ic) =>
           [{| rr_date := window_date y end_; rr_coint_pvalue := pv;
               rr_hedge_ratio := hr; rr_half_life := hl;
               rr_is_cointegrated := ic |}]
       end)
    ends.

(** [pd.DataFrame(results).set_index('date')]: a frame made from an empty
    list has no column named date. *)
Definition rolling_cointegration_check (self : CointegrationTester)
  (y x : list float) (window step : nat) : result (list rolling_row) :=
  ends <- range_step window (length y) step ;;
  match rolling_rows self y x window ends with
  | [] => Raise KeyError
  | row :: rows => Ok (row :: rows)
  end.

(** What holds of every pair the screener returns, filter by filter. *)
Definition passed (corr : DataFrame -> string -> string -> float)
  (self : CointegrationTester) (prices : DataFrame) (r : pair_record) : Prop :=
  In (ticker_y r, ticker_x r) (combinations2 (map fst prices)) /\
  correlation r = corr prices (ticker_y r) (ticker_x r) /\
  flt (fabs (correlation r)) (min_correlation self) = false /\
  exists (col_y col_x : list float) (results : eg_result),
    column prices (ticker_y r) = Ok col_y /\
    column prices (ticker_x r) = Ok col_x /\
    (rolling_window self <= length (common_rows col_y col_x))%nat /\
    engle_granger_test lstsq adfuller coint (map fst (common_rows col_y col_x))
      (map snd (common_rows col_y col_x)) = Ok results /\
    fgt (eg_coint_pvalue results) (significance self) = false /\
    coint_pvalue r = eg_coint_pvalue results /\
    adf_pvalue r = eg_adf_pvalue results /\
    hedge_ratio r = eg_hedge_ratio results /\
    intercept r = eg_intercept results.

End TesterRolling.
End TesterRolling.

(** [d[key] = value] on a dictionary in insertion order. *)
Fixpoint set_key {V : Type} (d : list (string * V)) (key : string) (value : V)
  : list (string * V) :=
  match d with
  | [] => [(key, value)]
  | (k, v) :: rest =>
      if String.eqb k key then (k, value) :: rest
      else (k, v) :: set_key rest key value
  end.

(** [pd.DataFrame(series_by_name).mean(axis=1)] for Series on one positional
    index: row by row, the mean of the values present. *)
Definition frame_height (cols : list (list float)) : nat :=
  fold_right Nat.max 0%nat (map (@length float) cols).

Definition row_means (cols : list (list float)) : list float :=
  map (fun t => mean (map (fun c => nth t c NaN) cols)) (seq 0 (frame_height cols)).

(** ** backtest/engine.py, the orchestrator *)

Module Engine.
Section Engine.

(** Library routines of the components, and the label slices
    [prices.loc[start:]] and [prices.loc[:end]]. *)
Variable lstsq : list (list float) -> list float -> result (list float).
Variable adfuller : list float -> result (float * float * list float).
Variable coint : list float -> list float -> result (float * float).
Variable corr : Tester.DataFrame -> string -> string -> float.
Variable ewm_mean ewm_std : float -> list float -> list float.
Variable rolling_mean rolling_std : nat -> list float -> list float.
Variable np_sqrt : float -> float.
Variable np_power : float -> float -> float.
Variable pd_std pd_skew pd_kurtosis : list float -> float.
Variable loc_from loc_to : string -> Tester.DataFrame -> Tester.DataFrame.

(** The configuration keys [PairsBacktester] reads. *)
Record Config : Type := {
  cfg_significance : float;
  cfg_min_half_life : float;
  cfg_max_half_life : float;
  cfg_rolling_window : nat;
  cfg_entry_z : float;
  cfg_exit_z : float;
  cfg_stop_z : float;
  cfg_lookback_zscore : nat;
  cfg_max_pairs : nat;
  cfg_max_portfolio_drawdown : float
}.

(** The components [__init__] builds: the arguments it does not pass keep the
    defaults of the constructors. *)
Definition coint_tester (config : Config) : Tester.CointegrationTester :=
  {| Tester.significance := cfg_significance config;
     Tester.min_half_life := cfg_min_half_life config;
     Tester.max_half_life := cfg_max_half_life config;
     Tester.min_correlation := Fin (1 # 2);
     Tester.rolling_window := 252 |}.

Definition signal_gen (config : Config) : Signals.ZScoreSignalGenerator :=
  {| Signals.entry_z := cfg_entry_z config;
     Signals.exit_z := cfg_exit_z config;
     Signals.stop_z := cfg_stop_z config;
     Signals.lookback := cfg_lookback_zscore config;
     Signals.use_ewm := true;
     Signals.ewm_halflife := Fin 30 |}.

Definition kalman : Kalman.KalmanHedgeRatio :=
  {| Kalman.delta := Fin (1 # 10000); Kalman.Ve := Fin 1;
     Kalman.initial_mean := Fin 0; Kalman.initial_cov := Fin 1 |}.

(** [prices.iloc[:n]] and [prices.iloc[n:]]. *)
Definition head_rows (n : nat) (prices : Tester.DataFrame) : Tester.DataFrame :=
  map (fun nc => (fst nc, firstn n (snd nc))) prices.

Definition tail_rows (n : nat) (prices : Tester.DataFrame) : Tester.DataFrame :=
  map (fun nc => (fst nc, skipn n (snd nc))) prices.

(** What [run] returns: the two-key dictionary of a period without pairs, or
    the four-key dictionary. *)
Inductive run_result : Type :=
| NoPairs
| Ran (portfolio_returns : list float) (pair_results : list (string * list float))
      (metrics : dict) (pairs_selected : list Tester.pair_record).

(** The body of the loop over the selected pairs. *)
Definition run_pair (config : Config) (trading : Tester.DataFrame)
  (pair_pnls : list (string * list float)) (pair : Tester.pair_record)
  : result (list (string * list float)) :=
  y <- Tester.column trading (Tester.ticker_y pair) ;;
  x <- Tester.column trading (Tester.ticker_x pair) ;;
  _ <- Kalman.filter np_sqrt kalman y x ;;
  signals <- Signals.generate_signals ewm_mean ewm_std rolling_mean rolling_std
               (signal_gen config) y x
               (Tester.hedge_ratio pair) (Tester.intercept pair) ;;
  let pnl := Signals.compute_signal_pnl (Signals.sig_position signals) y x
               (Tester.hedge_ratio pair) (Fin 5) in
  Ok (set_key pair_pnls
        (Tester.ticker_y pair ++ "/" ++ Tester.ticker_x pair)%string
        (Signals.net_return pnl)).

Fixpoint run_pairs (config : Config) (trading : Tester.DataFrame)
  (pairs : list Tester.pair_record) (pair_pnls : list (string * list float))
  : result (list (string * list float)) :=
  match pairs with
  | [] => Ok pair_pnls
  | p :: rest =>
      pair_pnls' <- run_pair config trading pair_pnls p ;;
      run_pairs config trading rest pair_pnls'
  end.

(** The first two statements of [run]: a date that is [None] or empty is
    ignored. *)
Definition restrict (prices : Tester.DataFrame) (start_date end_date : option string)
  : Tester.DataFrame :=
  let prices :=
    match start_date with
    | Some d => if String.eqb d "" then prices else loc_from d prices
    | None => prices
    end in
  match end_date with
  | Some d => if String.eqb d "" then prices else loc_to d prices
  | None => prices
  end.

Definition run (config : Config) (prices : Tester.DataFrame)
  (start_date end_date : option string) : result run_result :=
  let prices := restrict prices start_date end_date in
  let window := cfg_rolling_window config in
  pairs <- Tester.screen_universe lstsq adfuller coint corr (coint_tester config)
             (head_rows window prices) ;;
  match pairs with
  | [] => Ok NoPairs
  | _ :: _ =>
      let pairs := firstn (cfg_max_pairs config) pairs in
      let trading := tail_rows window prices in
      pair_pnls <- run_pairs config trading pairs [] ;;
      let port_ret := row_means (map snd pair_pnls) in
      metrics <- Backtest._compute_metrics np_sqrt np_power pd_std pd_skew
                   pd_kurtosis port_ret ;;
      Ok (Ran port_ret pair_pnls metrics pairs)
  end.

End Engine.
End Engine.

(** ** risk/manager.py *)

(** Python's [max(a, b)] and [min(a, b)] on two numbers: the first argument
    is kept unless the second is strictly larger (smaller). *)
Definition py_max (a b : float) : float := if flt a b then b else a.
Definition py_min (a b : float) : float := if flt b a then b else a.

Module Risk.
Section Risk.

(** The true division of the numbers the caller passes: [py_truediv] for
    Python floats, [np_truediv] for numpy floats. *)
Variable truediv : float -> float -> result float.

Record PositionSizer : Type := { kelly_fraction : float }.

Local Open Scope float_scope.

Definition compute_kelly_size (self : PositionSizer) (win_rate avg_win avg_loss : float)
  : result float :=
  if feqb avg_loss (Fin 0) then Ok (Fin 0)
  else
    b <- truediv avg_win (fabs avg_loss) ;;
    kelly <- truediv (win_rate * b - (Fin 1 - win_rate)) b ;;
    Ok (py_max (Fin 0) (kelly_fraction self * kelly)).

Record DrawdownMonitor : Type := {
  max_drawdown : float;
  peak : float;
  current_value : float;
  is_stopped : bool
}.

(** [DrawdownMonitor(max_drawdown)]. *)
Definition new_monitor (max_dd : float) : DrawdownMonitor :=
  {| max_drawdown := max_dd; peak := Fin 1; current_value := Fin 1;
     is_stopped := false |}.

(** [update] returns the new state of the object and the dictionary
    (drawdown, peak, is_stopped). *)
Definition update (self : DrawdownMonitor) (value : float)
  : result (DrawdownMonitor * (float * float * bool)) :=
  let current' := value in
  let peak' := py_max (peak self) value in
  dd <- truediv (peak' - current') peak' ;;
  let stopped' := if fge dd (max_drawdown self) then true else is_stopped self in
  Ok ({| max_drawdown := max_drawdown self; peak := peak';
         current_value := current'; is_stopped := stopped' |},
      (dd, peak', stopped')).

Definition reset (self : DrawdownMonitor) : DrawdownMonitor :=
  {| max_drawdown := max_drawdown self; peak := current_value self;
     current_value := current_value self; is_stopped := false |}.

(** A caller feeding a path of portfolio values to [update]. *)
Fixpoint updates (self : DrawdownMonitor) (values : list float)
  : result DrawdownMonitor :=
  match values with
  | [] => Ok self
  | v :: rest => r <- update self v ;; updates (fst r) rest
  end.

End Risk.

(** [size_from_backtest]: [returns] is a pandas Series, so the means passed to
    [compute_kelly_size] are numpy floats. *)
Definition size_from_backtest (self : PositionSizer) (returns : list float)
  (max_size : float) : result float :=
  let wins := filter (fun v => fgt v (Fin 0)) returns in
  let losses := filter (fun v => flt v (Fin 0)) returns in
  if Nat.eqb (length wins) 0 || Nat.eqb (length losses) 0 then Ok (Fin 0)
  else
    wr <- py_truediv (of_nat (length wins))
            (of_nat (length (filter (fun v => negb (feqb v (Fin 0))) returns))) ;;
    k <- compute_kelly_size np_truediv self wr (mean wins) (mean losses) ;;
    Ok (py_min k max_size).

End Risk.

(** ** risk/sector_constraints.py *)

(** [d.get(key)] and [d.get(key, default)] on a dictionary in insertion
    order. *)
Fixpoint lookup {V : Type} (d : list (string * V)) (key : string) : option V :=
  match d with
  | [] => None
  | (k, v) :: rest => if String.eqb k key then Some v else lookup rest key
  end.

Definition get_default {V : Type} (d : list (string * V)) (key : string) (default : V)
  : V :=
  match lookup d key with
  | Some v => v
  | None => default
  end.

Module Sector.
Section Sector.

(** The order in which Python iterates over [set(keys)], which the language
    leaves open. *)
Variable set_order : list string -> list string.

Record SectorExposure : Type := {
  sector : string;
  long_exposure : float;
  short_exposure : float;
  net_exposure : float;
  gross_exposure : float
}.

Record SectorConstraintManager : Type := {
  max_sector_net : float;
  max_sector_gross : float;
  sector_map : list (string * string)
}.

Local Open Scope float_scope.

(** The key [f"{pair['ticker_y']}/{pair['ticker_x']}"]. *)
Definition pair_key (p : Tester.pair_record) : string :=
  (Tester.ticker_y p ++ "/" ++ Tester.ticker_x p)%string.

(** The body of the first loop of [compute_sector_exposures], on the pair of
    dictionaries [(sector_long, sector_short)]. *)
Definition exposure_body (self : SectorConstraintManager) (position_sizes : dict)
  (st : dict * dict) (p : Tester.pair_record) : dict * dict :=
  let size := get_default position_sizes (pair_key p) (Fin 0) in
  if feqb size (Fin 0) then st
  else
    let ys := get_default (sector_map self) (Tester.ticker_y p) "Unknown"%string in
    let xs := get_default (sector_map self) (Tester.ticker_x p) "Unknown"%string in
    (set_key (fst st) ys (get_default (fst st) ys (Fin 0) + fabs size),
     set_key (snd st) xs (get_default (snd st) xs (Fin 0) + fabs size)).

Definition exposure_of (sector_long sector_short : dict) (s : string) : SectorExposure :=
  let l := get_default sector_long s (Fin 0) in
  let sh := get_default sector_short s (Fin 0) in
  {| sector := s; long_exposure := l; short_exposure := sh;
     net_exposure := l - sh; gross_exposure := l + sh |}.

Definition compute_sector_exposures (self : SectorConstraintManager)
  (active_pairs : list Tester.pair_record) (position_sizes : dict)
  : list (string * SectorExposure) :=
  let st := fold_left (exposure_body self position_sizes) active_pairs ([], []) in
  fold_left
    (fun exposures s => set_key exposures s (exposure_of (fst st) (snd st) s))
    (set_order (map fst (fst st) ++ map fst (snd st))) [].

Definition check_constraints (self : SectorConstraintManager)
  (exposures : list (string * SectorExposure)) : list (string * bool) :=
  map (fun se =>
         (fst se,
          fle (fabs (net_exposure (snd se))) (max_sector_net self)
          && fle (gross_exposure (snd se)) (max_sector_gross self)))
      exposures.

(** [self.sector_map.get(ticker) == sector]: [None] equals no sector. *)
Definition in_sector (self : SectorConstraintManager) (ticker sector : string) : bool :=
  match lookup (sector_map self) ticker with
  | Some s => String.eqb s sector
  | None => false
  end.

(** The inner loop of [scale_to_constraints]. *)
Definition scale_pairs (self : SectorConstraintManager) (sector : string)
  (scale : float) (active_pairs : list Tester.pair_record) (scaled : dict) : dict :=
  fold_left
    (fun scaled p =>
       if in_sector self (Tester.ticker_y p) sector
          || in_sector self (Tester.ticker_x p) sector
       then set_key scaled (pair_key p)
              (get_default scaled (pair_key p) (Fin 0) * scale)
       else scaled)
    active_pairs scaled.

(** The outer loop, over [violations.items()]; sizes and limits are Python
    floats, whose division raises on a zero divisor. *)
Fixpoint scale_loop (self : SectorConstraintManager)
  (exposures : list (string * SectorExposure))
  (active_pairs : list Tester.pair_record)
  (violations : list (string * bool)) (scaled : dict) : result dict :=
  match violations with
  | [] => Ok scaled
  | (sector, ok) :: rest =>
      if ok then scale_loop self exposures active_pairs rest scaled
      else
        exp <- match lookup exposures sector with
               | Some e => Ok e
               | None => Raise KeyError
               end ;;
        scale <- (if fgt (gross_exposure exp) (max_sector_gross self)
                  then py_truediv (max_sector_gross self) (gross_exposure exp)
                  else py_truediv (max_sector_net self) (fabs (net_exposure exp))) ;;
        scale_loop self exposures active_pairs rest
          (scale_pairs self sector scale active_pairs scaled)
  end.

Definition scale_to_constraints (self : SectorConstraintManager)
  (active_pairs : list Tester.pair_record) (position_sizes : dict) : result dict :=
  let exposures := compute_sector_exposures self active_pairs position_sizes in
  let violations := check_constraints self exposures in
  scale_loop self exposures active_pairs violations position_sizes.

End Sector.
End Sector.

(** ** Predicates of the statements *)

(** The four work arrays of [filter] have [n] entries each. *)
Definition sized (n : nat) (st : Kalman.arrays) : Prop :=
  length (Kalman.beta st) = n /\ length (Kalman.P st) = n /\
  length (Kalman.spread st) = n /\ length (Kalman.forecast_error st) = n.

(** The three positions. *)
Definition is_position (p : Z) : Prop := p = (-1)%Z \/ p = 0%Z \/ p = 1%Z.

(** Consecutive entries, the first one compared with [prev], differ by at most
    one. *)
Fixpoint small_steps (prev : Z) (l : list Z) : Prop :=
  match l with
  | [] => True
  | p :: rest => (Z.abs (p - prev) <= 1)%Z /\ small_steps p rest
  end.

(** The order of the screener's result. *)
Definition by_half_life (a b : Tester.pair_record) : Prop :=
  fle (Tester.half_life a) (Tester.half_life b) = true.

(** The two accumulators when no ticker is mapped: one sector, "Unknown",
    with the same finite non-negative total on both sides. *)
Definition balanced (st : dict * dict) : Prop :=
  fst st = snd st /\
  (fst st = [] \/ exists q : Q, fst st = [("Unknown"%string, Fin q)] /\ 0 <= q).

(** An exposure record with equal finite sides: no net exposure. *)
Definition neutral (e : Sector.SectorExposure) : Prop :=
  exists q : Q, 0 <= q /\ Sector.long_exposure e = Fin q /\ Sector.short_exposure e = Fin q /\
    Sector.net_exposure e = Fin 0 /\ Sector.gross_exposure e = Fin (Qred (q + q)).

(** ** Concrete instances for the further properties *)

Module ExamplesMore.
Import Examples.

Local Open Scope string_scope.

(** The default generator with a wider stop. *)
Definition generator_wide_stop : Signals.ZScoreSignalGenerator :=
  {| Signals.entry_z := Fin 2; Signals.exit_z := Fin (1 # 2);
     Signals.stop_z := Fin 10; Signals.lookback := 60;
     Signals.use_ewm := true; Signals.ewm_halflife := Fin 30 |}.

(** The mirror image of [rise_fall_rise]. *)
Definition fall_rise_fall : list float := map fopp rise_fall_rise.

(** Two instruments observed on four rows. *)
Definition panel_A_B : Tester.DataFrame :=
  [("A", [Fin 10; Fin 11; Fin 12; Fin 13]);
   ("B", [Fin 20; Fin 21; Fin 23; Fin 22])].

Definition records_of (r : result (list Tester.pair_record)) : list Tester.pair_record :=
  match r with
  | Ok l => l
  | Raise _ => []
  end.

(** The test of the pair (A, B) with the routines of [Examples]. *)
Definition eg_A_B : result Tester.eg_result :=
  Tester.engle_granger_test lstsq_needs_three adfuller_significant coint_significant
    [Fin 10; Fin 11; Fin 12; Fin 13] [Fin 20; Fin 21; Fin 23; Fin 22].

Definition eg_of (r : result Tester.eg_result) : Tester.eg_result :=
  match r with
  | Ok e => e
  | Raise _ =>
      {| Tester.eg_adf_statistic := NaN; Tester.eg_adf_pvalue := NaN;
         Tester.eg_coint_statistic := NaN; Tester.eg_coint_pvalue := NaN;
         Tester.eg_hedge_ratio := NaN; Tester.eg_intercept := NaN;
         Tester.eg_spread := []; Tester.eg_critical_values := [] |}
  end.

(** Label slices that keep every row. *)
Definition loc_all (_ : string) (prices : Tester.DataFrame) : Tester.DataFrame := prices.

(** The configuration of config/params.yaml, and one with a training window
    of 60 rows. *)
Definition config_default : Engine.Config :=
  {| Engine.cfg_significance := Fin (5 # 100);
     Engine.cfg_min_half_life := Fin 5;
     Engine.cfg_max_half_life := Fin 120;
     Engine.cfg_rolling_window := 252;
     Engine.cfg_entry_z := Fin 2;
     Engine.cfg_exit_z := Fin (1 # 2);
     Engine.cfg_stop_z := Fin (7 # 2);
     Engine.cfg_lookback_zscore := 60;
     Engine.cfg_max_pairs := 20;
     Engine.cfg_max_portfolio_drawdown := Fin (15 # 100) |}.

Definition config_short_window : Engine.Config :=
  {| Engine.cfg_significance := Fin (5 # 100);
     Engine.cfg_min_half_life := Fin 5;
     Engine.cfg_max_half_life := Fin 120;
     Engine.cfg_rolling_window := 60;
     Engine.cfg_entry_z := Fin 2;
     Engine.cfg_exit_z := Fin (1 # 2);
     Engine.cfg_stop_z := Fin (7 # 2);
     Engine.cfg_lookback_zscore := 60;
     Engine.cfg_max_pairs := 20;
     Engine.cfg_max_portfolio_drawdown := Fin (15 # 100) |}.

Definition run_of (config : Engine.Config) (prices : Tester.DataFrame)
  : result Engine.run_result :=
  Engine.run lstsq_needs_three adfuller_significant coint_significant corr_high
    mean_zero std_one rolling_unused rolling_unused rational_sqrt power_stub
    moment_stub moment_stub moment_stub loc_all loc_all config prices None None.

(** Two instruments on a training window of 252 rows, without and with three
    trading rows after it. *)
Definition panel_training : Tester.DataFrame :=
  [("A", repeat (Fin 10) 252); ("B", repeat (Fin 20) 252)].

Definition panel_trading : Tester.DataFrame :=
  [("A", (repeat (Fin 10) 252 ++ [Fin 10; Fin 11; Fin 12])%list);
   ("B", (repeat (Fin 20) 252 ++ [Fin 20; Fin 20; Fin 21])%list)].

Definition ran_port (r : result Engine.run_result) : list float :=
  match r with
  | Ok (Engine.Ran port _ _ _) => port
  | _ => []
  end.

Definition ran_pair_results (r : result Engine.run_result) : list (string * list float) :=
  match r with
  | Ok (Engine.Ran _ pair_results _ _) => pair_results
  | _ => []
  end.

Definition ran_metrics (r : result Engine.run_result) : dict :=
  match r with
  | Ok (Engine.Ran _ _ metrics _) => metrics
  | _ => []
  end.

Definition ran_selected (r : result Engine.run_result) : list Tester.pair_record :=
  match r with
  | Ok (Engine.Ran _ _ _ selected) => selected
  | _ => []
  end.

(** Daily returns with a gain, a gap, a loss and a flat day. *)
Definition returns_mixed : list float :=
  [Fin (1 # 100); NaN; Fin (-1 # 50); Fin 0].

(** Daily returns whose gain is three times the loss. *)
Definition returns_gainful : list float :=
  [Fin (3 # 100); Fin (-1 # 100); Fin 0].

Definition dict_of (r : result dict) : dict :=
  match r with
  | Ok d => d
  | Raise _ => []
  end.

(** The half-Kelly sizer, and a monitor with the default limit after a value
    of zero. *)
Definition sizer_default : Risk.PositionSizer :=
  {| Risk.kelly_fraction := Fin (1 # 2) |}.

Definition monitor_at_zero : Risk.DrawdownMonitor :=
  {| Risk.max_drawdown := Fin (15 # 100); Risk.peak := Fin 1;
     Risk.current_value := Fin 0; Risk.is_stopped := true |}.

(** A manager with the default limits and the default, empty sector map; sets
    iterated in order of first occurrence. *)
Definition manager_default : Sector.SectorConstraintManager :=
  {| Sector.max_sector_net := Fin (15 # 100);
     Sector.max_sector_gross := Fin (30 # 100);
     Sector.sector_map := [] |}.

Definition first_occurrence (l : list string) : list string :=
  nodup string_dec l.

Definition sizes_A_B : dict := [("A/B", Fin (1 # 2))].

End ExamplesMore.

(** * Theorems *)

(** ** Order on extended numbers *)

Lemma flt_Fin (p q : Q) : flt (Fin p) (Fin q) = true <-> p < q.
Proof.
  unfold flt. rewrite Qlt_alt. destruct (p ?= q); split; congruence.
Qed.

Lemma flt_Fin_false (p q : Q) : flt (Fin p) (Fin q) = false <-> q <= p.
Proof.
  split; intros H.
  - destruct (Qlt_le_dec p q) as [L|L]; [|exact L].
    apply flt_Fin in L. congruence.
  - destruct (flt (Fin p) (Fin q)) eqn:E; [|reflexivity].
    apply flt_Fin in E. exfalso. lra.
Qed.

Lemma fle_Fin (p q : Q) : fle (Fin p) (Fin q) = true <-> p <= q.
Proof. apply Qle_bool_iff. Qed.

Lemma fle_Fin_false (p q : Q) : fle (Fin p) (Fin q) = false <-> q < p.
Proof.
  unfold fle. split; intros H.
  - apply Qnot_le_lt. intros Hle. apply Qle_bool_iff in Hle. congruence.
  - destruct (Qle_bool p q) eqn:E; [|reflexivity].
    apply Qle_bool_iff in E. exfalso. lra.
Qed.

Ltac float_cases :=
  repeat match goal with
    | a : float |- _ => destruct a
    end;
  unfold fgt, fge in *;
  repeat match goal with
    | H : flt (Fin _) (Fin _) = true |- _ => apply flt_Fin in H
    | H : flt (Fin _) (Fin _) = false |- _ => apply flt_Fin_false in H
    | H : fle (Fin _) (Fin _) = true |- _ => apply fle_Fin in H
    | H : fle (Fin _) (Fin _) = false |- _ => apply fle_Fin_false in H
    end;
  try match goal with
    | |- flt (Fin _) (Fin _) = true => apply flt_Fin
    | |- flt (Fin _) (Fin _) = false => apply flt_Fin_false
    | |- fle (Fin _) (Fin _) = true => apply fle_Fin
    | |- fle (Fin _) (Fin _) = false => apply fle_Fin_false
    end;
  try lra;
  try (cbn in *; first [reflexivity | discriminate]).

Lemma flt_fle (a b : float) : flt a b = true -> fle a b = true.
Proof. intros H. float_cases. Qed.

Lemma fle_flt_false (a b : float) : fle a b = true -> flt b a = false.
Proof. intros H. float_cases. Qed.

Lemma fle_trans (a b c : float) : fle a b = true -> fle b c = true -> fle a c = true.
Proof. intros H1 H2. float_cases. Qed.

Lemma fle_flt_trans (a b c : float) :
  fle a b = true -> flt b c = true -> flt a c = true.
Proof. intros H1 H2. float_cases. Qed.

Lemma flt_fle_trans (a b c : float) :
  flt a b = true -> fle b c = true -> flt a c = true.
Proof. intros H1 H2. float_cases. Qed.

Lemma flt_not_nan (a b : float) : flt a b = true -> isnan a = false /\ isnan b = false.
Proof. intros H. split; float_cases. Qed.

Lemma fle_not_nan (a b : float) : fle a b = true -> isnan a = false /\ isnan b = false.
Proof. intros H. split; float_cases. Qed.

Lemma fle_fopp_Fin (p q : Q) : - p <= q -> fle (fopp (Fin p)) (Fin q) = true.
Proof. intros H. cbn [fopp]. apply fle_Fin. rewrite Qred_correct. exact H. Qed.

(** ** Arrays and loops *)

Lemma getitem_app {A : Type} (pre : list A) (v : A) (post : list A) :
  getitem (pre ++ v :: post) (length pre) = Ok v.
Proof.
  unfold getitem. rewrite nth_error_app2 by lia.
  now rewrite Nat.sub_diag.
Qed.

Lemma update_app {A : Type} (pre : list A) (z v : A) (post : list A) :
  update (pre ++ z :: post) (length pre) v = pre ++ v :: post.
Proof. induction pre as [|h pre IH]; simpl; [reflexivity | now rewrite IH]. Qed.

Lemma setitem_app {A : Type} (pre : list A) (z v : A) (post : list A) :
  setitem (pre ++ z :: post) (length pre) v = Ok (pre ++ v :: post).
Proof.
  unfold setitem.
  assert (H : Nat.ltb (length pre) (length (pre ++ z :: post)) = true).
  { apply Nat.ltb_lt. rewrite length_app. simpl. lia. }
  rewrite H. now rewrite update_app.
Qed.

Lemma zip_with_combine (f : float -> float -> float) (a b : list float) :
  length a = length b ->
  zip_with f a b = Ok (map (fun ab => f (fst ab) (snd ab)) (combine a b)).
Proof.
  revert b. induction a as [|p a IH]; intros [|q b] H; simpl in *; try discriminate.
  - reflexivity.
  - rewrite IH by lia. reflexivity.
Qed.

(** ** The recursive estimator *)

Module KalmanFacts.
Import Kalman.
Section KalmanFacts.

Variable np_sqrt : float -> float.
Variable self : KalmanHedgeRatio.

(** [online_update] computes what one iteration of [filter] computes: always
    on numpy floats, and on Python floats when the innovation variance is not
    zero; when it is zero, Python's division raises. *)
Lemma online_locals_numpy (Vw y x b p : float) :
  online_locals np_truediv self Vw y x b p = Ok (filter_step self Vw b p x y).
Proof. reflexivity. Qed.

Lemma online_locals_python (Vw y x b p : float) :
  online_locals py_truediv self Vw y x b p
  = if feqb (l_S (filter_step self Vw b p x y)) zero then Raise ZeroDivisionError
    else Ok (filter_step self Vw b p x y).
Proof.
  unfold online_locals, py_truediv. cbn [filter_step l_S].
  destruct (feqb _ zero); reflexivity.
Qed.

Lemma replay_cons (truediv : float -> float -> result float) (y x : float)
  (obs : list (float * float)) (b p : float) :
  replay truediv self ((y, x) :: obs) b p
  = (r <- online_update truediv self y x b p ;;
     tl <- replay truediv self obs (step_beta r) (step_P r) ;;
     Ok (r :: tl)).
Proof.
  cbn [replay]. destruct (online_update truediv self y x b p) as [[[bn pn] e]|];
    reflexivity.
Qed.

Lemma trace_cons (Vw y x : float) (obs : list (float * float)) (b p : float) :
  let l := filter_step self Vw b p x y in
  trace self Vw ((y, x) :: obs) b p
  = (l_beta l, l_P l, l_e l) :: trace self Vw obs (l_beta l) (l_P l).
Proof. reflexivity. Qed.

Lemma innovations_cons (Vw y x : float) (obs : list (float * float)) (b p : float) :
  let l := filter_step self Vw b p x y in
  innovations self Vw ((y, x) :: obs) b p
  = l_S l :: innovations self Vw obs (l_beta l) (l_P l).
Proof. reflexivity. Qed.

Lemma online_update_numpy (Vw y x b p : float) :
  py_truediv (delta self) (Fin 1 - delta self)%float = Ok Vw ->
  let l := filter_step self Vw b p x y in
  online_update np_truediv self y x b p = Ok (l_beta l, l_P l, l_e l).
Proof.
  intros HVw l. unfold online_update. rewrite HVw. cbn [bind].
  rewrite online_locals_numpy. reflexivity.
Qed.

Lemma online_update_python (Vw y x b p : float) :
  py_truediv (delta self) (Fin 1 - delta self)%float = Ok Vw ->
  let l := filter_step self Vw b p x y in
  online_update py_truediv self y x b p
  = if feqb (l_S l) zero then Raise ZeroDivisionError
    else Ok (l_beta l, l_P l, l_e l).
Proof.
  intros HVw l. unfold online_update. rewrite HVw. cbn [bind].
  rewrite online_locals_python. fold l. destruct (feqb (l_S l) zero); reflexivity.
Qed.

Lemma replay_numpy (Vw : float) (obs : list (float * float)) (b p : float) :
  py_truediv (delta self) (Fin 1 - delta self)%float = Ok Vw ->
  replay np_truediv self obs b p = Ok (trace self Vw obs b p).
Proof.
  intros HVw. revert b p.
  induction obs as [|[y x] obs IH]; intros b p; [reflexivity|].
  rewrite replay_cons, trace_cons, (online_update_numpy Vw y x b p HVw).
  cbn [bind step_beta step_P fst snd]. rewrite IH. reflexivity.
Qed.

Lemma replay_python (Vw : float) (obs : list (float * float)) (b p : float) :
  py_truediv (delta self) (Fin 1 - delta self)%float = Ok Vw ->
  Forall (fun s => feqb s zero = false) (innovations self Vw obs b p) ->
  replay py_truediv self obs b p = Ok (trace self Vw obs b p).
Proof.
  intros HVw. revert b p.
  induction obs as [|[y x] obs IH]; intros b p H; [reflexivity|].
  rewrite innovations_cons in H. apply Forall_cons_iff in H.
  destruct H as [H0 Hrest]. cbv beta in H0.
  rewrite replay_cons, trace_cons, (online_update_python Vw y x b p HVw), H0.
  cbn [bind step_beta step_P fst snd]. rewrite (IH _ _ Hrest). reflexivity.
Qed.

Lemma replay_python_raises (Vw : float) (obs : list (float * float)) (b p : float) :
  py_truediv (delta self) (Fin 1 - delta self)%float = Ok Vw ->
  Exists (fun s => feqb s zero = true) (innovations self Vw obs b p) ->
  replay py_truediv self obs b p = Raise ZeroDivisionError.
Proof.
  intros HVw. revert b p.
  induction obs as [|[y x] obs IH]; intros b p H; [inversion H|].
  rewrite innovations_cons in H.
  rewrite replay_cons, (online_update_python Vw y x b p HVw).
  destruct (feqb (l_S (filter_step self Vw b p x y)) zero) eqn:E; [reflexivity|].
  cbn [bind step_beta step_P fst snd].
  apply Exists_cons in H. destruct H as [H0|Hrest]; [cbv beta in H0; congruence|].
  rewrite (IH _ _ Hrest). reflexivity.
Qed.

Lemma filter_body_step (Vw : float) (ypre xpre : list float) (y x : float)
  (ys xs bs Ps sps fes zb zP zs zf : list float) (b p z1 z2 z3 z4 : float) :
  length ypre = S (length bs) -> length xpre = S (length bs) ->
  length Ps = length bs -> length sps = S (length bs) -> length fes = S (length bs) ->
  let l := filter_step self Vw b p x y in
  filter_body self Vw (ypre ++ y :: ys) (xpre ++ x :: xs)
    {| beta := bs ++ b :: z1 :: zb; P := Ps ++ p :: z2 :: zP;
       spread := sps ++ z3 :: zs; forecast_error := fes ++ z4 :: zf |}
    (S (length bs))
  = Ok {| beta := (bs ++ [b]) ++ l_beta l :: zb; P := (Ps ++ [p]) ++ l_P l :: zP;
          spread := sps ++ l_e l :: zs; forecast_error := fes ++ l_e l :: zf |}.
Proof.
  intros Hy Hx HP Hs Hf l. unfold filter_body. cbn [beta P spread forecast_error].
  replace (S (length bs) - 1)%nat with (length bs) by lia.
  rewrite getitem_app. cbn [bind].
  rewrite <- HP at 1. rewrite getitem_app. cbn [bind].
  rewrite <- Hx at 1. rewrite getitem_app. cbn [bind].
  rewrite <- Hy at 1. rewrite getitem_app. cbn [bind].
  fold l.
  replace (bs ++ b :: z1 :: zb) with ((bs ++ [b]) ++ z1 :: zb)
    by (now rewrite <- app_assoc).
  replace (Ps ++ p :: z2 :: zP) with ((Ps ++ [p]) ++ z2 :: zP)
    by (now rewrite <- app_assoc).
  assert (Hb1 : S (length bs) = length (bs ++ [b]))
    by (rewrite length_app; simpl; lia).
  assert (HP1 : S (length bs) = length (Ps ++ [p]))
    by (rewrite length_app; simpl; lia).
  rewrite Hb1 at 1. rewrite setitem_app. cbn [bind].
  rewrite HP1 at 1. rewrite setitem_app. cbn [bind].
  rewrite <- Hs at 1. rewrite setitem_app. cbn [bind].
  rewrite <- Hf at 1. rewrite setitem_app. cbn [bind].
  reflexivity.
Qed.

Lemma filter_loop (Vw : float) (obs : list (float * float)) :
  forall (ypre xpre bs Ps sps fes : list float) (b p : float),
  length ypre = S (length bs) -> length xpre = S (length bs) ->
  length Ps = length bs -> length sps = S (length bs) -> length fes = S (length bs) ->
  for_each (seq (S (length bs)) (length obs))
    (filter_body self Vw (ypre ++ map fst obs) (xpre ++ map snd obs))
    {| beta := bs ++ b :: repeat zero (length obs);
       P := Ps ++ p :: repeat zero (length obs);
       spread := sps ++ repeat zero (length obs);
       forecast_error := fes ++ repeat zero (length obs) |}
  = Ok {| beta := bs ++ b :: map step_beta (trace self Vw obs b p);
          P := Ps ++ p :: map step_P (trace self Vw obs b p);
          spread := sps ++ map step_e (trace self Vw obs b p);
          forecast_error := fes ++ map step_e (trace self Vw obs b p) |}.
Proof.
  induction obs as [|[y x] obs IH]; intros ypre xpre bs Ps sps fes b p Hy Hx HP Hs Hf.
  - reflexivity.
  - cbn [length seq for_each map fst snd repeat trace].
    rewrite filter_body_step by assumption. cbn [bind].
    set (l := filter_step self Vw b p x y).
    replace (ypre ++ y :: map fst obs) with ((ypre ++ [y]) ++ map fst obs)
      by (now rewrite <- app_assoc).
    replace (xpre ++ x :: map snd obs) with ((xpre ++ [x]) ++ map snd obs)
      by (now rewrite <- app_assoc).
    replace (sps ++ l_e l :: repeat zero (length obs))
      with ((sps ++ [l_e l]) ++ repeat zero (length obs))
      by (now rewrite <- app_assoc).
    replace (fes ++ l_e l :: repeat zero (length obs))
      with ((fes ++ [l_e l]) ++ repeat zero (length obs))
      by (now rewrite <- app_assoc).
    assert (Hb1 : S (length bs) = length (bs ++ [b]))
      by (rewrite length_app; simpl; lia).
    rewrite Hb1.
    rewrite IH by (rewrite ?length_app; simpl; lia).
    cbn [step_beta step_P step_e fst snd].
    rewrite <- !app_assoc. reflexivity.
Qed.

Lemma trace_length (Vw : float) (obs : list (float * float)) (b p : float) :
  length (trace self Vw obs b p) = length obs.
Proof.
  revert b p. induction obs as [|[y x] obs IH]; intros b p; simpl;
    [reflexivity | now rewrite IH].
Qed.

(** What [filter] returns on aligned series of positive length. *)
Lemma filter_eval (Vw y0 x0 : float) (ys xs : list float) :
  length ys = length xs ->
  py_truediv (delta self) (Fin 1 - delta self)%float = Ok Vw ->
  let steps := trace self Vw (combine ys xs) (initial_mean self) (initial_cov self) in
  let betas := initial_mean self :: map step_beta steps in
  filter np_sqrt self (y0 :: ys) (x0 :: xs)
  = Ok {| col_hedge_ratio := betas;
          col_hedge_ratio_std := map np_sqrt (initial_cov self :: map step_P steps);
          col_spread :=
            map (fun ab => fsub (fst ab) (snd ab))
              (combine (y0 :: ys)
                 (map (fun ab => fmul (fst ab) (snd ab)) (combine betas (x0 :: xs))));
          col_forecast_error := zero :: map step_e steps |}.
Proof.
  intros Hlen HVw steps betas. unfold filter.
  cbn [length repeat setitem Nat.ltb Nat.leb update bind].
  rewrite HVw. cbn [bind]. unfold for_range.
  replace (S (length ys) - 1)%nat with (length ys) by lia.
  assert (Hobs : length (combine ys xs) = length ys)
    by (rewrite length_combine; lia).
  assert (Hfst : map fst (combine ys xs) = ys).
  { clear - Hlen. revert xs Hlen.
    induction ys as [|a l IH]; intros [|b m] H; simpl in *; try discriminate;
      [reflexivity | now rewrite IH by lia]. }
  assert (Hsnd : map snd (combine ys xs) = xs).
  { clear - Hlen. revert xs Hlen.
    induction ys as [|a l IH]; intros [|b m] H; simpl in *; try discriminate;
      [reflexivity | now rewrite IH by lia]. }
  pose proof (filter_loop Vw (combine ys xs) [y0] [x0] [] [] [zero] [zero]
                (initial_mean self) (initial_cov self)
                eq_refl eq_refl eq_refl eq_refl eq_refl) as Hloop.
  rewrite Hobs, Hfst, Hsnd in Hloop. cbn [length app] in Hloop.
  rewrite Hloop. cbn [bind beta P forecast_error app]. fold steps. fold betas.
  assert (Hsteps : length steps = length ys).
  { unfold steps. now rewrite trace_length. }
  rewrite zip_with_combine
    by (unfold betas; simpl; rewrite length_map; lia).
  cbn [bind].
  rewrite zip_with_combine
    by (simpl; rewrite length_map, length_combine; unfold betas; simpl;
        rewrite length_map; lia).
  reflexivity.
Qed.

(** C1 (amended): on aligned series, replaying [online_update] observation by
    observation from the configured prior returns, step for step, the hedge
    ratios, the variances (which [filter] reports through [np.sqrt]) and the
    forecast errors that one call of [filter] returns after its prior row:
    always when [online_update] is given numpy floats, and when it is given
    Python floats as long as no step has an innovation variance [S] of zero.
    With Python floats and a step where [S] is zero the replay raises
    [ZeroDivisionError], while [filter] returns. *)
Theorem filter_replays_online_update (y0 x0 : float) (ys xs : list float) :
  length ys = length xs ->
  feqb (Fin 1 - delta self)%float zero = false ->
  let Vw := (delta self / (Fin 1 - delta self))%float in
  let S_steps :=
    innovations self Vw (combine ys xs) (initial_mean self) (initial_cov self) in
  exists steps df,
    filter np_sqrt self (y0 :: ys) (x0 :: xs) = Ok df /\
    col_hedge_ratio df = initial_mean self :: map step_beta steps /\
    col_hedge_ratio_std df = map np_sqrt (initial_cov self :: map step_P steps) /\
    col_forecast_error df = zero :: map step_e steps /\
    replay np_truediv self (combine ys xs) (initial_mean self) (initial_cov self)
    = Ok steps /\
    (Forall (fun s => feqb s zero = false) S_steps ->
     replay py_truediv self (combine ys xs) (initial_mean self) (initial_cov self)
     = Ok steps) /\
    (Exists (fun s => feqb s zero = true) S_steps ->
     replay py_truediv self (combine ys xs) (initial_mean self) (initial_cov self)
     = Raise ZeroDivisionError).
Proof.
  intros Hlen Hd Vw S_steps.
  assert (HVw : py_truediv (delta self) (Fin 1 - delta self)%float = Ok Vw)
    by (unfold py_truediv; now rewrite Hd).
  exists (trace self Vw (combine ys xs) (initial_mean self) (initial_cov self)).
  eexists. split; [apply (filter_eval _ y0 x0 _ _ Hlen HVw)|].
  cbn [col_hedge_ratio col_hedge_ratio_std col_forecast_error].
  split; [reflexivity|]. split; [reflexivity|]. split; [reflexivity|].
  split; [apply (replay_numpy _ _ _ _ HVw)|]. split.
  - intros H. apply (replay_python _ _ _ _ HVw H).
  - intros H. apply (replay_python_raises _ _ _ _ HVw H).
Qed.

(** C10: on non-empty aligned series the first row of [filter] is the
    configured prior: hedge ratio [initial_mean], standard deviation
    [np.sqrt initial_cov], forecast error 0 and spread [y0 - initial_mean * x0];
    the estimates do not depend on the first observation, and the second row is
    the first update, made from the prior with the second observation. *)
Theorem filter_first_row_is_prior (y0 x0 : float) (ys xs : list float) :
  length ys = length xs ->
  feqb (Fin 1 - delta self)%float zero = false ->
  exists df,
    filter np_sqrt self (y0 :: ys) (x0 :: xs) = Ok df /\
    nth_error (col_hedge_ratio df) 0 = Some (initial_mean self) /\
    nth_error (col_hedge_ratio_std df) 0 = Some (np_sqrt (initial_cov self)) /\
    nth_error (col_forecast_error df) 0 = Some zero /\
    nth_error (col_spread df) 0 = Some (y0 - initial_mean self * x0)%float /\
    (forall y0' x0' : float,
        exists df',
          filter np_sqrt self (y0' :: ys) (x0' :: xs) = Ok df' /\
          col_hedge_ratio df' = col_hedge_ratio df /\
          col_hedge_ratio_std df' = col_hedge_ratio_std df /\
          col_forecast_error df' = col_forecast_error df) /\
    (forall (y1 x1 : float) (ys' xs' : list float),
        ys = y1 :: ys' -> xs = x1 :: xs' ->
        nth_error (col_hedge_ratio df) 1
        = Some (l_beta (filter_step self (delta self / (Fin 1 - delta self))%float
                          (initial_mean self) (initial_cov self) x1 y1))).
Proof.
  intros Hlen Hd.
  assert (HVw : py_truediv (delta self) (Fin 1 - delta self)%float
                = Ok (fdiv (delta self) (Fin 1 - delta self)%float))
    by (unfold py_truediv; now rewrite Hd).
  eexists. split; [apply (filter_eval _ y0 x0 _ _ Hlen HVw)|].
  cbn [col_hedge_ratio col_hedge_ratio_std col_forecast_error col_spread
       nth_error map combine fst snd].
  repeat split.
  - intros y0' x0'. eexists. split; [apply (filter_eval _ y0' x0' _ _ Hlen HVw)|].
    cbn [col_hedge_ratio col_hedge_ratio_std col_forecast_error map]. auto.
  - intros y1 x1 ys' xs' -> ->. reflexivity.
Qed.

(** Arithmetic of one update when the regressor is zero. *)
Lemma Qeq_bool_pos (q v : Q) : q == v -> 0 < v -> Qeq_bool q 0 = false.
Proof.
  intros Hq Hv. destruct (Qeq_bool q 0) eqn:E; [|reflexivity].
  apply Qeq_bool_eq in E. rewrite E in Hq. rewrite <- Hq in Hv.
  exfalso. revert Hv. apply Qlt_irrefl.
Qed.

Lemma filter_step_zero_regressor (ve vw b p y x : Q) :
  Ve self = Fin ve -> 0 < ve -> x == 0 ->
  let l := filter_step self (Fin vw) (Fin b) (Fin p) (Fin x) (Fin y) in
  (l_S l == Fin ve)%float /\ feqb (l_S l) zero = false /\
  (l_K l == zero)%float /\ (l_beta l == Fin b)%float /\
  (l_P l == l_P_pred l)%float /\ is_finite (l_beta l) = true.
Proof.
  intros HVe Hve Hx l. unfold l, filter_step. rewrite HVe.
  cbn [l_S l_K l_beta l_P l_P_pred fadd fmul fsub].
  assert (HS : Qred (Qred (Qred (x * Qred (p + vw)) * x) + ve) == ve).
  { rewrite !Qred_correct. rewrite Hx. ring. }
  assert (HS0 : Qeq_bool (Qred (Qred (Qred (x * Qred (p + vw)) * x) + ve)) 0 = false)
    by (apply (Qeq_bool_pos _ _ HS Hve)).
  unfold fdiv. rewrite HS0. cbn [fmul fadd fsub feq feqb zero is_finite].
  repeat split.
  - exact HS.
  - exact HS0.
  - rewrite !Qred_correct. rewrite Hx. unfold Qdiv. ring.
  - rewrite !Qred_correct. rewrite Hx. unfold Qdiv. ring.
  - rewrite !Qred_correct. rewrite Hx. unfold Qdiv. ring.
Qed.

Lemma getitem_update {A : Type} (l : list A) (i : nat) (v : A) :
  (i < length l)%nat -> getitem (update l i v) i = Ok v.
Proof.
  revert i. induction l as [|h l IH]; intros [|i] H; simpl in *; try lia.
  - reflexivity.
  - apply IH. lia.
Qed.

(** C8 (amended): at a step whose regressor [x_t] is zero, with a positive
    observation noise and a finite previous estimate, previous variance and
    observation, the innovation variance [S] equals the observation noise and
    is not zero, the gain [K] is zero, and the new hedge ratio equals the
    previous one: in the locals of [filter]'s loop body, in [online_update],
    which returns on Python floats as on numpy floats (no division by zero),
    and in the entry [beta[t]] the loop body of [filter] writes. *)
Theorem zero_regressor_keeps_hedge_ratio
  (ve d b p yt xt : Q) (y x : list float) (st : arrays) (t : nat) :
  Ve self = Fin ve -> 0 < ve ->
  delta self = Fin d -> ~ d == 1 ->
  xt == 0 ->
  getitem (beta st) (t - 1) = Ok (Fin b) -> getitem (P st) (t - 1) = Ok (Fin p) ->
  getitem x t = Ok (Fin xt) -> getitem y t = Ok (Fin yt) ->
  (t < length (beta st))%nat -> (t < length (P st))%nat ->
  (t < length (spread st))%nat -> (t < length (forecast_error st))%nat ->
  let Vw := (delta self / (Fin 1 - delta self))%float in
  let lf := filter_step self Vw (Fin b) (Fin p) (Fin xt) (Fin yt) in
  ((l_S lf == Ve self)%float /\ feqb (l_S lf) zero = false /\ (l_K lf == zero)%float /\
   (l_beta lf == Fin b)%float) /\
  (online_locals py_truediv self Vw (Fin yt) (Fin xt) (Fin b) (Fin p) = Ok lf /\
   online_locals np_truediv self Vw (Fin yt) (Fin xt) (Fin b) (Fin p) = Ok lf) /\
  (exists beta_new P_new e,
      online_update py_truediv self (Fin yt) (Fin xt) (Fin b) (Fin p)
      = Ok (beta_new, P_new, e) /\
      online_update np_truediv self (Fin yt) (Fin xt) (Fin b) (Fin p)
      = Ok (beta_new, P_new, e) /\
      (beta_new == Fin b)%float) /\
  (exists st' beta_t,
      filter_body self Vw y x st t = Ok st' /\
      getitem (beta st') t = Ok beta_t /\ (beta_t == Fin b)%float).
Proof.
  intros HVe Hve Hdelta Hd Hx Hb HP Hxt Hyt Lb LP Ls Lf Vw lf.
  assert (Hq : Qeq_bool (Qred (1 - d)) 0 = false).
  { destruct (Qeq_bool (Qred (1 - d)) 0) eqn:E; [|reflexivity].
    apply Qeq_bool_eq in E. rewrite Qred_correct in E.
    exfalso. apply Hd. lra. }
  assert (HVw : Vw = Fin (Qred (d / Qred (1 - d)))).
  { unfold Vw. rewrite Hdelta. cbn [fsub fdiv]. now rewrite Hq. }
  assert (Hpy : py_truediv (delta self) (Fin 1 - delta self)%float = Ok Vw).
  { unfold py_truediv. rewrite Hdelta. cbn [fsub feqb zero]. rewrite Hq.
    unfold Vw. now rewrite Hdelta. }
  pose proof (filter_step_zero_regressor ve (Qred (d / Qred (1 - d))) b p yt xt HVe Hve Hx)
    as Hl.
  rewrite <- HVw in Hl. fold lf in Hl.
  destruct Hl as (HS & HS0 & HK & Hbeta & _ & _).
  assert (Hlo : online_locals py_truediv self Vw (Fin yt) (Fin xt) (Fin b) (Fin p) = Ok lf).
  { rewrite online_locals_python. fold lf. now rewrite HS0. }
  rewrite HVe.
  split; [repeat split; assumption|].
  split; [split; [exact Hlo|reflexivity]|].
  split.
  - exists (l_beta lf), (l_P lf), (l_e lf). split; [|split; [|assumption]].
    + unfold online_update. rewrite Hpy. cbn [bind]. rewrite Hlo. reflexivity.
    + unfold online_update. rewrite Hpy. cbn [bind]. rewrite online_locals_numpy.
      reflexivity.
  - unfold filter_body. rewrite Hb, HP, Hxt, Hyt. cbn [bind]. fold lf.
    unfold setitem.
    apply Nat.ltb_lt in Lb, LP, Ls, Lf. rewrite Lb, LP, Ls, Lf. cbn [bind].
    apply Nat.ltb_lt in Lb.
    eexists. exists (l_beta lf). split; [reflexivity|]. cbn [beta].
    split; [now apply getitem_update | assumption].
Qed.

End KalmanFacts.
End KalmanFacts.

(** ** Series *)

Lemma length_series_op (f : float -> float -> float) (a b : list float) :
  length a = length b -> length (series_op f a b) = length a.
Proof.
  revert b. induction a as [|p a IH]; intros [|q b] H; simpl in *; try discriminate.
  - reflexivity.
  - now rewrite IH by lia.
Qed.

Lemma nth_series_op (f : float -> float -> float) (a b : list float) (k : nat) :
  length a = length b -> (k < length a)%nat ->
  nth k (series_op f a b) NaN = f (nth k a NaN) (nth k b NaN).
Proof.
  revert b k. induction a as [|p a IH]; intros [|q b] k H Hk; simpl in *;
    try discriminate; try lia.
  destruct k as [|k]; [reflexivity|]. apply IH; lia.
Qed.

Lemma length_removelast_cons {A : Type} (h : A) (s : list A) :
  length (removelast (h :: s)) = length s.
Proof.
  revert h. induction s as [|g s IH]; intros h; [reflexivity|].
  change (removelast (h :: g :: s)) with (h :: removelast (g :: s)).
  cbn [length]. now rewrite IH.
Qed.

Lemma length_shift1 (s : list float) : length (shift1 s) = length s.
Proof.
  destruct s as [|h s]; [reflexivity|].
  unfold shift1. cbn [length]. now rewrite length_removelast_cons.
Qed.

Lemma nth_removelast {A : Type} (s : list A) (k : nat) (d : A) :
  (S k < length s)%nat -> nth k (removelast s) d = nth k s d.
Proof.
  revert k. induction s as [|h s IH]; intros k Hk; simpl in Hk; [lia|].
  destruct s as [|g s]; [simpl in Hk; lia|].
  change (removelast (h :: g :: s)) with (h :: removelast (g :: s)).
  destruct k as [|k]; [reflexivity|].
  simpl nth at 1. rewrite IH by (simpl in *; lia). reflexivity.
Qed.

Lemma nth_shift1 (s : list float) (k : nat) :
  (S k < length s)%nat -> nth (S k) (shift1 s) NaN = nth k s NaN.
Proof.
  intros Hk. destruct s as [|h s]; [simpl in Hk; lia|].
  exact (nth_removelast (h :: s) k NaN Hk).
Qed.

Lemma nth_map_lt {A : Type} (f : A -> float) (l : list A) (k : nat) (d : A) :
  (k < length l)%nat -> nth k (map f l) NaN = f (nth k l d).
Proof.
  revert k. induction l as [|h l IH]; intros k Hk; simpl in Hk; [lia|].
  destruct k as [|k]; [reflexivity|]. simpl. apply IH. lia.
Qed.

Lemma nth_pct_change (s : list float) (k : nat) :
  (S k < length s)%nat ->
  nth (S k) (pct_change s) NaN = (nth (S k) s NaN / nth k s NaN - Fin 1)%float.
Proof.
  intros Hk. unfold pct_change.
  rewrite (nth_map_lt _ _ _ NaN)
    by (rewrite length_series_op; rewrite ?length_shift1; lia).
  rewrite nth_series_op by (rewrite ?length_shift1; lia).
  now rewrite nth_shift1.
Qed.

Lemma length_pct_change (s : list float) : length (pct_change s) = length s.
Proof.
  unfold pct_change. rewrite length_map, length_series_op; [reflexivity|].
  now rewrite length_shift1.
Qed.

Lemma nth_diff (s : list float) (k : nat) :
  (S k < length s)%nat ->
  nth (S k) (diff s) NaN = (nth (S k) s NaN - nth k s NaN)%float.
Proof.
  intros Hk. unfold diff.
  rewrite nth_series_op by (rewrite ?length_shift1; lia).
  now rewrite nth_shift1.
Qed.

Lemma length_diff (s : list float) : length (diff s) = length s.
Proof. unfold diff. rewrite length_series_op; [reflexivity|now rewrite length_shift1]. Qed.

Lemma reindex_same (n : nat) (col : list float) :
  length col = n -> reindex n col = col.
Proof.
  intros <-. unfold reindex. rewrite firstn_all, Nat.sub_diag. apply app_nil_r.
Qed.

Lemma nth_firstn_eq {A : Type} (a b : list A) (n k : nat) (d : A) :
  firstn n a = firstn n b -> (k < n)%nat -> nth k a d = nth k b d.
Proof.
  revert a b k. induction n as [|n IH]; intros a b k H Hk; [lia|].
  destruct a as [|p a], b as [|q b]; simpl in H; try discriminate.
  - reflexivity.
  - injection H as -> H. destruct k as [|k]; [reflexivity|].
    simpl. apply IH; [assumption|lia].
Qed.

Lemma nth_np_cumprod_from (l : list float) :
  forall (acc : float) (k : nat), (k < length l)%nat ->
  nth k (np_cumprod_from acc l) NaN = fold_left fmul (firstn (S k) l) acc.
Proof.
  induction l as [|v l IH]; intros acc k Hk; simpl in Hk; [lia|].
  destruct k as [|k]; [reflexivity|].
  cbn [np_cumprod_from nth firstn fold_left]. apply IH. lia.
Qed.

Lemma length_np_cumprod_from (l : list float) (acc : float) :
  length (np_cumprod_from acc l) = length l.
Proof.
  revert acc. induction l as [|v l IH]; intros acc; simpl; [reflexivity|now rewrite IH].
Qed.

Lemma nth_combine_map {A B : Type} (f : A * B -> float) (a : list A) (b : list B)
  (k : nat) (da : A) (db : B) :
  length a = length b -> (k < length a)%nat ->
  nth k (map f (combine a b)) NaN = f (nth k a da, nth k b db).
Proof.
  revert b k. induction a as [|p a IH]; intros [|q b] k H Hk; simpl in *;
    try discriminate; try lia.
  destruct k as [|k]; [reflexivity|]. apply IH; lia.
Qed.

(** [cumprod] of a Series whose first entry is missing. *)
Lemma nth_cumprod_after_nan (l : list float) (k : nat) :
  (k < length l)%nat ->
  nth (S k) (cumprod (NaN :: l)) NaN
  = if isnan (nth k l NaN) then NaN else running_product l (S k).
Proof.
  intros Hk. unfold cumprod.
  cbn [map isnan np_cumprod combine nth].
  rewrite (nth_combine_map _ l _ _ NaN NaN)
    by (rewrite ?length_np_cumprod_from, ?length_map; lia).
  cbn [fst snd].
  rewrite nth_np_cumprod_from by (rewrite length_map; lia).
  unfold running_product. rewrite firstn_map. reflexivity.
Qed.

(** ** The signal generator *)

Module SignalFacts.
Import Signals.

Lemma nth_shift1_0 (s : list float) : nth 0 (shift1 s) NaN = NaN.
Proof. destruct s; reflexivity. Qed.

(** The columns of [compute_signal_pnl] on aligned inputs. *)
Lemma pnl_columns (position : list Z) (y x : list float) (hedge_ratio tc_bps : float) :
  length y = length position -> length x = length position ->
  let pos := map of_Z position in
  let spread_ret :=
    series_op fsub (pct_change y) (map (fun v => fmul hedge_ratio v) (pct_change x)) in
  let pnl := compute_signal_pnl position y x hedge_ratio tc_bps in
  strategy_return pnl = series_op fmul (shift1 pos) spread_ret /\
  transaction_costs pnl
  = map (fun d => (fabs d * tc_bps / Fin 10000)%float) (diff pos) /\
  length (strategy_return pnl) = length position /\
  length (transaction_costs pnl) = length position /\
  length spread_ret = length position.
Proof.
  intros Hy Hx pos spread_ret pnl.
  assert (Hpos : length pos = length position) by (unfold pos; apply length_map).
  assert (Hsr : length spread_ret = length position).
  { unfold spread_ret. rewrite length_series_op; rewrite ?length_map, !length_pct_change; lia. }
  assert (Hs : length (series_op fmul (shift1 pos) spread_ret) = length position).
  { rewrite length_series_op; rewrite length_shift1; lia. }
  assert (Hc : length (map (fun d => (fabs d * tc_bps / Fin 10000)%float) (diff pos))
               = length position).
  { rewrite length_map, length_diff. lia. }
  unfold pnl, compute_signal_pnl. cbn [strategy_return transaction_costs].
  fold pos. fold spread_ret.
  rewrite !reindex_same by assumption. auto.
Qed.

(** C2: on aligned inputs, at every step after the first, the strategy return
    is the previous position times (percent change of y minus hedge ratio times
    percent change of x), the transaction cost is the absolute position change
    times [tc_bps] over 10000, the net return is their difference, and the
    cumulative return is the running product of (1 + net return) over the steps
    from the second one on, missing values skipped; row 0 is missing.  The
    strategy return at a step is the same for any other input that has the
    same positions before the step and the same prices up to the step. *)
Theorem compute_signal_pnl_formulas
  (position : list Z) (y x : list float) (hedge_ratio tc_bps : float) (t : nat) :
  length y = length position -> length x = length position ->
  (S t < length position)%nat ->
  let pnl := compute_signal_pnl position y x hedge_ratio tc_bps in
  let strat :=
    (of_Z (nth t position 0%Z)
     * ((nth (S t) y NaN / nth t y NaN - Fin 1)
        - hedge_ratio * (nth (S t) x NaN / nth t x NaN - Fin 1)))%float in
  let cost :=
    (fabs (of_Z (nth (S t) position 0%Z) - of_Z (nth t position 0%Z))
     * tc_bps / Fin 10000)%float in
  nth (S t) (strategy_return pnl) NaN = strat /\
  nth (S t) (transaction_costs pnl) NaN = cost /\
  nth (S t) (net_return pnl) NaN = (strat - cost)%float /\
  nth (S t) (cumulative_return pnl) NaN
  = (if isnan (Fin 1 + nth (S t) (net_return pnl) NaN)%float then NaN
     else running_product (map (fun r => (Fin 1 + r)%float) (tl (net_return pnl))) (S t)) /\
  nth 0 (net_return pnl) NaN = NaN /\
  (forall (position' : list Z) (y' x' : list float),
      length y' = length position' -> length x' = length position' ->
      (S t < length position')%nat ->
      firstn (S t) position' = firstn (S t) position ->
      firstn (S (S t)) y' = firstn (S (S t)) y ->
      firstn (S (S t)) x' = firstn (S (S t)) x ->
      nth (S t) (strategy_return (compute_signal_pnl position' y' x' hedge_ratio tc_bps)) NaN
      = nth (S t) (strategy_return pnl) NaN).
Proof.
  intros Hy Hx Ht pnl strat cost.
  assert (Hstrat : forall (position' : list Z) (y' x' : list float),
             length y' = length position' -> length x' = length position' ->
             (S t < length position')%nat ->
             nth (S t) (strategy_return
                          (compute_signal_pnl position' y' x' hedge_ratio tc_bps)) NaN
             = (of_Z (nth t position' 0%Z)
                * ((nth (S t) y' NaN / nth t y' NaN - Fin 1)
                   - hedge_ratio * (nth (S t) x' NaN / nth t x' NaN - Fin 1)))%float).
  { intros p' y' x' Hy' Hx' Ht'.
    destruct (pnl_columns p' y' x' hedge_ratio tc_bps Hy' Hx') as (-> & _ & _ & _ & Hsr).
    rewrite nth_series_op by (rewrite length_shift1, ?length_map; lia).
    rewrite nth_shift1 by (rewrite length_map; lia).
    rewrite (nth_map_lt _ _ _ 0%Z) by lia.
    rewrite nth_series_op
      by (rewrite ?length_map, !length_pct_change; lia).
    rewrite (nth_map_lt _ _ _ NaN) by (rewrite length_pct_change; lia).
    rewrite !nth_pct_change by lia. reflexivity. }
  destruct (pnl_columns position y x hedge_ratio tc_bps Hy Hx)
    as (Hs & Hc & Hls & Hlc & Hsr).
  fold pnl in Hs, Hc, Hls, Hlc.
  assert (Hcost : nth (S t) (transaction_costs pnl) NaN = cost).
  { rewrite Hc.
    rewrite (nth_map_lt _ _ _ NaN) by (rewrite length_diff, length_map; lia).
    rewrite nth_diff by (rewrite length_map; lia).
    rewrite !(nth_map_lt _ _ _ 0%Z) by lia. reflexivity. }
  assert (Hnet : forall k, (k < length position)%nat ->
             nth k (net_return pnl) NaN
             = (nth k (strategy_return pnl) NaN - nth k (transaction_costs pnl) NaN)%float).
  { intros k Hk.
    change (net_return pnl)
      with (series_op fsub (strategy_return pnl) (transaction_costs pnl)).
    apply nth_series_op; lia. }
  assert (Hnet0 : nth 0 (net_return pnl) NaN = NaN).
  { rewrite Hnet by lia. rewrite Hs.
    rewrite nth_series_op by (rewrite length_shift1, ?length_map; lia).
    rewrite nth_shift1_0. reflexivity. }
  assert (Hlnet : length (net_return pnl) = length position).
  { change (net_return pnl)
      with (series_op fsub (strategy_return pnl) (transaction_costs pnl)).
    rewrite length_series_op; lia. }
  repeat split.
  - apply Hstrat; assumption.
  - exact Hcost.
  - rewrite Hnet by lia. unfold pnl at 1. rewrite Hstrat by assumption.
    fold pnl. rewrite Hcost. reflexivity.
  - change (cumulative_return pnl)
      with (cumprod (map (fun r => (Fin 1 + r)%float) (net_return pnl))).
    destruct (net_return pnl) as [|n0 rest] eqn:E; [simpl in Hlnet; lia|].
    cbn [nth] in Hnet0. subst n0. cbn [map tl fadd].
    rewrite nth_cumprod_after_nan by (rewrite length_map; simpl in Hlnet; lia).
    cbn [nth]. rewrite (nth_map_lt _ _ _ NaN) by (simpl in Hlnet; lia).
    reflexivity.
  - exact Hnet0.
  - intros p' y' x' Hy' Hx' Ht' Hp Hyy Hxx.
    unfold pnl. rewrite !Hstrat by assumption.
    rewrite (@nth_firstn_eq _ p' position (S t) t 0%Z Hp) by lia.
    rewrite (@nth_firstn_eq _ y' y _ (S t) NaN Hyy) by lia.
    rewrite (@nth_firstn_eq _ y' y _ t NaN Hyy) by lia.
    rewrite (@nth_firstn_eq _ x' x _ (S t) NaN Hxx) by lia.
    rewrite (@nth_firstn_eq _ x' x _ t NaN Hxx) by lia.
    reflexivity.
Qed.

(** At a step whose z-score is NaN the variable [position] is kept, and the
    column receives nothing: it shows 0 whatever the position is. *)
Lemma track_nan_step (self : ZScoreSignalGenerator) (position : Z) (z : float)
  (rest : list float) :
  isnan z = true ->
  track self position (z :: rest) = 0%Z :: track self position rest /\
  carried self position (z :: rest) = carried self position rest.
Proof. intros H. cbn [track carried]. now rewrite H. Qed.

Lemma length_track (self : ZScoreSignalGenerator) (zs : list float) :
  forall position, length (track self position zs) = length zs.
Proof.
  induction zs as [|z zs IH]; intros position; simpl; [reflexivity|].
  destruct (isnan z); simpl; now rewrite IH.
Qed.

Lemma signal_loop (self : ZScoreSignalGenerator) (zs : list float) :
  forall (zpre zpost : list float) (pre : list Z) (position : Z),
  length zpre = length pre ->
  for_each (seq (length pre) (length zs))
    (signal_body self (zpre ++ zs ++ zpost))
    (position, pre ++ repeat 0%Z (length zs))
  = Ok (carried self position zs, pre ++ track self position zs).
Proof.
  induction zs as [|z zs IH]; intros zpre zpost pre position Hpre.
  - reflexivity.
  - cbn [length seq for_each repeat]. unfold signal_body at 1.
    rewrite <- Hpre at 1. cbn [app]. rewrite getitem_app. cbn [bind track carried].
    assert (Hlen : S (length pre) = length (pre ++ [0%Z]))
      by (rewrite length_app; simpl; lia).
    assert (Hz : zpre ++ z :: zs ++ zpost = (zpre ++ [z]) ++ zs ++ zpost)
      by (now rewrite <- app_assoc).
    destruct (isnan z).
    + cbn [bind].
      replace (pre ++ 0%Z :: repeat 0%Z (length zs))
        with ((pre ++ [0%Z]) ++ repeat 0%Z (length zs))
        by (now rewrite <- app_assoc).
      rewrite Hlen, Hz.
      rewrite IH by (rewrite !length_app; simpl; lia).
      now rewrite <- app_assoc.
    + rewrite setitem_app. cbn [bind].
      replace (pre ++ next_position self position z :: repeat 0%Z (length zs))
        with ((pre ++ [next_position self position z]) ++ repeat 0%Z (length zs))
        by (now rewrite <- app_assoc).
      assert (Hlen' : S (length pre) = length (pre ++ [next_position self position z]))
        by (rewrite length_app; simpl; lia).
      rewrite Hlen', Hz.
      rewrite IH by (rewrite !length_app; simpl; lia).
      now rewrite <- app_assoc.
Qed.

Lemma length_series_op_max (f : float -> float -> float) (a b : list float) :
  length (series_op f a b) = Nat.max (length a) (length b).
Proof.
  revert b. induction a as [|p a IH]; intros [|q b]; simpl;
    rewrite ?length_map; try reflexivity.
  now rewrite IH.
Qed.

Section Generate.

Variable ewm_mean ewm_std : float -> list float -> list float.
Variable rolling_mean rolling_std : nat -> list float -> list float.
Variable self : ZScoreSignalGenerator.

Local Abbreviation zscores :=
  (compute_zscore ewm_mean ewm_std rolling_mean rolling_std self).

Lemma length_zscores (spread : list float) :
  (length spread <= length (zscores spread))%nat.
Proof.
  unfold zscores, compute_zscore. rewrite !length_series_op_max. lia.
Qed.

(** [generate_signals] never raises; its columns in closed form. *)
Lemma generate_signals_eval (y x : list float) (hedge_ratio intercept : float) :
  let spread := compute_spread y x hedge_ratio intercept in
  let zscore_col := firstn (length spread) (zscores spread) in
  generate_signals ewm_mean ewm_std rolling_mean rolling_std self y x hedge_ratio intercept
  = Ok {| sig_spread := spread;
          sig_zscore := zscore_col;
          sig_position := recorded self zscore_col;
          sig_confidence := map (confidence_of self) zscore_col |}.
Proof.
  intros spread zscore_col. unfold generate_signals. fold spread.
  fold (zscores spread).
  pose proof (length_zscores spread) as Hlen.
  assert (Hre : reindex (length spread) (zscores spread) = zscore_col).
  { unfold reindex, zscore_col.
    replace (length spread - length (zscores spread))%nat with 0%nat by lia.
    apply app_nil_r. }
  rewrite Hre. unfold for_range.
  assert (Hloop :
    for_each (seq 1 (length spread - 1)) (signal_body self (zscores spread))
      (0%Z, repeat 0%Z (length spread))
    = Ok (carried self 0%Z (tl zscore_col), recorded self zscore_col)).
  { unfold zscore_col. destruct (zscores spread) as [|z0 zs] eqn:Ez.
    - simpl in Hlen. assert (length spread = 0)%nat as -> by lia. reflexivity.
    - destruct (length spread) as [|m] eqn:En; [reflexivity|].
      cbn [firstn recorded tl repeat]. replace (S m - 1)%nat with m by lia.
      simpl in Hlen.
      pose proof (signal_loop self (firstn m zs) [z0] (skipn m zs) [0%Z] 0%Z eq_refl)
        as H.
      rewrite firstn_skipn in H. rewrite length_firstn in H.
      replace (Nat.min m (length zs)) with m in H by lia.
      exact H. }
  rewrite Hloop. reflexivity.
Qed.

Lemma np_clip_unit_interval (v : float) :
  isnan v = false ->
  fle (Fin 0) (np_clip v (Fin 0) (Fin 1)) = true /\
  fle (np_clip v (Fin 0) (Fin 1)) (Fin 1) = true.
Proof.
  intros Hv. unfold np_clip, fgt. rewrite Hv.
  destruct (flt v (Fin 0)) eqn:E0; [split; reflexivity|].
  destruct (flt (Fin 1) v) eqn:E1; [split; reflexivity|].
  split; float_cases.
Qed.

Lemma score_not_nan (en ex : Q) (z : float) :
  ~ en == ex -> isnan z = false ->
  isnan ((fabs z - Fin ex) / (Fin en - Fin ex))%float = false.
Proof.
  intros Hne Hz. cbn [fsub].
  assert (Hq : Qeq_bool (Qred (en - ex)) 0 = false).
  { destruct (Qeq_bool (Qred (en - ex)) 0) eqn:E; [|reflexivity].
    apply Qeq_bool_eq in E. rewrite Qred_correct in E. exfalso. apply Hne. lra. }
  destruct z; try discriminate; cbn [fabs fsub fdiv].
  - rewrite Hq. reflexivity.
  - destruct (Qle_bool 0 (Qred (en - ex))); reflexivity.
  - destruct (Qle_bool 0 (Qred (en - ex))); reflexivity.
Qed.

(** C9 (amended): at every step the confidence is
    clip((|z| - exit_z) / (entry_z - exit_z), 0, 1) of the z-score of that
    step; it lies in [0, 1] when that z-score is not NaN and the thresholds
    are finite and distinct, and it is NaN when the z-score is NaN. *)
Theorem confidence_clipped (y x : list float) (hedge_ratio intercept : float) :
  exists df,
    generate_signals ewm_mean ewm_std rolling_mean rolling_std self
      y x hedge_ratio intercept = Ok df /\
    length (sig_confidence df) = length (sig_zscore df) /\
    forall (t : nat) (z : float),
      nth_error (sig_zscore df) t = Some z ->
      let c :=
        np_clip ((fabs z - exit_z self) / (entry_z self - exit_z self))%float
          (Fin 0) (Fin 1) in
      nth_error (sig_confidence df) t = Some c /\
      (isnan z = true -> c = NaN) /\
      (forall en ex : Q,
          entry_z self = Fin en -> exit_z self = Fin ex -> ~ en == ex ->
          isnan z = false ->
          fle (Fin 0) c = true /\ fle c (Fin 1) = true).
Proof.
  eexists. split; [apply generate_signals_eval|].
  cbn [sig_confidence sig_zscore]. split; [apply length_map|].
  intros t z Hz. split; [|split].
  - rewrite nth_error_map, Hz. reflexivity.
  - intros Hn. destruct z; try discriminate. reflexivity.
  - intros en ex Hen Hex Hne Hn. rewrite Hen, Hex.
    apply np_clip_unit_interval. now apply score_not_nan.
Qed.

(** *** Hysteresis *)

Lemma track_app (l1 l2 : list float) :
  forall position,
  track self position (l1 ++ l2)
  = track self position l1 ++ track self (carried self position l1) l2.
Proof.
  induction l1 as [|z l1 IH]; intros position; cbn [app track carried]; [reflexivity|].
  destruct (isnan z); cbn [app]; now rewrite IH.
Qed.

Lemma carried_app (l1 l2 : list float) :
  forall position,
  carried self position (l1 ++ l2) = carried self (carried self position l1) l2.
Proof.
  induction l1 as [|z l1 IH]; intros position; cbn [app carried]; [reflexivity|].
  destruct (isnan z); now rewrite IH.
Qed.

Section Thresholds.

Variables en ex st : Q.
Hypothesis Hentry : entry_z self = Fin en.
Hypothesis Hexit : exit_z self = Fin ex.
Hypothesis Hstop : stop_z self = Fin st.
Hypothesis Hex0 : 0 <= ex.
Hypothesis Hexen : ex < en.
Hypothesis Henst : en < st.

Lemma flat_stays (z : float) :
  fle (fopp (entry_z self)) z = true -> fle z (entry_z self) = true ->
  next_position self 0 z = 0%Z.
Proof.
  intros H1 H2. unfold next_position, fgt. cbn [Z.eqb].
  now rewrite (fle_flt_false _ _ H1), (fle_flt_false _ _ H2).
Qed.

Lemma flat_enters_short (z : float) :
  fgt z (entry_z self) = true -> next_position self 0 z = (-1)%Z.
Proof.
  unfold fgt. intros H. unfold next_position, fgt. cbn [Z.eqb]. rewrite H.
  assert (H1 : fle (fopp (entry_z self)) z = true).
  { apply fle_trans with (entry_z self); [|now apply flt_fle].
    rewrite Hentry. apply fle_fopp_Fin. lra. }
  now rewrite (fle_flt_false _ _ H1).
Qed.

Lemma short_stays (z : float) :
  fle (exit_z self) z = true -> next_position self (-1) z = (-1)%Z.
Proof.
  intros H. unfold next_position. cbn [Z.eqb].
  rewrite (fle_flt_false _ _ H).
  assert (H1 : fle (fopp (stop_z self)) z = true).
  { apply fle_trans with (exit_z self); [|assumption].
    rewrite Hstop, Hexit. apply fle_fopp_Fin. lra. }
  now rewrite (fle_flt_false _ _ H1).
Qed.

Lemma short_exits (z : float) :
  flt z (exit_z self) = true -> next_position self (-1) z = 0%Z.
Proof.
  intros H. unfold next_position. cbn [Z.eqb]. now rewrite H.
Qed.

Lemma track_quiet (l : list float) :
  Forall (quiet self) l ->
  track self 0 l = repeat 0%Z (length l) /\ carried self 0 l = 0%Z.
Proof.
  induction 1 as [|z l [H1 H2] _ [IHt IHc]]; [split; reflexivity|].
  cbn [track carried length repeat].
  rewrite (proj1 (fle_not_nan _ _ H2)), (flat_stays z H1 H2).
  rewrite IHt, IHc. split; reflexivity.
Qed.

Lemma track_short (l : list float) :
  Forall (fun z => fle (exit_z self) z = true) l ->
  track self (-1) l = repeat (-1)%Z (length l) /\ carried self (-1) l = (-1)%Z.
Proof.
  induction 1 as [|z l H _ [IHt IHc]]; [split; reflexivity|].
  cbn [track carried length repeat].
  rewrite (proj2 (fle_not_nan _ _ H)), (short_stays z H).
  rewrite IHt, IHc. split; reflexivity.
Qed.

Lemma transitions_from_repeat (p : Z) (n : nat) (l : list Z) :
  transitions_from p (repeat p n ++ l) = transitions_from p l.
Proof.
  induction n as [|n IH]; [reflexivity|].
  cbn [repeat app transitions_from]. now rewrite Z.eqb_refl.
Qed.

(** C3 (amended): with 0 <= exit_z < entry_z < stop_z, on a z-score column
    that stays within [-entry_z, entry_z] and then rises above entry_z, stays
    at or above exit_z and then falls below exit_z, stays within
    [-entry_z, entry_z] and then rises above stop_z, the position column shows
    exactly the transitions Flat -> ShortSpread -> Flat -> ShortSpread: the
    rise above stop_z, which exceeds entry_z, opens the short position again.
    In the states Flat and ShortSpread the position does not change at a
    z-score strictly between exit_z and entry_z. *)
Theorem hysteresis_path
  (y x : list float) (hedge_ratio intercept : float) (df : signals_frame)
  (z0 a b c : float) (A B C : list float) :
  generate_signals ewm_mean ewm_std rolling_mean rolling_std self
    y x hedge_ratio intercept = Ok df ->
  sig_zscore df = z0 :: A ++ [a] ++ B ++ [b] ++ C ++ [c] ->
  Forall (quiet self) A -> fgt a (entry_z self) = true ->
  Forall (fun z => fle (exit_z self) z = true) B -> flt b (exit_z self) = true ->
  Forall (quiet self) C -> fgt c (stop_z self) = true ->
  sig_position df
  = 0%Z :: repeat 0%Z (length A) ++ [(-1)%Z] ++ repeat (-1)%Z (length B)
      ++ [0%Z] ++ repeat 0%Z (length C) ++ [(-1)%Z] /\
  transitions (sig_position df) = [(0, -1); (-1, 0); (0, -1)]%Z /\
  (forall z : float,
      flt (exit_z self) z = true -> flt z (entry_z self) = true ->
      next_position self 0 z = 0%Z /\ next_position self (-1) z = (-1)%Z).
Proof.
  intros Hdf Hz HA Ha HB Hb HC Hc.
  rewrite generate_signals_eval in Hdf. injection Hdf as <-.
  cbn [sig_zscore sig_position] in *. rewrite Hz.
  destruct (track_quiet A HA) as [HtA HcA].
  destruct (track_short B HB) as [HtB HcB].
  destruct (track_quiet C HC) as [HtC HcC].
  assert (Hna : isnan a = false) by (apply (flt_not_nan _ _ Ha)).
  assert (Hnb : isnan b = false) by (apply (flt_not_nan _ _ Hb)).
  assert (Hnc : isnan c = false) by (apply (flt_not_nan _ _ Hc)).
  assert (Hc' : fgt c (entry_z self) = true).
  { unfold fgt in *. apply fle_flt_trans with (stop_z self); [|assumption].
    rewrite Hentry, Hstop. apply fle_Fin. lra. }
  assert (Hpos : recorded self (z0 :: A ++ [a] ++ B ++ [b] ++ C ++ [c])
                 = 0%Z :: repeat 0%Z (length A) ++ [(-1)%Z] ++ repeat (-1)%Z (length B)
                     ++ [0%Z] ++ repeat 0%Z (length C) ++ [(-1)%Z]).
  { cbn [recorded]. f_equal.
    rewrite track_app, HtA, HcA. f_equal.
    cbn [app track carried]. rewrite Hna, (flat_enters_short a Ha). f_equal.
    rewrite track_app, HtB, HcB. f_equal.
    cbn [app track carried]. rewrite Hnb, (short_exits b Hb). f_equal.
    rewrite track_app, HtC, HcC. f_equal.
    cbn [track]. rewrite Hnc, (flat_enters_short c Hc'). reflexivity. }
  rewrite Hpos. split; [reflexivity|]. split.
  - cbn [transitions]. rewrite transitions_from_repeat.
    cbn [app transitions_from Z.eqb]. rewrite transitions_from_repeat.
    cbn [app transitions_from Z.eqb]. rewrite transitions_from_repeat.
    reflexivity.
  - intros z H1 H2. split.
    + apply flat_stays; [|now apply flt_fle].
      apply fle_trans with (exit_z self); [|now apply flt_fle].
      rewrite Hentry, Hexit. apply fle_fopp_Fin. lra.
    + apply short_stays. now apply flt_fle.
Qed.

End Thresholds.

End Generate.

End SignalFacts.

(** ** The pair screener *)

Module TesterFacts.
Import Tester.
Section TesterFacts.

Variable lstsq : list (list float) -> list float -> result (list float).
Variable adfuller : list float -> result (float * float * list float).
Variable coint : list float -> list float -> result (float * float).
Variable corr : DataFrame -> string -> string -> float.

Local Abbreviation half_life_of := (estimate_half_life lstsq).

Lemma np_log2_pos : exists l : Q, np_log2 = Fin l /\ 0 < l.
Proof. eexists. split; [reflexivity|]. reflexivity. Qed.

Lemma half_life_negative_theta (q : Q) :
  q < 0 ->
  exists h : Q, (fopp np_log2 / Fin q)%float = Fin h /\ 0 < h.
Proof.
  intros Hq. destruct np_log2_pos as (l & -> & Hl). cbn [fopp fdiv].
  assert (Hz : Qeq_bool q 0 = false).
  { destruct (Qeq_bool q 0) eqn:E; [|reflexivity].
    apply Qeq_bool_eq in E. exfalso. lra. }
  rewrite Hz. eexists. split; [reflexivity|].
  rewrite !Qred_correct.
  assert (Hpos : 0 < l * / (- q)).
  { apply Qmult_lt_0_compat; [assumption|].
    apply Qinv_lt_0_compat. lra. }
  assert (Heq : - l / q == l * / (- q)) by (field; lra).
  rewrite Heq. exact Hpos.
Qed.

Lemma screen_pair_kept (self : CointegrationTester) (prices : DataFrame)
  (acc acc' : list pair_record) (pair : string * string) :
  Forall (kept lstsq adfuller coint self prices) acc ->
  screen_pair lstsq adfuller coint corr self prices acc pair = Ok acc' ->
  Forall (kept lstsq adfuller coint self prices) acc'.
Proof.
  intros Hacc. unfold screen_pair. destruct pair as [t_y t_x].
  destruct (flt _ _); [intros [= <-]; assumption|].
  destruct (column prices t_y) as [col_y|] eqn:Ey; cbn [bind]; [|discriminate].
  destruct (column prices t_x) as [col_x|] eqn:Ex; cbn [bind]; [|discriminate].
  destruct (Nat.ltb _ _); [intros [= <-]; assumption|].
  destruct (engle_granger_test _ _ _ _ _) as [results|] eqn:Eeg;
    [|intros [= <-]; assumption].
  destruct (fgt _ _); [intros [= <-]; assumption|].
  destruct (estimate_half_life lstsq (eg_spread results)) as [hl|] eqn:Ehl;
    cbn [bind]; [|discriminate].
  destruct (fle (min_half_life self) hl && fle hl (max_half_life self)) eqn:Eb;
    cbn [negb]; intros [= <-]; [|assumption].
  apply andb_prop in Eb. destruct Eb as [Hmin Hmax].
  apply Forall_app. split; [assumption|]. constructor; [|constructor].
  unfold kept. cbn [half_life ticker_y ticker_x].
  repeat split; try assumption.
  exists col_y, col_x, results. repeat split; assumption.
Qed.

Lemma for_pairs_kept (self : CointegrationTester) (prices : DataFrame)
  (pairs : list (string * string)) :
  forall acc acc',
  Forall (kept lstsq adfuller coint self prices) acc ->
  for_pairs pairs (screen_pair lstsq adfuller coint corr self prices) acc = Ok acc' ->
  Forall (kept lstsq adfuller coint self prices) acc'.
Proof.
  induction pairs as [|pr pairs IH]; intros acc acc' Hacc; cbn [for_pairs].
  - intros [= <-]. assumption.
  - destruct (screen_pair _ _ _ _ _ _ acc pr) as [acc1|] eqn:E; cbn [bind];
      [|discriminate].
    apply IH. exact (screen_pair_kept self prices acc acc1 pr Hacc E).
Qed.

Lemma insert_by_half_life_Forall (P : pair_record -> Prop) (p : pair_record)
  (l : list pair_record) :
  P p -> Forall P l -> Forall P (insert_by_half_life p l).
Proof.
  intros Hp. induction 1 as [|q l Hq Hl IH]; cbn [insert_by_half_life].
  - constructor; [assumption|constructor].
  - destruct (flt _ _); repeat constructor; assumption.
Qed.

Lemma sort_by_half_life_Forall (P : pair_record -> Prop) (l : list pair_record) :
  Forall P l -> Forall P (sort_by_half_life l).
Proof.
  unfold sort_by_half_life.
  assert (H : forall acc, Forall P acc -> Forall P l ->
                Forall P (fold_left (fun a p => insert_by_half_life p a) l acc)).
  { induction l as [|p l IH]; intros acc Hacc Hl; cbn [fold_left]; [assumption|].
    inversion Hl; subst. apply IH; [|assumption].
    now apply insert_by_half_life_Forall. }
  intros Hl. apply H; [constructor|assumption].
Qed.

(** A failure of [engle_granger_test] is skipped; a failure of
    [estimate_half_life] leaves the loop body as an exception. *)
Lemma screen_pair_skips_failed_test (self : CointegrationTester) (prices : DataFrame)
  (acc : list pair_record) (t_y t_x : string) (col_y col_x : list float) (e : exn) :
  flt (fabs (corr prices t_y t_x)) (min_correlation self) = false ->
  column prices t_y = Ok col_y -> column prices t_x = Ok col_x ->
  Nat.ltb (length (common_rows col_y col_x)) (rolling_window self) = false ->
  engle_granger_test lstsq adfuller coint
    (map fst (common_rows col_y col_x)) (map snd (common_rows col_y col_x)) = Raise e ->
  screen_pair lstsq adfuller coint corr self prices acc (t_y, t_x) = Ok acc.
Proof.
  intros Hc Hy Hx Hn He. unfold screen_pair.
  rewrite Hc, Hy. cbn [bind]. rewrite Hx. cbn [bind]. rewrite Hn, He. reflexivity.
Qed.

Lemma screen_pair_raises_on_failed_half_life (self : CointegrationTester)
  (prices : DataFrame) (acc : list pair_record) (t_y t_x : string)
  (col_y col_x : list float) (results : eg_result) (e : exn) :
  flt (fabs (corr prices t_y t_x)) (min_correlation self) = false ->
  column prices t_y = Ok col_y -> column prices t_x = Ok col_x ->
  Nat.ltb (length (common_rows col_y col_x)) (rolling_window self) = false ->
  engle_granger_test lstsq adfuller coint
    (map fst (common_rows col_y col_x)) (map snd (common_rows col_y col_x)) = Ok results ->
  fgt (eg_coint_pvalue results) (significance self) = false ->
  estimate_half_life lstsq (eg_spread results) = Raise e ->
  screen_pair lstsq adfuller coint corr self prices acc (t_y, t_x) = Raise e.
Proof.
  intros Hc Hy Hx Hn He Hp Hh. unfold screen_pair.
  rewrite Hc, Hy. cbn [bind]. rewrite Hx. cbn [bind]. rewrite Hn, He, Hp, Hh.
  reflexivity.
Qed.

Lemma for_pairs_raises (pairs1 pairs2 : list (string * string))
  (body : list pair_record -> string * string -> result (list pair_record))
  (pr : string * string) (acc acc1 : list pair_record) (e : exn) :
  for_pairs pairs1 body acc = Ok acc1 ->
  body acc1 pr = Raise e ->
  for_pairs (pairs1 ++ pr :: pairs2) body acc = Raise e.
Proof.
  revert acc. induction pairs1 as [|q pairs1 IH]; intros acc H1 H2; cbn [app for_pairs] in *.
  - injection H1 as ->. now rewrite H2.
  - destruct (body acc q) as [a|]; cbn [bind] in *; [|discriminate].
    now apply IH.
Qed.

(** An exception of the loop body for one pair is the outcome of the whole
    screening pass, whatever the pairs before it had contributed. *)
Lemma screen_universe_raises (self : CointegrationTester) (prices : DataFrame)
  (pairs1 pairs2 : list (string * string)) (pr : string * string)
  (acc1 : list pair_record) (e : exn) :
  combinations2 (map fst prices) = pairs1 ++ pr :: pairs2 ->
  for_pairs pairs1 (screen_pair lstsq adfuller coint corr self prices) [] = Ok acc1 ->
  screen_pair lstsq adfuller coint corr self prices acc1 pr = Raise e ->
  screen_universe lstsq adfuller coint corr self prices = Raise e.
Proof.
  intros Hc H1 H2. unfold screen_universe. rewrite Hc.
  now rewrite (for_pairs_raises pairs1 pairs2 _ pr [] acc1 e H1 H2).
Qed.

(** C5 (amended): [estimate_half_life] hands [np.linalg.lstsq] the regression
    of the differences of the spread on a constant and its lagged values and
    reads the slope theta; for a negative finite theta it returns
    -ln 2 / theta, a positive finite number, and for theta >= 0 it returns
    +infinity.  Every pair that [screen_universe] returns has the half-life
    [estimate_half_life] computed for its spread, within
    [min_half_life, max_half_life], and not +infinity when [max_half_life] is
    finite: nothing in this depends on the p-value. *)
Theorem half_life_sign_and_filter :
  (forall (spread sol : list float) (theta : float),
      lstsq (with_const (removelast spread)) (np_diff spread) = Ok sol ->
      getitem sol 1 = Ok theta ->
      (forall q : Q, theta = Fin q -> q < 0 ->
         half_life_of spread = Ok (fopp np_log2 / theta)%float /\
         exists h : Q, (fopp np_log2 / theta)%float = Fin h /\ 0 < h) /\
      (fge theta (Fin 0) = true -> half_life_of spread = Ok PInf)) /\
  (forall (self : CointegrationTester) (prices : DataFrame)
          (out : list pair_record) (r : pair_record),
      screen_universe lstsq adfuller coint corr self prices = Ok out ->
      In r out ->
      kept lstsq adfuller coint self prices r /\
      (is_finite (max_half_life self) = true -> half_life r <> PInf)).
Proof.
  split.
  - intros spread sol theta Hsol Htheta. split.
    + intros q -> Hq. split; [|now apply half_life_negative_theta].
      unfold half_life_of, estimate_half_life. rewrite Hsol. cbn [bind].
      rewrite Htheta. cbn [bind].
      assert (Hge : fge (Fin q) (Fin 0) = false) by (unfold fge; apply fle_Fin_false; lra).
      now rewrite Hge.
    + intros Hge. unfold half_life_of, estimate_half_life. rewrite Hsol. cbn [bind].
      rewrite Htheta. cbn [bind]. now rewrite Hge.
  - intros self prices out r Hout Hin. unfold screen_universe in Hout.
    destruct (for_pairs _ _ _) as [valid|] eqn:E; cbn [bind] in Hout; [|discriminate].
    injection Hout as <-.
    assert (Hall : Forall (kept lstsq adfuller coint self prices) (sort_by_half_life valid)).
    { apply sort_by_half_life_Forall.
      exact (for_pairs_kept self prices _ [] valid (Forall_nil _) E). }
    rewrite Forall_forall in Hall. specialize (Hall r Hin). split; [assumption|].
    intros Hfin Hinf. destruct Hall as (_ & Hmax & _). rewrite Hinf in Hmax.
    destruct (max_half_life self); discriminate.
Qed.

End TesterFacts.
End TesterFacts.

(** ** Performance metrics *)

Module BacktestFacts.
Import Backtest.
Section BacktestFacts.

Variable np_sqrt : float -> float.
Variable np_power : float -> float -> float.
Variable pd_std pd_skew pd_kurtosis : list float -> float.

Local Abbreviation metrics :=
  (_compute_metrics np_sqrt np_power pd_std pd_skew pd_kurtosis).

Lemma of_nat_nonzero (n : nat) : n <> 0%nat -> feqb (of_nat n) zero = false.
Proof.
  intros Hn. unfold of_nat, of_Z, zero, feqb.
  destruct (Qeq_bool (inject_Z (Z.of_nat n)) 0) eqn:E; [|reflexivity].
  apply Qeq_bool_eq in E. unfold Qeq in E. simpl in E. lia.
Qed.

Lemma dropna_zeros (s : list float) :
  Forall (fun v => feqb v zero = true) s -> dropna s = s.
Proof.
  induction 1 as [|v s Hv _ IH]; [reflexivity|].
  unfold dropna in *. cbn [filter].
  destruct v; try discriminate. cbn [isnan negb]. now rewrite IH.
Qed.

Lemma no_losses_in_zeros (s : list float) :
  Forall (fun v => feqb v zero = true) s ->
  filter (fun v => flt v (Fin 0)) s = [].
Proof.
  induction 1 as [|v s Hv _ IH]; [reflexivity|].
  cbn [filter]. rewrite IH.
  destruct v as [q| | |]; try discriminate.
  unfold feqb, zero in Hv. apply Qeq_bool_eq in Hv.
  assert (H : flt (Fin q) (Fin 0) = false) by (apply flt_Fin_false; lra).
  now rewrite H.
Qed.

(** The mapping [_compute_metrics] returns on a series with a value present. *)
Lemma metrics_eval (returns : list float) :
  dropna returns <> [] ->
  exists total ann dd wr,
    let r := dropna returns in
    let vol := (pd_std r * np_sqrt (Fin 252))%float in
    let gp := sum (filter (fun v => fgt v (Fin 0)) r) in
    let gl := fabs (sum (filter (fun v => flt v (Fin 0)) r)) in
    metrics returns
    = Ok [ ("total_return", total);
           ("annualized_return", ann);
           ("annualized_volatility", vol);
           ("sharpe_ratio", if truthy vol then (ann / vol)%float else Fin 0);
           ("max_drawdown", dd);
           ("win_rate", wr);
           ("profit_factor", if truthy gl then (gp / gl)%float else PInf);
           ("num_trading_days", of_nat (length r));
           ("avg_daily_return", mean r);
           ("skewness", pd_skew r);
           ("kurtosis", pd_kurtosis r) ]%string.
Proof.
  intros Hr. unfold metrics, _compute_metrics.
  destruct (dropna returns) as [|v r] eqn:E; [contradiction|].
  cbn [length Nat.eqb]. unfold py_truediv.
  rewrite of_nat_nonzero by discriminate. cbn [bind].
  do 4 eexists. reflexivity.
Qed.

(** C6: [_compute_metrics] never raises; it returns the empty mapping when no
    value is left after [dropna]; otherwise the Sharpe ratio is 0 when the
    annualized volatility it reports is zero, and the profit factor is
    +infinity when the gross loss is zero, as it is for a series of zeros. *)
Theorem metrics_degeneracy (returns : list float) :
  (exists m, metrics returns = Ok m) /\
  (dropna returns = [] -> metrics returns = Ok []) /\
  (dropna returns <> [] ->
   exists m, metrics returns = Ok m /\
     (forall vol, dict_get m "annualized_volatility" = Some vol ->
                  feqb vol zero = true ->
                  dict_get m "sharpe_ratio" = Some (Fin 0)) /\
     (feqb (fabs (sum (filter (fun v => flt v (Fin 0)) (dropna returns)))) zero = true ->
      dict_get m "profit_factor" = Some PInf) /\
     (Forall (fun v => feqb v zero = true) returns ->
      dict_get m "profit_factor" = Some PInf)).
Proof.
  assert (Hempty : dropna returns = [] -> metrics returns = Ok []).
  { intros E. unfold _compute_metrics. rewrite E. reflexivity. }
  split; [|split; [exact Hempty|]].
  - destruct (dropna returns) as [|v r] eqn:E.
    + exists []. now apply Hempty.
    + destruct (metrics_eval returns) as (total & ann & dd & wr & Hm);
        [rewrite E; discriminate|].
      eexists. exact Hm.
  - intros Hr. destruct (metrics_eval returns Hr) as (total & ann & dd & wr & Hm).
    cbv zeta in Hm. eexists. split; [exact Hm|].
    cbn [dict_get String.eqb Ascii.eqb Bool.eqb]. unfold truthy.
    split; [|split].
    + intros vol [= <-] Hz. now rewrite Hz.
    + intros Hgl. now rewrite Hgl.
    + intros Hzeros.
      rewrite (dropna_zeros returns Hzeros), (no_losses_in_zeros returns Hzeros).
      reflexivity.
Qed.

End BacktestFacts.
End BacktestFacts.

(** ** The theorems on concrete inputs *)

Module Checks.
Import Examples.

Local Open Scope string_scope.

(** C1 as stated fails: without observation noise, at a step whose regressor
    is 0 the innovation variance is 0.  [filter], whose operands are numpy
    floats, returns a frame (with a NaN estimate at that row), while
    [online_update] on Python floats raises [ZeroDivisionError], so that the
    replay gives no sequence to compare. *)
Lemma replay_counterexample :
  (exists df,
      Kalman.filter rational_sqrt kalman_no_noise [Fin 1; Fin 1] [Fin 1; Fin 0] = Ok df /\
      Kalman.col_hedge_ratio df = [Fin 0; NaN]) /\
  Kalman.innovations kalman_no_noise
    (Kalman.delta kalman_no_noise / (Fin 1 - Kalman.delta kalman_no_noise))%float
    [(Fin 1, Fin 0)] (Fin 0) (Fin 1) = [Fin 0] /\
  Kalman.online_update py_truediv kalman_no_noise (Fin 1) (Fin 0) (Fin 0) (Fin 1)
  = Raise ZeroDivisionError /\
  Kalman.replay py_truediv kalman_no_noise [(Fin 1, Fin 0)]
    (Kalman.initial_mean kalman_no_noise) (Kalman.initial_cov kalman_no_noise)
  = Raise ZeroDivisionError.
Proof.
  split; [eexists; split; reflexivity|]. repeat split.
Qed.

(** C1 (amended) on three observations under the default configuration, whose
    innovation variances are not zero. *)
Lemma filter_replays_online_update_witness :
  exists steps df,
    Kalman.filter rational_sqrt kalman_default [Fin 10; Fin 3; Fin 12] [Fin 5; Fin 0; Fin 6]
    = Ok df /\
    Kalman.col_hedge_ratio df
    = Kalman.initial_mean kalman_default :: map Kalman.step_beta steps /\
    Kalman.col_hedge_ratio_std df
    = map rational_sqrt
        (Kalman.initial_cov kalman_default :: map Kalman.step_P steps) /\
    Kalman.col_forecast_error df = zero :: map Kalman.step_e steps /\
    Kalman.replay np_truediv kalman_default (combine [Fin 3; Fin 12] [Fin 0; Fin 6])
      (Kalman.initial_mean kalman_default) (Kalman.initial_cov kalman_default)
    = Ok steps /\
    Kalman.replay py_truediv kalman_default (combine [Fin 3; Fin 12] [Fin 0; Fin 6])
      (Kalman.initial_mean kalman_default) (Kalman.initial_cov kalman_default)
    = Ok steps.
Proof.
  destruct (KalmanFacts.filter_replays_online_update rational_sqrt kalman_default
              (Fin 10) (Fin 5) [Fin 3; Fin 12] [Fin 0; Fin 6] eq_refl eq_refl)
    as (steps & df & H1 & H2 & H3 & H4 & H5 & H6 & _).
  exists steps, df.
  refine (conj H1 (conj H2 (conj H3 (conj H4 (conj H5 (H6 _)))))).
  vm_compute. repeat constructor.
Defined.

(** C10 on the same input. *)
Lemma filter_first_row_is_prior_witness :
  exists df,
    Kalman.filter rational_sqrt kalman_default [Fin 10; Fin 3; Fin 12] [Fin 5; Fin 0; Fin 6]
    = Ok df /\
    nth_error (Kalman.col_hedge_ratio df) 0 = Some (Fin 0) /\
    nth_error (Kalman.col_hedge_ratio_std df) 0 = Some (rational_sqrt (Fin 1)) /\
    nth_error (Kalman.col_forecast_error df) 0 = Some zero /\
    nth_error (Kalman.col_spread df) 0 = Some (Fin 10 - Fin 0 * Fin 5)%float.
Proof.
  destruct (KalmanFacts.filter_first_row_is_prior rational_sqrt kalman_default
              (Fin 10) (Fin 5) [Fin 3; Fin 12] [Fin 0; Fin 6] eq_refl eq_refl)
    as (df & H & H1 & H2 & H3 & H4 & _).
  exists df. repeat split; assumption.
Defined.

(** C8 as stated fails when the observation is missing: with [x_t = 0] and
    [y_t] NaN the innovation variance is the observation noise and the gain
    is 0, no division by zero occurs, but the forecast error is NaN and so is
    the new hedge ratio, in [online_update] and in the row [filter] writes. *)
Lemma zero_regressor_counterexample :
  let l := Kalman.filter_step kalman_default
             (Kalman.delta kalman_default / (Fin 1 - Kalman.delta kalman_default))%float
             (Fin 2) (Fin 1) (Fin 0) NaN in
  (Kalman.l_S l = Kalman.Ve kalman_default /\ Kalman.l_K l = Fin 0 /\
   Kalman.l_beta l = NaN /\ feq (Kalman.l_beta l) (Fin 2) = False) /\
  (exists P_new,
      Kalman.online_update py_truediv kalman_default NaN (Fin 0) (Fin 2) (Fin 1)
      = Ok (NaN, P_new, NaN) /\
      Kalman.online_update np_truediv kalman_default NaN (Fin 0) (Fin 2) (Fin 1)
      = Ok (NaN, P_new, NaN)) /\
  (exists df,
      Kalman.filter rational_sqrt kalman_default [Fin 10; NaN] [Fin 5; Fin 0] = Ok df /\
      Kalman.col_hedge_ratio df = [Fin 0; NaN]).
Proof.
  split; [repeat split|]. split; eexists; split; reflexivity.
Qed.

(** C8 (amended) at the second observation of the input of C1, whose regressor
    is 0. *)
Lemma zero_regressor_keeps_hedge_ratio_witness :
  exists beta_new P_new e,
    Kalman.online_update py_truediv kalman_default (Fin 3) (Fin 0) (Fin 2) (Fin 1)
    = Ok (beta_new, P_new, e) /\
    Kalman.online_update np_truediv kalman_default (Fin 3) (Fin 0) (Fin 2) (Fin 1)
    = Ok (beta_new, P_new, e) /\
    (beta_new == Fin 2)%float.
Proof.
  refine (proj1 (proj2 (proj2
    (KalmanFacts.zero_regressor_keeps_hedge_ratio kalman_default
       1 (1 # 10000) 2 1 3 0 [Fin 10; Fin 3] [Fin 5; Fin 0]
       {| Kalman.beta := [Fin 2; zero]; Kalman.P := [Fin 1; zero];
          Kalman.spread := [zero; zero]; Kalman.forecast_error := [zero; zero] |}
       1 eq_refl _ eq_refl _ _ eq_refl eq_refl eq_refl eq_refl _ _ _ _))));
    try (simpl; lia); try reflexivity.
  intros H. discriminate H.
Defined.

(** C2 on a four-step position column. *)
Lemma compute_signal_pnl_formulas_witness :
  nth 2 (Signals.strategy_return
           (Signals.compute_signal_pnl [0; -1; 0; -1]%Z
              [Fin 100; Fin 110; Fin 99; Fin 100] [Fin 50; Fin 50; Fin 55; Fin 55]
              (Fin 2) (Fin 5))) NaN
  = (of_Z (-1) * ((Fin 99 / Fin 110 - Fin 1) - Fin 2 * (Fin 55 / Fin 50 - Fin 1)))%float.
Proof.
  refine (proj1
    (SignalFacts.compute_signal_pnl_formulas [0; -1; 0; -1]%Z
       [Fin 100; Fin 110; Fin 99; Fin 100] [Fin 50; Fin 50; Fin 55; Fin 55]
       (Fin 2) (Fin 5) 1 eq_refl eq_refl _)).
  simpl. lia.
Defined.

(** C3 as stated fails: on a path that rises above entry_z, falls below
    exit_z and rises above stop_z the position column is Flat, Short, Flat,
    Short, three transitions and not the two of the claim. *)
Lemma hysteresis_counterexample :
  exists df,
    signals_of rise_fall_rise = Ok df /\
    Signals.sig_zscore df = [NaN; Fin (5 # 2); Fin (3 # 10); Fin 4] /\
    fgt (Fin (5 # 2)) (Signals.entry_z generator_default) = true /\
    flt (Fin (3 # 10)) (Signals.exit_z generator_default) = true /\
    fgt (Fin 4) (Signals.stop_z generator_default) = true /\
    Signals.sig_position df = [0; -1; 0; -1]%Z /\
    Signals.transitions (Signals.sig_position df) = [(0, -1); (-1, 0); (0, -1)]%Z /\
    Signals.transitions (Signals.sig_position df) <> [(0, -1); (-1, 0)]%Z.
Proof.
  eexists. split; [reflexivity|]. repeat split. discriminate.
Qed.

(** C3 (amended) on the path with quiet steps between the crossings. *)
Lemma hysteresis_path_witness :
  Signals.transitions (Signals.sig_position (frame_of (signals_of rise_fall_rise_slow)))
  = [(0, -1); (-1, 0); (0, -1)]%Z.
Proof.
  refine (proj1 (proj2
    (SignalFacts.hysteresis_path mean_zero std_one rolling_unused rolling_unused
       generator_default 2 (1 # 2) (7 # 2) eq_refl eq_refl eq_refl _ _ _
       rise_fall_rise_slow (map (fun _ => Fin 0) rise_fall_rise_slow) (Fin 0) (Fin 0)
       (frame_of (signals_of rise_fall_rise_slow))
       NaN (Fin (5 # 2)) (Fin (3 # 10)) (Fin 4) [Fin 1] [Fin 1] [Fin 1]
       eq_refl eq_refl _ eq_refl _ eq_refl _ eq_refl)));
    try (unfold Qle, Qlt; simpl; lia);
    repeat constructor.
Defined.

(** C4: one step after an entry the spread is missing; the column shows
    Flat at that step, not the ShortSpread of the step before, and
    ShortSpread again at the next step. *)
Lemma missing_zscore_recorded_flat :
  exists df,
    signals_of gap_after_entry = Ok df /\
    Signals.sig_zscore df = [NaN; Fin (5 # 2); NaN; Fin 1] /\
    Signals.sig_position df = [0; -1; 0; -1]%Z /\
    nth_error (Signals.sig_position df) 2 <> nth_error (Signals.sig_position df) 1.
Proof.
  eexists. split; [reflexivity|]. repeat split. discriminate.
Qed.

(** C9 as stated fails at a step whose z-score is missing: the confidence is
    NaN, which is not in [0, 1]. *)
Lemma confidence_counterexample :
  exists df,
    signals_of rise_fall_rise = Ok df /\
    nth_error (Signals.sig_zscore df) 0 = Some NaN /\
    nth_error (Signals.sig_confidence df) 0 = Some NaN /\
    fle (Fin 0) NaN = false /\ fle NaN (Fin 1) = false.
Proof.
  eexists. split; [reflexivity|]. repeat split.
Qed.

(** C9 (amended) at step 1 of the same input, where the z-score is 2.5. *)
Lemma confidence_clipped_witness :
  exists df,
    signals_of rise_fall_rise = Ok df /\
    nth_error (Signals.sig_confidence df) 1 = Some (Fin 1) /\
    fle (Fin 0) (Fin 1) = true /\ fle (Fin 1) (Fin 1) = true.
Proof.
  destruct (SignalFacts.confidence_clipped mean_zero std_one rolling_unused
              rolling_unused generator_default rise_fall_rise
              (map (fun _ => Fin 0) rise_fall_rise) (Fin 0) (Fin 0))
    as (df & Hdf & _ & H).
  exists df. split; [exact Hdf|].
  assert (E : df = frame_of (signals_of rise_fall_rise))
    by (unfold signals_of; now rewrite Hdf).
  assert (Hz : nth_error (Signals.sig_zscore df) 1 = Some (Fin (5 # 2)))
    by (rewrite E; reflexivity).
  destruct (H 1%nat (Fin (5 # 2)) Hz) as (Hc & _ & Hin).
  split; [exact Hc|].
  apply (Hin 2 (1 # 2) eq_refl eq_refl); [|reflexivity].
  intros Hq. discriminate Hq.
Defined.

(** C5 as stated fails: on the spread 10, 9, 8.5 the slope read by
    [estimate_half_life], from the regression with a constant, is -1/2, the
    coefficient of the regression without a constant is -29/362, and the two
    half-lives differ. *)
Lemma half_life_counterexample :
  Tester.estimate_half_life lstsq_two_rows [Fin 10; Fin 9; Fin (17 # 2)]
  = Ok (fopp np_log2 / Fin (-1 # 2))%float /\
  ols_no_intercept [Fin 10; Fin 9; Fin (17 # 2)] = Fin (-29 # 362) /\
  feqb (fopp np_log2 / Fin (-1 # 2))%float (fopp np_log2 / Fin (-29 # 362))%float = false.
Proof. repeat split. Qed.

(** C5 (amended) on that spread. *)
Lemma half_life_sign_and_filter_witness :
  Tester.estimate_half_life lstsq_two_rows [Fin 10; Fin 9; Fin (17 # 2)]
  = Ok (fopp np_log2 / Fin (-1 # 2))%float /\
  exists h : Q, (fopp np_log2 / Fin (-1 # 2))%float = Fin h /\ 0 < h.
Proof.
  refine (proj1
    (proj1 (TesterFacts.half_life_sign_and_filter lstsq_two_rows adfuller_significant
              coint_significant corr_high)
       [Fin 10; Fin 9; Fin (17 # 2)] [Fin 4; Fin (-1 # 2)] (Fin (-1 # 2))
       eq_refl eq_refl) (-1 # 2) eq_refl _).
  reflexivity.
Defined.

(** C6 on a series of zeros with a missing value, and on a series with no
    value. *)
Lemma metrics_degeneracy_witness :
  (exists m, metrics_of [Fin 0; NaN; Fin 0] = Ok m /\
             dict_get m "sharpe_ratio" = Some (Fin 0) /\
             dict_get m "profit_factor" = Some PInf) /\
  metrics_of [NaN] = Ok [].
Proof.
  split.
  - destruct (proj2 (proj2
      (BacktestFacts.metrics_degeneracy rational_sqrt power_stub moment_stub
         moment_stub moment_stub [Fin 0; NaN; Fin 0])))
      as (m & Hm & Hsharpe & Hloss & _); [discriminate|].
    exists m. split; [exact Hm|]. split; [|apply Hloss; reflexivity].
    assert (E : m = match metrics_of [Fin 0; NaN; Fin 0] with
                    | Ok d => d
                    | Raise _ => []
                    end)
      by (unfold metrics_of; now rewrite Hm).
    apply (Hsharpe (Fin 0)); [rewrite E|]; reflexivity.
  - exact (proj1 (proj2
      (BacktestFacts.metrics_degeneracy rational_sqrt power_stub moment_stub
         moment_stub moment_stub [NaN])) eq_refl).
Defined.


End Checks.

(** * Further properties of the code *)

(** ** Arrays, once more *)

Lemma length_update {A : Type} (l : list A) (i : nat) (v : A) :
  length (update l i v) = length l.
Proof.
  revert i. induction l as [|h l IH]; intros [|i]; simpl; try reflexivity.
  now rewrite IH.
Qed.

Lemma getitem_lt {A : Type} (l : list A) (i : nat) :
  (i < length l)%nat -> exists v, getitem l i = Ok v.
Proof.
  intros H. unfold getitem. destruct (nth_error l i) as [v|] eqn:E.
  - now exists v.
  - apply nth_error_None in E. lia.
Qed.

Lemma getitem_ge {A : Type} (l : list A) (i : nat) :
  (length l <= i)%nat -> getitem l i = Raise IndexError.
Proof.
  intros H. unfold getitem. apply nth_error_None in H. now rewrite H.
Qed.

Lemma setitem_lt {A : Type} (l : list A) (i : nat) (v : A) :
  (i < length l)%nat -> setitem l i v = Ok (update l i v).
Proof. intros H. unfold setitem. apply Nat.ltb_lt in H. now rewrite H. Qed.

Lemma zip_with_length (f : float -> float -> float) (a b : list float) :
  length a = length b ->
  exists r, zip_with f a b = Ok r /\ length r = length a.
Proof.
  intros H. rewrite (zip_with_combine f a b H). eexists. split; [reflexivity|].
  rewrite length_map, length_combine. lia.
Qed.

Lemma zip_with_mismatch (f : float -> float -> float) (a b : list float) :
  length a <> length b -> zip_with f a b = Raise ValueError.
Proof.
  revert b. induction a as [|p a IH]; intros [|q b] H; simpl in *;
    try reflexivity; try congruence.
  rewrite IH by congruence. reflexivity.
Qed.

Lemma for_each_app {S : Type} (l1 l2 : list nat) (body : S -> nat -> result S) (st : S) :
  for_each (l1 ++ l2) body st = (st' <- for_each l1 body st ;; for_each l2 body st').
Proof.
  revert st. induction l1 as [|t l1 IH]; intros st; cbn [app for_each bind].
  - reflexivity.
  - destruct (body st t); cbn [bind]; [apply IH|reflexivity].
Qed.

(** ** The recursive estimator: errors, shapes and columns *)

Module KalmanMore.
Import Kalman.
Section KalmanMore.

Variable np_sqrt : float -> float.
Variable self : KalmanHedgeRatio.

Lemma filter_body_sized (Vw : float) (y x : list float) (st : arrays) (n t : nat) :
  sized n st -> (1 <= t < n)%nat -> (t < length y)%nat -> (t < length x)%nat ->
  exists st', filter_body self Vw y x st t = Ok st' /\ sized n st'.
Proof.
  intros (Hb & HP & Hs & Hf) Ht Hy Hx. unfold filter_body.
  destruct (getitem_lt (beta st) (t - 1)) as [b ->]; [lia|].
  destruct (getitem_lt (P st) (t - 1)) as [p ->]; [lia|].
  destruct (getitem_lt x t Hx) as [xt ->].
  destruct (getitem_lt y t Hy) as [yt ->]. cbn [bind].
  rewrite !setitem_lt by lia. cbn [bind].
  eexists. split; [reflexivity|].
  unfold sized. cbn [beta P spread forecast_error]. rewrite !length_update. auto.
Qed.

Lemma filter_body_short_x (Vw : float) (y x : list float) (st : arrays) (n t : nat) :
  sized n st -> (1 <= t < n)%nat -> (length x <= t)%nat ->
  filter_body self Vw y x st t = Raise IndexError.
Proof.
  intros (Hb & HP & Hs & Hf) Ht Hx. unfold filter_body.
  destruct (getitem_lt (beta st) (t - 1)) as [b ->]; [lia|].
  destruct (getitem_lt (P st) (t - 1)) as [p ->]; [lia|]. cbn [bind].
  now rewrite (getitem_ge x t Hx).
Qed.

Lemma filter_loop_sized (Vw : float) (y x : list float) (n r : nat) :
  forall (a : nat) (st : arrays),
  sized n st -> (1 <= a)%nat -> (a + r <= n)%nat -> (n <= length y)%nat ->
  (a + r <= length x)%nat ->
  exists st', for_each (seq a r) (filter_body self Vw y x) st = Ok st' /\ sized n st'.
Proof.
  induction r as [|r IH]; intros a st Hst Ha Hn Hy Hx; cbn [seq for_each].
  - now exists st.
  - destruct (filter_body_sized Vw y x st n a Hst) as (st1 & -> & Hst1); try lia.
    cbn [bind]. apply IH; trivial; lia.
Qed.

Lemma filter_loop_short_x (Vw : float) (y x : list float) (n : nat) (st : arrays) :
  sized n st -> (n <= length y)%nat -> (length x < n)%nat -> (2 <= n)%nat ->
  for_each (seq 1 (n - 1)) (filter_body self Vw y x) st = Raise IndexError.
Proof.
  intros Hst Hy Hx Hn.
  destruct (le_lt_dec (length x) 1) as [Hx1|Hx1].
  - destruct (n - 1)%nat as [|k] eqn:E; [lia|]. cbn [seq for_each].
    rewrite (filter_body_short_x Vw y x st n 1 Hst) by lia. reflexivity.
  - replace (n - 1)%nat with ((length x - 1) + (n - length x))%nat by lia.
    rewrite seq_app, for_each_app.
    destruct (filter_loop_sized Vw y x n (length x - 1) 1 st Hst)
      as (st1 & -> & Hst1); try lia.
    cbn [bind]. replace (1 + (length x - 1))%nat with (length x) by lia.
    destruct (n - length x)%nat as [|k] eqn:E; [lia|]. cbn [seq for_each].
    rewrite (filter_body_short_x Vw y x st1 n (length x) Hst1) by lia. reflexivity.
Qed.

(** X1: when [filter] returns and when it raises.  An empty [y] raises
    [IndexError]; otherwise [delta = 1] raises [ZeroDivisionError]; otherwise
    an [x] shorter than [y] raises [IndexError] (or [ValueError] when [y] has
    one entry), a longer [x] raises [ValueError]; on series of one positive
    length it returns a frame whose four columns have that length. *)
Theorem filter_outcomes (y x : list float) :
  (y = [] -> filter np_sqrt self y x = Raise IndexError) /\
  (y <> [] -> feqb (Fin 1 - delta self)%float zero = true ->
   filter np_sqrt self y x = Raise ZeroDivisionError) /\
  (feqb (Fin 1 - delta self)%float zero = false ->
   ((length x < length y)%nat -> (2 <= length y)%nat ->
    filter np_sqrt self y x = Raise IndexError) /\
   ((length x < length y)%nat -> length y = 1%nat ->
    filter np_sqrt self y x = Raise ValueError) /\
   ((1 <= length y < length x)%nat ->
    filter np_sqrt self y x = Raise ValueError) /\
   ((1 <= length y)%nat -> length x = length y ->
    exists df, filter np_sqrt self y x = Ok df /\
      length (col_hedge_ratio df) = length y /\
      length (col_hedge_ratio_std df) = length y /\
      length (col_spread df) = length y /\
      length (col_forecast_error df) = length y)).
Proof.
  split; [|split].
  - intros ->. reflexivity.
  - intros Hy Hd. destruct y as [|y0 ys]; [contradiction|].
    unfold filter. cbn [length repeat setitem Nat.ltb Nat.leb update bind].
    unfold py_truediv. now rewrite Hd.
  - intros Hd.
    assert (Hstart : forall y0 ys,
      y = y0 :: ys ->
      filter np_sqrt self y x
      = (st <- for_each (seq 1 (length y - 1))
                 (filter_body self (delta self / (Fin 1 - delta self))%float y x)
                 {| beta := initial_mean self :: repeat zero (length ys);
                    P := initial_cov self :: repeat zero (length ys);
                    spread := zero :: repeat zero (length ys);
                    forecast_error := zero :: repeat zero (length ys) |} ;;
         bx <- zip_with fmul (beta st) x ;;
         sp <- zip_with fsub y bx ;;
         Ok {| col_hedge_ratio := beta st;
               col_hedge_ratio_std := map np_sqrt (P st);
               col_spread := sp;
               col_forecast_error := forecast_error st |})).
    { intros y0 ys ->. unfold filter.
      cbn [length repeat setitem Nat.ltb Nat.leb update bind].
      unfold py_truediv. rewrite Hd. reflexivity. }
    assert (Hsized : forall y0 ys, y = y0 :: ys ->
      sized (length y)
        {| beta := initial_mean self :: repeat zero (length ys);
           P := initial_cov self :: repeat zero (length ys);
           spread := zero :: repeat zero (length ys);
           forecast_error := zero :: repeat zero (length ys) |}).
    { intros y0 ys ->. unfold sized. cbn [beta P spread forecast_error length].
      rewrite !repeat_length. auto. }
    split; [|split; [|split]].
    + intros Hx Hn. destruct y as [|y0 ys]; [simpl in Hn; lia|].
      rewrite (Hstart y0 ys eq_refl).
      rewrite (filter_loop_short_x _ _ x _ _ (Hsized y0 ys eq_refl)) by lia.
      reflexivity.
    + intros Hx Hn. destruct y as [|y0 [|y1 ys]]; try discriminate.
      destruct x as [|x0 xs]; [|simpl in Hx; lia].
      rewrite (Hstart y0 [] eq_refl). reflexivity.
    + intros Hx. destruct y as [|y0 ys]; [simpl in Hx; lia|].
      rewrite (Hstart y0 ys eq_refl).
      destruct (filter_loop_sized (delta self / (Fin 1 - delta self))%float
                  (y0 :: ys) x (length (y0 :: ys)) (length (y0 :: ys) - 1) 1 _
                  (Hsized y0 ys eq_refl)) as (st & -> & Hb & _); try lia.
      cbn [bind]. rewrite zip_with_mismatch by lia. reflexivity.
    + intros Hn Hx. destruct y as [|y0 ys]; [simpl in Hn; lia|].
      rewrite (Hstart y0 ys eq_refl).
      destruct (filter_loop_sized (delta self / (Fin 1 - delta self))%float
                  (y0 :: ys) x (length (y0 :: ys)) (length (y0 :: ys) - 1) 1 _
                  (Hsized y0 ys eq_refl)) as (st & -> & Hb & HP & _ & Hf); try lia.
      cbn [bind].
      destruct (zip_with_length fmul (beta st) x) as (bx & -> & Hbx); [lia|].
      cbn [bind].
      destruct (zip_with_length fsub (y0 :: ys) bx) as (sp & -> & Hsp); [lia|].
      cbn [bind]. eexists. split; [reflexivity|].
      cbn [col_hedge_ratio col_hedge_ratio_std col_spread col_forecast_error].
      rewrite length_map. repeat split; lia.
Qed.

(** *** The variance column *)

Lemma trace_variances_any_y (Vw : float) (xs : list float) :
  forall (ys ys' : list float) (b b' p : float),
  length ys = length xs -> length ys' = length xs ->
  map step_P (trace self Vw (combine ys xs) b p)
  = map step_P (trace self Vw (combine ys' xs) b' p).
Proof.
  induction xs as [|x xs IH]; intros [|y ys] [|y' ys'] b b' p H H'; simpl in *;
    try discriminate; try reflexivity.
  f_equal. apply IH; lia.
Qed.

(** X3: the [hedge_ratio_std] column of [filter] does not depend on the
    observations [y]: on aligned series, two calls with the same regressors
    [x] and any observations of that length return the same column.  It is
    determined by [x] and the configuration. *)
Theorem filter_std_ignores_observations (y0 y0' x0 : float) (ys ys' xs : list float) :
  length ys = length xs -> length ys' = length xs ->
  feqb (Fin 1 - delta self)%float zero = false ->
  exists df df',
    filter np_sqrt self (y0 :: ys) (x0 :: xs) = Ok df /\
    filter np_sqrt self (y0' :: ys') (x0 :: xs) = Ok df' /\
    col_hedge_ratio_std df' = col_hedge_ratio_std df.
Proof.
  intros Hlen Hlen' Hd.
  assert (HVw : py_truediv (delta self) (Fin 1 - delta self)%float
                = Ok (fdiv (delta self) (Fin 1 - delta self)%float))
    by (unfold py_truediv; now rewrite Hd).
  pose proof (KalmanFacts.filter_eval np_sqrt self _ y0 x0 ys xs Hlen HVw) as Hf.
  pose proof (KalmanFacts.filter_eval np_sqrt self _ y0' x0 ys' xs Hlen' HVw) as Hf'.
  cbv zeta in Hf, Hf'.
  eexists. eexists. split; [exact Hf|]. split; [exact Hf'|].
  cbn [col_hedge_ratio_std map]. f_equal. f_equal.
  now apply trace_variances_any_y.
Qed.

Lemma trace_forecast_error (Vw : float) (obs : list (float * float)) :
  forall (b p : float) (k : nat), (k < length obs)%nat ->
  nth k (map step_e (trace self Vw obs b p)) NaN
  = (fst (nth k obs (NaN, NaN))
     - nth k (b :: map step_beta (trace self Vw obs b p)) NaN
       * snd (nth k obs (NaN, NaN)))%float.
Proof.
  induction obs as [|[y x] obs IH]; intros b p k Hk; simpl in Hk; [lia|].
  destruct k as [|k]; [reflexivity|].
  cbn [trace map nth step_e step_beta fst snd].
  rewrite IH by lia. reflexivity.
Qed.

(** X5: on aligned series the columns of [filter] are tied row by row: the
    spread at a row is [y - hedge_ratio * x] at that row (the estimate made
    with that row's observation), and the forecast error at a row after the
    first is [y - hedge_ratio(previous row) * x]. *)
Theorem filter_columns (y0 x0 : float) (ys xs : list float) :
  length ys = length xs ->
  feqb (Fin 1 - delta self)%float zero = false ->
  exists df,
    filter np_sqrt self (y0 :: ys) (x0 :: xs) = Ok df /\
    (forall t, (t < S (length ys))%nat ->
       nth t (col_spread df) NaN
       = (nth t (y0 :: ys) NaN - nth t (col_hedge_ratio df) NaN * nth t (x0 :: xs) NaN)%float) /\
    (forall t, (S t < S (length ys))%nat ->
       nth (S t) (col_forecast_error df) NaN
       = (nth (S t) (y0 :: ys) NaN
          - nth t (col_hedge_ratio df) NaN * nth (S t) (x0 :: xs) NaN)%float).
Proof.
  intros Hlen Hd.
  assert (HVw : py_truediv (delta self) (Fin 1 - delta self)%float
                = Ok (fdiv (delta self) (Fin 1 - delta self)%float))
    by (unfold py_truediv; now rewrite Hd).
  pose proof (KalmanFacts.filter_eval np_sqrt self _ y0 x0 ys xs Hlen HVw) as Hf.
  cbv zeta in Hf. eexists. split; [exact Hf|].
  cbn [col_spread col_hedge_ratio col_forecast_error].
  set (tr := trace self (delta self / (Fin 1 - delta self))%float (combine ys xs)
               (initial_mean self) (initial_cov self)).
  assert (Htr : length tr = length ys)
    by (unfold tr; rewrite KalmanFacts.trace_length, length_combine; lia).
  split.
  - intros t Ht.
    rewrite (nth_combine_map _ (y0 :: ys) _ t NaN NaN)
      by (cbn [length]; rewrite ?length_map, ?length_combine; cbn [length];
          rewrite ?length_map; lia).
    cbn [fst snd].
    rewrite (nth_combine_map _ (initial_mean self :: map step_beta tr) (x0 :: xs) t NaN NaN)
      by (cbn [length]; rewrite ?length_map; lia).
    reflexivity.
  - intros t Ht. cbn [nth].
    unfold tr. rewrite trace_forecast_error by (rewrite length_combine; lia).
    fold tr.
    assert (Hy : fst (nth t (combine ys xs) (NaN, NaN)) = nth t ys NaN).
    { rewrite combine_nth by assumption. reflexivity. }
    assert (Hx : snd (nth t (combine ys xs) (NaN, NaN)) = nth t xs NaN).
    { rewrite combine_nth by assumption. reflexivity. }
    now rewrite Hy, Hx.
Qed.

End KalmanMore.
End KalmanMore.

(** ** The signal generator: shape, range, steps, stop threshold, prefixes *)

Module SignalMore.
Import Signals.

Lemma fopp_isnan (z : float) : isnan (fopp z) = isnan z.
Proof. destruct z; reflexivity. Qed.

Lemma flt_fopp_fopp (a b : float) : flt (fopp a) (fopp b) = flt b a.
Proof.
  destruct a as [p| | |], b as [q| | |]; try reflexivity. cbn [fopp].
  destruct (flt (Fin q) (Fin p)) eqn:E.
  - apply flt_Fin in E. apply flt_Fin. rewrite !Qred_correct. lra.
  - apply flt_Fin_false in E. apply flt_Fin_false. rewrite !Qred_correct. lra.
Qed.

Lemma flt_fopp_l (z e : float) : flt (fopp z) e = flt (fopp e) z.
Proof.
  destruct z as [p| | |], e as [q| | |]; try reflexivity. cbn [fopp].
  destruct (flt (Fin (Qred (- q))) (Fin p)) eqn:E.
  - apply flt_Fin in E. apply flt_Fin. rewrite Qred_correct in *. lra.
  - apply flt_Fin_false in E. apply flt_Fin_false. rewrite Qred_correct in *. lra.
Qed.

Lemma flt_fopp_r (e z : float) : flt e (fopp z) = flt z (fopp e).
Proof.
  destruct z as [p| | |], e as [q| | |]; try reflexivity. cbn [fopp].
  destruct (flt (Fin p) (Fin (Qred (- q)))) eqn:E.
  - apply flt_Fin in E. apply flt_Fin. rewrite Qred_correct in *. lra.
  - apply flt_Fin_false in E. apply flt_Fin_false. rewrite Qred_correct in *. lra.
Qed.

Lemma next_position_range (self : ZScoreSignalGenerator) (p : Z) (z : float) :
  is_position p -> is_position (next_position self p z).
Proof.
  unfold is_position, next_position.
  intros [-> | [-> | ->]]; cbn [Z.eqb];
    repeat match goal with
      | |- context [if ?c then _ else _] => destruct c
      end; auto.
Qed.

(** A position is never turned into its opposite in one step. *)
Lemma next_position_step (self : ZScoreSignalGenerator) (p : Z) (z : float) :
  is_position p -> (Z.abs (next_position self p z - p) <= 1)%Z.
Proof.
  unfold is_position, next_position.
  intros [-> | [-> | ->]]; cbn [Z.eqb];
    repeat match goal with
      | |- context [if ?c then _ else _] => destruct c
      end; lia.
Qed.

Lemma track_range (self : ZScoreSignalGenerator) (zs : list float) :
  forall p, is_position p -> Forall is_position (track self p zs).
Proof.
  induction zs as [|z zs IH]; intros p Hp; cbn [track]; [constructor|].
  destruct (isnan z).
  - constructor; [right; left; reflexivity|]. now apply IH.
  - constructor; [now apply next_position_range|].
    apply IH. now apply next_position_range.
Qed.

Lemma track_small_steps (self : ZScoreSignalGenerator) (zs : list float) :
  forall p prev, is_position p -> (prev = 0%Z \/ prev = p) ->
  small_steps prev (track self p zs).
Proof.
  induction zs as [|z zs IH]; intros p prev Hp Hprev; cbn [track small_steps];
    [exact I|].
  destruct (isnan z); cbn [small_steps].
  - split; [|apply IH; auto].
    destruct Hprev as [-> | ->]; [lia|].
    destruct Hp as [-> | [-> | ->]]; lia.
  - split; [|apply IH; [now apply next_position_range|now right]].
    destruct Hprev as [-> | ->]; [|now apply next_position_step].
    destruct (next_position_range self p z Hp) as [-> | [-> | ->]]; lia.
Qed.

Lemma small_steps_nth (l : list Z) :
  forall prev t, small_steps prev l -> (S t < length l)%nat ->
  (Z.abs (nth (S t) l 0%Z - nth t l 0%Z) <= 1)%Z.
Proof.
  induction l as [|p l IH]; intros prev t H Ht; simpl in Ht; [lia|].
  destruct H as [_ H]. destruct l as [|q l]; [simpl in Ht; lia|].
  destruct t as [|t].
  - cbn [nth]. destruct H as [H _]. exact H.
  - change (nth (S (S t)) (p :: q :: l) 0%Z) with (nth (S t) (q :: l) 0%Z).
    change (nth (S t) (p :: q :: l) 0%Z) with (nth t (q :: l) 0%Z).
    apply (IH p); [assumption|simpl in *; lia].
Qed.

Lemma track_firstn (self : ZScoreSignalGenerator) (zs : list float) :
  forall p k, track self p (firstn k zs) = firstn k (track self p zs).
Proof.
  induction zs as [|z zs IH]; intros p [|k]; cbn [firstn track]; try reflexivity.
  destruct (isnan z); cbn [firstn]; now rewrite IH.
Qed.

Lemma recorded_firstn (self : ZScoreSignalGenerator) (zs : list float) (k : nat) :
  recorded self (firstn k zs) = firstn k (recorded self zs).
Proof.
  destruct zs as [|z zs], k as [|k]; try reflexivity.
  cbn [firstn recorded]. now rewrite track_firstn.
Qed.

Lemma length_recorded (self : ZScoreSignalGenerator) (zs : list float) :
  length (recorded self zs) = length zs.
Proof.
  destruct zs as [|z zs]; [reflexivity|].
  cbn [recorded length]. now rewrite SignalFacts.length_track.
Qed.

Lemma length_compute_spread (y x : list float) (hedge_ratio intercept : float) :
  length (compute_spread y x hedge_ratio intercept) = Nat.max (length y) (length x).
Proof.
  unfold compute_spread.
  now rewrite length_map, SignalFacts.length_series_op_max, length_map.
Qed.

Section Generate.

Variable ewm_mean ewm_std : float -> list float -> list float.
Variable rolling_mean rolling_std : nat -> list float -> list float.

Local Abbreviation signals :=
  (generate_signals ewm_mean ewm_std rolling_mean rolling_std).

(** X6: [generate_signals] never raises, whatever the estimators return; its
    four columns have one length, the larger of the lengths of [y] and [x];
    every position is -1, 0 or 1, and the position of the first row is 0. *)
Theorem generate_signals_shape (self : ZScoreSignalGenerator) (y x : list float)
  (hedge_ratio intercept : float) :
  exists df,
    signals self y x hedge_ratio intercept = Ok df /\
    length (sig_spread df) = Nat.max (length y) (length x) /\
    length (sig_zscore df) = Nat.max (length y) (length x) /\
    length (sig_position df) = Nat.max (length y) (length x) /\
    length (sig_confidence df) = Nat.max (length y) (length x) /\
    Forall is_position (sig_position df) /\
    (forall p, nth_error (sig_position df) 0 = Some p -> p = 0%Z).
Proof.
  eexists. split; [apply SignalFacts.generate_signals_eval|].
  cbn [sig_spread sig_zscore sig_position sig_confidence].
  set (spread := compute_spread y x hedge_ratio intercept).
  pose proof (SignalFacts.length_zscores ewm_mean ewm_std rolling_mean rolling_std
                self spread) as Hz.
  assert (Hs : length spread = Nat.max (length y) (length x))
    by apply length_compute_spread.
  assert (Hf : length (firstn (length spread)
                         (compute_zscore ewm_mean ewm_std rolling_mean rolling_std
                            self spread)) = length spread)
    by (rewrite length_firstn; lia).
  rewrite length_map, length_recorded, Hf.
  repeat split; try assumption.
  - unfold recorded.
    destruct (firstn _ _) as [|z zs]; constructor; [right; left; reflexivity|].
    apply track_range. right; left; reflexivity.
  - intros p. unfold recorded. destruct (firstn _ _) as [|z zs]; [discriminate|].
    now intros [= <-].
Qed.

(** X7: from one row to the next the position changes by at most one: a long
    spread is never turned into a short one, nor a short one into a long one,
    without a flat row between. *)
Theorem no_reversal_in_one_step (self : ZScoreSignalGenerator) (y x : list float)
  (hedge_ratio intercept : float) (df : signals_frame) (t : nat) :
  signals self y x hedge_ratio intercept = Ok df ->
  (S t < length (sig_position df))%nat ->
  (Z.abs (nth (S t) (sig_position df) 0%Z - nth t (sig_position df) 0%Z) <= 1)%Z.
Proof.
  intros Hdf Ht. rewrite SignalFacts.generate_signals_eval in Hdf.
  injection Hdf as <-. cbn [sig_position] in *.
  unfold recorded in *. destruct (firstn _ _) as [|z zs]; [simpl in Ht; lia|].
  apply (small_steps_nth _ 0%Z); [|assumption].
  cbn [small_steps]. split; [lia|].
  apply track_small_steps; [right; left; reflexivity|now left].
Qed.

(** X9: the positions of the first [k] rows are determined by the z-scores of
    the first [k] rows: two runs with the same thresholds whose z-score columns
    agree on a prefix have position columns that agree on it, whatever prices,
    hedge ratios and estimators produced them. *)
Theorem positions_depend_on_prefix
  (ewm_mean' ewm_std' : float -> list float -> list float)
  (rolling_mean' rolling_std' : nat -> list float -> list float)
  (self self' : ZScoreSignalGenerator) (y x y' x' : list float)
  (hedge_ratio intercept hedge_ratio' intercept' : float)
  (df df' : signals_frame) (k : nat) :
  entry_z self' = entry_z self -> exit_z self' = exit_z self ->
  stop_z self' = stop_z self ->
  signals self y x hedge_ratio intercept = Ok df ->
  generate_signals ewm_mean' ewm_std' rolling_mean' rolling_std' self'
    y' x' hedge_ratio' intercept' = Ok df' ->
  firstn k (sig_zscore df') = firstn k (sig_zscore df) ->
  firstn k (sig_position df') = firstn k (sig_position df).
Proof.
  intros He Hx Hs Hdf Hdf' Hz.
  rewrite SignalFacts.generate_signals_eval in Hdf, Hdf'.
  injection Hdf as <-. injection Hdf' as <-. cbn [sig_zscore sig_position] in *.
  rewrite <- !recorded_firstn, Hz.
  assert (Hnp : forall p z, next_position self' p z = next_position self p z)
    by (intros p z; unfold next_position; now rewrite He, Hx, Hs).
  assert (Htrack : forall zs p, track self' p zs = track self p zs).
  { induction zs as [|z zs IH]; intros p; cbn [track]; [reflexivity|].
    now rewrite Hnp, !IH. }
  match goal with |- recorded _ ?l = _ => generalize l end.
  intros [|z zs]; [reflexivity|]. cbn [recorded]. now rewrite Htrack.
Qed.

Lemma orb_subsumed (b1 b2 : bool) : (b2 = true -> b1 = true) -> b1 || b2 = b1.
Proof. destruct b1, b2; intros H; try reflexivity. discriminate (H eq_refl). Qed.

Lemma next_position_any_stop (self self' : ZScoreSignalGenerator) (ex st st' : Q)
  (p : Z) (z : float) :
  entry_z self' = entry_z self -> exit_z self' = exit_z self ->
  exit_z self = Fin ex -> stop_z self = Fin st -> stop_z self' = Fin st' ->
  - ex <= st -> - ex <= st' ->
  next_position self' p z = next_position self p z.
Proof.
  intros He Hx Hex Hst Hst' H1 H2.
  assert (Hsub : forall s : Q, - ex <= s ->
            fgt z (fopp (Fin ex)) || fgt z (Fin s) = fgt z (fopp (Fin ex)) /\
            flt z (Fin ex) || flt z (fopp (Fin s)) = flt z (Fin ex)).
  { intros s Hs. unfold fgt. split; apply orb_subsumed; intros H.
    - apply fle_flt_trans with (Fin s); [|assumption]. apply fle_fopp_Fin. lra.
    - apply flt_fle_trans with (fopp (Fin s)); [assumption|]. apply fle_fopp_Fin. lra. }
  unfold next_position. rewrite He, Hx, Hex, Hst, Hst'.
  destruct (Hsub st H1) as [-> ->]. destruct (Hsub st' H2) as [-> ->].
  reflexivity.
Qed.

(** X8: the stop threshold has no effect.  Two generators that differ in
    [stop_z] only, both with [stop_z >= -exit_z] (as for any non-negative
    thresholds), return the same frame on every input: each stop test of the
    loop is implied by the exit test beside it. *)
Theorem stop_threshold_has_no_effect (self self' : ZScoreSignalGenerator)
  (ex st st' : Q) (y x : list float) (hedge_ratio intercept : float) :
  entry_z self' = entry_z self -> exit_z self' = exit_z self ->
  lookback self' = lookback self -> use_ewm self' = use_ewm self ->
  ewm_halflife self' = ewm_halflife self ->
  exit_z self = Fin ex -> stop_z self = Fin st -> stop_z self' = Fin st' ->
  - ex <= st -> - ex <= st' ->
  signals self' y x hedge_ratio intercept = signals self y x hedge_ratio intercept.
Proof.
  intros He Hx Hl Hu Hh Hex Hst Hst' H1 H2.
  rewrite !SignalFacts.generate_signals_eval. cbv zeta.
  assert (Hz : forall sp,
            compute_zscore ewm_mean ewm_std rolling_mean rolling_std self' sp
            = compute_zscore ewm_mean ewm_std rolling_mean rolling_std self sp)
    by (intros sp; unfold compute_zscore; now rewrite Hl, Hu, Hh).
  rewrite Hz.
  assert (Hc : forall z, confidence_of self' z = confidence_of self z)
    by (intros z; unfold confidence_of; now rewrite He, Hx).
  assert (Htrack : forall zs p, track self' p zs = track self p zs).
  { induction zs as [|z zs IH]; intros p; cbn [track]; [reflexivity|].
    rewrite (next_position_any_stop self self' ex st st' p z) by assumption.
    now rewrite !IH. }
  f_equal. f_equal.
  - unfold recorded. destruct (firstn _ _); [reflexivity|]. now rewrite Htrack.
  - apply map_ext. exact Hc.
Qed.

Lemma next_position_mirror (self : ZScoreSignalGenerator) (en : Q) (p : Z) (z : float) :
  entry_z self = Fin en -> 0 <= en -> is_position p ->
  next_position self (- p) (fopp z) = (- next_position self p z)%Z.
Proof.
  intros Hen H0 Hp. unfold next_position, fgt.
  rewrite !flt_fopp_fopp.
  rewrite ?(flt_fopp_r (entry_z self) z), ?(flt_fopp_r (stop_z self) z),
    ?(flt_fopp_l z (exit_z self)).
  destruct Hp as [-> | [-> | ->]]; cbn [Z.opp Z.eqb Pos.eqb].
  - destruct (flt z (exit_z self) || flt z (fopp (stop_z self))); reflexivity.
  - destruct (flt (entry_z self) z) eqn:E1, (flt z (fopp (entry_z self))) eqn:E2;
      try reflexivity.
    exfalso. rewrite Hen in E1, E2. destruct z as [q| | |]; try discriminate.
    cbn [fopp] in E2. apply flt_Fin in E1, E2. rewrite Qred_correct in E2. lra.
  - destruct (flt (fopp (exit_z self)) z || flt (stop_z self) z); reflexivity.
Qed.

Lemma track_mirror (self : ZScoreSignalGenerator) (en : Q) (zs : list float) :
  entry_z self = Fin en -> 0 <= en ->
  forall p, is_position p ->
  track self (- p) (map fopp zs) = map Z.opp (track self p zs).
Proof.
  intros Hen H0. induction zs as [|z zs IH]; intros p Hp; cbn [map track];
    [reflexivity|].
  rewrite fopp_isnan. destruct (isnan z); cbn [map].
  - now rewrite IH.
  - rewrite (next_position_mirror self en p z Hen H0 Hp).
    rewrite IH by now apply next_position_range. reflexivity.
Qed.

(** X10: the state machine is symmetric.  With [entry_z >= 0], if the z-score
    column of one run is the negation of that of another run with the same
    thresholds, its position column is the negation of the other's: long and
    short are treated alike. *)
Theorem positions_mirror
  (ewm_mean' ewm_std' : float -> list float -> list float)
  (rolling_mean' rolling_std' : nat -> list float -> list float)
  (self self' : ZScoreSignalGenerator) (en : Q) (y x y' x' : list float)
  (hedge_ratio intercept hedge_ratio' intercept' : float)
  (df df' : signals_frame) :
  entry_z self' = entry_z self -> exit_z self' = exit_z self ->
  stop_z self' = stop_z self ->
  entry_z self = Fin en -> 0 <= en ->
  signals self y x hedge_ratio intercept = Ok df ->
  generate_signals ewm_mean' ewm_std' rolling_mean' rolling_std' self'
    y' x' hedge_ratio' intercept' = Ok df' ->
  sig_zscore df' = map fopp (sig_zscore df) ->
  sig_position df' = map Z.opp (sig_position df).
Proof.
  intros He Hx Hs Hen H0 Hdf Hdf' Hz.
  rewrite SignalFacts.generate_signals_eval in Hdf, Hdf'.
  injection Hdf as <-. injection Hdf' as <-. cbn [sig_zscore sig_position] in *.
  rewrite Hz.
  assert (Hnp : forall p z, next_position self' p z = next_position self p z)
    by (intros p z; unfold next_position; now rewrite He, Hx, Hs).
  assert (Htrack : forall zs p, track self' p zs = track self p zs).
  { induction zs as [|z zs IH]; intros p; cbn [track]; [reflexivity|].
    now rewrite Hnp, !IH. }
  match goal with |- recorded _ (map fopp ?l) = _ => generalize l end.
  intros [|z zs]; [reflexivity|]. cbn [map recorded]. f_equal.
  rewrite Htrack.
  exact (track_mirror self en zs Hen H0 0%Z (or_intror (or_introl eq_refl))).
Qed.

End Generate.

End SignalMore.

(** ** The pair screener: filters, order, short panels, rolling check *)

Lemma combinations2_In {A : Type} (l : list A) (a b : A) :
  In (a, b) (combinations2 l) ->
  exists l1 l2 l3, l = l1 ++ a :: l2 ++ b :: l3.
Proof.
  induction l as [|h t IH]; cbn [combinations2]; [intros []|].
  intros H. apply in_app_or in H. destruct H as [H|H].
  - apply in_map_iff in H. destruct H as (e & [= <- <-] & He).
    apply in_split in He. destruct He as (l2 & l3 & ->).
    now exists [], l2, l3.
  - destruct (IH H) as (l1 & l2 & l3 & ->). now exists (h :: l1), l2, l3.
Qed.

Lemma range_from_In (count lo step e : nat) :
  In e (range_from count lo step) ->
  exists i, (i < count)%nat /\ e = (lo + i * step)%nat.
Proof.
  revert lo. induction count as [|c IH]; intros lo; cbn [range_from]; [intros []|].
  intros [<- | H].
  - exists 0%nat. split; lia.
  - destruct (IH _ H) as (i & Hi & ->). exists (S i). split; lia.
Qed.

Lemma range_step_bounds (lo hi step e : nat) (ends : list nat) :
  range_step lo hi step = Ok ends -> In e ends ->
  (lo <= e < hi)%nat /\ exists i, e = (lo + i * step)%nat.
Proof.
  unfold range_step. destruct (Nat.eqb step 0) eqn:E; [discriminate|].
  apply Nat.eqb_neq in E. intros [= <-] H.
  apply range_from_In in H. destruct H as (i & Hi & ->).
  split; [|now exists i].
  assert (Hc : ((hi - lo + step - 1) / step * step <= hi - lo + step - 1)%nat).
  { rewrite Nat.mul_comm. apply Nat.Div0.mul_div_le. }
  assert (Hpos : (0 < (hi - lo + step - 1) / step)%nat) by lia.
  assert (Hi' : (S i * step <= (hi - lo + step - 1) / step * step)%nat)
    by (apply Nat.mul_le_mono_r; lia).
  split; [lia|]. simpl in Hi'. nia.
Qed.

Lemma range_step_empty (lo hi step : nat) :
  step <> 0%nat -> (hi <= lo)%nat -> range_step lo hi step = Ok [].
Proof.
  intros Hs Hh. unfold range_step.
  apply Nat.eqb_neq in Hs. rewrite Hs.
  replace (hi - lo + step - 1)%nat with (step - 1)%nat by lia.
  apply Nat.eqb_neq in Hs.
  rewrite Nat.div_small by lia. reflexivity.
Qed.

Module TesterMore.
Import Tester TesterRolling.
Section TesterMore.

Variable lstsq : list (list float) -> list float -> result (list float).
Variable adfuller : list float -> result (float * float * list float).
Variable coint : list float -> list float -> result (float * float).
Variable corr : DataFrame -> string -> string -> float.

Local Abbreviation screen := (screen_universe lstsq adfuller coint corr).
Local Abbreviation body := (screen_pair lstsq adfuller coint corr).

(** *** Every filter *)

Lemma screen_pair_passed (self : CointegrationTester) (prices : DataFrame)
  (acc acc' : list pair_record) (pair : string * string) :
  In pair (combinations2 (map fst prices)) ->
  Forall (passed lstsq adfuller coint corr self prices) acc ->
  body self prices acc pair = Ok acc' ->
  Forall (passed lstsq adfuller coint corr self prices) acc'.
Proof.
  intros Hin Hacc. unfold screen_pair. destruct pair as [t_y t_x].
  destruct (flt _ _) eqn:Ec; [intros [= <-]; assumption|].
  destruct (column prices t_y) as [col_y|] eqn:Ey; cbn [bind]; [|discriminate].
  destruct (column prices t_x) as [col_x|] eqn:Ex; cbn [bind]; [|discriminate].
  destruct (Nat.ltb _ _) eqn:En; [intros [= <-]; assumption|].
  destruct (engle_granger_test _ _ _ _ _) as [results|] eqn:Eeg;
    [|intros [= <-]; assumption].
  destruct (fgt _ _) eqn:Ep; [intros [= <-]; assumption|].
  destruct (estimate_half_life lstsq (eg_spread results)) as [hl|] eqn:Ehl;
    cbn [bind]; [|discriminate].
  destruct (negb _); intros [= <-]; [assumption|].
  apply Forall_app. split; [assumption|]. constructor; [|constructor].
  unfold passed.
  cbn [ticker_y ticker_x correlation coint_pvalue adf_pvalue hedge_ratio intercept].
  split; [assumption|]. split; [reflexivity|]. split; [assumption|].
  exists col_y, col_x, results. apply Nat.ltb_ge in En.
  repeat split; assumption.
Qed.

Lemma for_pairs_passed (self : CointegrationTester) (prices : DataFrame)
  (pairs : list (string * string)) :
  incl pairs (combinations2 (map fst prices)) ->
  forall acc acc',
  Forall (passed lstsq adfuller coint corr self prices) acc ->
  for_pairs pairs (body self prices) acc = Ok acc' ->
  Forall (passed lstsq adfuller coint corr self prices) acc'.
Proof.
  induction pairs as [|pr pairs IH]; intros Hincl acc acc' Hacc; cbn [for_pairs].
  - intros [= <-]. assumption.
  - destruct (body self prices acc pr) as [acc1|] eqn:E; cbn [bind]; [|discriminate].
    apply IH; [intros q Hq; apply Hincl; now right|].
    apply (screen_pair_passed self prices acc acc1 pr); trivial.
    apply Hincl. now left.
Qed.

(** X11: every pair [screen_universe] returns passed every filter: its
    correlation is the one of the correlation matrix and is not below
    [min_correlation] in absolute value, its two series overlap on at least
    [rolling_window] rows, the test on the overlap succeeded with a p-value
    not above [significance], the record carries the test's hedge ratio,
    intercept and p-values, and [ticker_y] stands before [ticker_x] among the
    columns. *)
Theorem screened_pairs_passed_every_filter (self : CointegrationTester)
  (prices : DataFrame) (out : list pair_record) (r : pair_record) :
  screen self prices = Ok out -> In r out ->
  passed lstsq adfuller coint corr self prices r /\
  exists l1 l2 l3, map fst prices = l1 ++ ticker_y r :: l2 ++ ticker_x r :: l3.
Proof.
  intros Hout Hin. unfold screen_universe in Hout.
  destruct (for_pairs _ _ _) as [valid|] eqn:E; cbn [bind] in Hout; [|discriminate].
  injection Hout as <-.
  assert (Hall : Forall (passed lstsq adfuller coint corr self prices)
                   (sort_by_half_life valid)).
  { apply TesterFacts.sort_by_half_life_Forall.
    apply (for_pairs_passed self prices _ (incl_refl _) [] valid (Forall_nil _) E). }
  rewrite Forall_forall in Hall. specialize (Hall r Hin). split; [assumption|].
  destruct Hall as (Hc & _). now apply combinations2_In.
Qed.

(** *** Order *)

Lemma insert_sorted (p : pair_record) (l : list pair_record) :
  isnan (half_life p) = false ->
  Forall (fun q => isnan (half_life q) = false) l ->
  StronglySorted by_half_life l ->
  StronglySorted by_half_life (insert_by_half_life p l).
Proof.
  intros Hp Hl Hs. induction Hs as [|q l Hs IH Hq]; cbn [insert_by_half_life].
  - constructor; constructor.
  - inversion Hl as [|? ? Hnq Hl']; subst.
    destruct (flt (half_life p) (half_life q)) eqn:E.
    + constructor; [constructor; assumption|].
      constructor; [now apply flt_fle|].
      apply Forall_forall. intros e He. rewrite Forall_forall in Hq.
      apply fle_trans with (half_life q); [now apply flt_fle|now apply Hq].
    + constructor; [now apply IH|].
      apply TesterFacts.insert_by_half_life_Forall; [|assumption].
      unfold by_half_life.
      destruct (half_life p), (half_life q); try discriminate; try reflexivity.
      apply flt_Fin_false in E. now apply fle_Fin.
Qed.

Lemma sort_sorted (l : list pair_record) :
  Forall (fun q => isnan (half_life q) = false) l ->
  StronglySorted by_half_life (sort_by_half_life l).
Proof.
  unfold sort_by_half_life.
  assert (H : forall acc,
            Forall (fun q => isnan (half_life q) = false) acc ->
            StronglySorted by_half_life acc ->
            Forall (fun q => isnan (half_life q) = false) l ->
            StronglySorted by_half_life
              (fold_left (fun a p => insert_by_half_life p a) l acc)).
  { induction l as [|p l IH]; intros acc Hacc Hs Hl; cbn [fold_left]; [assumption|].
    inversion Hl; subst. apply IH; [| |assumption].
    - now apply TesterFacts.insert_by_half_life_Forall.
    - now apply insert_sorted. }
  intros Hl. apply H; [constructor|constructor|assumption].
Qed.

(** X12: the list [screen_universe] returns is in ascending order of
    half-life: every pair's half-life is at most that of every pair after
    it. *)
Theorem screened_pairs_sorted (self : CointegrationTester) (prices : DataFrame)
  (out : list pair_record) :
  screen self prices = Ok out -> StronglySorted by_half_life out.
Proof.
  intros Hout. unfold screen_universe in Hout.
  destruct (for_pairs _ _ _) as [valid|] eqn:E; cbn [bind] in Hout; [|discriminate].
  injection Hout as <-. apply sort_sorted.
  pose proof (TesterFacts.for_pairs_kept lstsq adfuller coint corr self prices
                _ [] valid (Forall_nil _) E) as Hk.
  eapply Forall_impl; [|exact Hk].
  intros q (Hmin & _). apply (fle_not_nan _ _ Hmin).
Qed.

(** *** Short panels *)

Lemma column_In (prices : DataFrame) (t : string) :
  In t (map fst prices) ->
  exists col, column prices t = Ok col /\ In (t, col) prices.
Proof.
  induction prices as [|[name col] prices IH]; cbn [map fst In column]; [intros []|].
  intros H. destruct (String.eqb name t) eqn:E.
  - apply String.eqb_eq in E. subst. exists col. split; [reflexivity|now left].
  - destruct H as [H|H]; [subst; rewrite String.eqb_refl in E; discriminate|].
    destruct (IH H) as (c & Hc & Hin). exists c. split; [assumption|now right].
Qed.

Lemma length_common_rows (a b : list float) :
  (length (common_rows a b) <= length a)%nat.
Proof.
  unfold common_rows.
  etransitivity; [apply filter_length_le|]. rewrite length_combine. lia.
Qed.

Lemma combinations2_fst_In {A : Type} (l : list A) (a b : A) :
  In (a, b) (combinations2 l) -> In a l.
Proof.
  intros H. destruct (combinations2_In l a b H) as (l1 & l2 & l3 & ->).
  apply in_or_app. right. now left.
Qed.

Lemma short_panel_lemma (self : CointegrationTester) (prices : DataFrame) :
  ((forall name col, In (name, col) prices ->
      (length col < rolling_window self)%nat) ->
   screen self prices = Ok []) /\
  ((length prices < 2)%nat -> screen self prices = Ok []).
Proof.
  split.
  - intros Hshort. unfold screen_universe.
    assert (H : forall pairs, incl pairs (combinations2 (map fst prices)) ->
              for_pairs pairs (body self prices) [] = Ok []).
    { induction pairs as [|[t_y t_x] pairs IH]; intros Hincl; cbn [for_pairs];
        [reflexivity|].
      assert (Hb : body self prices [] (t_y, t_x) = Ok []).
      { unfold screen_pair. destruct (flt _ _); [reflexivity|].
        assert (Hin : In (t_y, t_x) (combinations2 (map fst prices)))
          by (apply Hincl; now left).
        destruct (combinations2_In _ _ _ Hin) as (l1 & l2 & l3 & Hl).
        destruct (column_In prices t_y) as (cy & -> & Hcy).
        { rewrite Hl. apply in_or_app. right. now left. }
        destruct (column_In prices t_x) as (cx & -> & Hcx).
        { rewrite Hl. apply in_or_app. right. right. apply in_or_app. right. now left. }
        cbn [bind].
        assert (Hlt : Nat.ltb (length (common_rows cy cx)) (rolling_window self) = true).
        { apply Nat.ltb_lt. pose proof (length_common_rows cy cx).
          pose proof (Hshort _ _ Hcy). lia. }
        now rewrite Hlt. }
      rewrite Hb. cbn [bind]. apply IH. intros q Hq. apply Hincl. now right. }
    rewrite (H _ (incl_refl _)). reflexivity.
  - intros Hn. destruct prices as [|c1 [|c2 prices]]; try reflexivity.
    simpl in Hn. lia.
Qed.

(** X13: a panel none of whose columns has [rolling_window] rows yields the
    empty list, without an exception and whatever the library routines would
    answer: no pair reaches the test.  So does a panel with fewer than two
    columns. *)
Theorem short_panel_screens_nothing (self : CointegrationTester) (prices : DataFrame) :
  ((forall name col, In (name, col) prices ->
      (length col < rolling_window self)%nat) ->
   screen self prices = Ok []) /\
  ((length prices < 2)%nat -> screen self prices = Ok []).
Proof. exact (short_panel_lemma self prices). Qed.

(** *** The rolling check *)

Lemma rolling_rows_dates (self : CointegrationTester) (y x : list float)
  (window : nat) (ends : list nat) (row : rolling_row) :
  In row (rolling_rows lstsq adfuller coint self y x window ends) ->
  exists end_, In end_ ends /\ rr_date row = window_date y end_.
Proof.
  unfold rolling_rows. intros H. apply in_flat_map in H.
  destruct H as (e & He & H). exists e. split; [assumption|].
  destruct (rolling_check_window _ _ _ _ _ _) as [[[[pv hr] hl] ic]|]; [|destruct H].
  destruct H as [<- | []]. reflexivity.
Qed.

(** X14: [rolling_cointegration_check] raises [KeyError] when no window
    yields a row, in particular whenever [y] has no more rows than the window;
    a step of 0 raises [ValueError].  When it returns, the frame is not empty
    and, for a window of at least one row, every row is dated at a row of [y]
    from [window - 1] on and before the last one: the window that ends with
    the last observation is never tested. *)
Theorem rolling_check_outcomes (self : CointegrationTester) (y x : list float)
  (window step : nat) :
  (step = 0%nat ->
   rolling_cointegration_check lstsq adfuller coint self y x window step
   = Raise ValueError) /\
  (step <> 0%nat -> (length y <= window)%nat ->
   rolling_cointegration_check lstsq adfuller coint self y x window step
   = Raise KeyError) /\
  (forall rows,
     rolling_cointegration_check lstsq adfuller coint self y x window step = Ok rows ->
     rows <> [] /\
     ((1 <= window)%nat ->
      forall row, In row rows ->
        (window - 1 <= rr_date row)%nat /\ (S (rr_date row) < length y)%nat)).
Proof.
  split; [|split].
  - intros ->. reflexivity.
  - intros Hs Hy. unfold rolling_cointegration_check.
    rewrite (range_step_empty window (length y) step Hs Hy). reflexivity.
  - intros rows. unfold rolling_cointegration_check.
    destruct (range_step window (length y) step) as [ends|] eqn:E; cbn [bind];
      [|discriminate].
    destruct (rolling_rows _ _ _ _ _ _ _ _) as [|r0 rs] eqn:Er; [discriminate|].
    intros [= <-]. split; [discriminate|].
    intros Hw row Hin. rewrite <- Er in Hin.
    destruct (rolling_rows_dates self y x window ends row Hin) as (e & He & ->).
    destruct (range_step_bounds _ _ _ e ends E He) as ([H1 H2] & _).
    unfold window_date. destruct (Nat.eqb e 0) eqn:E0.
    + apply Nat.eqb_eq in E0. lia.
    + apply Nat.eqb_neq in E0. lia.
Qed.

End TesterMore.
End TesterMore.

(** ** The orchestrator *)

Module EngineFacts.
Import Engine.
Section EngineFacts.

Variable lstsq : list (list float) -> list float -> result (list float).
Variable adfuller : list float -> result (float * float * list float).
Variable coint : list float -> list float -> result (float * float).
Variable corr : Tester.DataFrame -> string -> string -> float.
Variable ewm_mean ewm_std : float -> list float -> list float.
Variable rolling_mean rolling_std : nat -> list float -> list float.
Variable np_sqrt : float -> float.
Variable np_power : float -> float -> float.
Variable pd_std pd_skew pd_kurtosis : list float -> float.
Variable loc_from loc_to : string -> Tester.DataFrame -> Tester.DataFrame.

Local Abbreviation run_ :=
  (run lstsq adfuller coint corr ewm_mean ewm_std rolling_mean rolling_std
     np_sqrt np_power pd_std pd_skew pd_kurtosis loc_from loc_to).
Local Abbreviation screen := (Tester.screen_universe lstsq adfuller coint corr).

Lemma head_rows_short (n : nat) (prices : Tester.DataFrame) (name : string)
  (col : list float) :
  In (name, col) (head_rows n prices) -> (length col <= n)%nat.
Proof.
  unfold head_rows. intros H. apply in_map_iff in H.
  destruct H as ([nm c] & [= <- <-] & _). cbn [snd]. rewrite length_firstn. lia.
Qed.

(** X15: [run] screens with the overlap floor of 252 rows that
    [CointegrationTester] has by default, not with the configured
    [rolling_window]: when the configured window is below 252, no pair is ever
    selected and [run] returns the result of a period without pairs, for
    every panel and whatever the tests would answer. *)
Theorem run_window_below_default (config : Config) (prices : Tester.DataFrame)
  (start_date end_date : option string) :
  (cfg_rolling_window config < 252)%nat ->
  run_ config prices start_date end_date = Ok NoPairs.
Proof.
  intros Hw. unfold run.
  rewrite (proj1 (TesterMore.short_panel_lemma lstsq adfuller coint corr
                    (coint_tester config) _)).
  - reflexivity.
  - intros name col Hin. apply head_rows_short in Hin.
    cbn [coint_tester Tester.rolling_window]. lia.
Qed.

Lemma column_map (f : list float -> list float) (prices : Tester.DataFrame)
  (t : string) :
  Tester.column (map (fun nc => (fst nc, f (snd nc))) prices) t
  = (c <- Tester.column prices t ;; Ok (f c)).
Proof.
  induction prices as [|[name col] prices IH]; cbn [map Tester.column fst snd];
    [reflexivity|].
  destruct (String.eqb name t); [reflexivity|exact IH].
Qed.

Lemma column_Ok_In (prices : Tester.DataFrame) (t : string) (col : list float) :
  Tester.column prices t = Ok col -> exists name, In (name, col) prices.
Proof.
  induction prices as [|[name c] prices IH]; cbn [Tester.column]; [discriminate|].
  destruct (String.eqb name t).
  - intros [= <-]. exists name. now left.
  - intros H. destruct (IH H) as (nm & Hin). exists nm. now right.
Qed.

Lemma screened_columns (self : Tester.CointegrationTester) (prices : Tester.DataFrame)
  (out : list Tester.pair_record) (r : Tester.pair_record) :
  screen self prices = Ok out -> In r out ->
  exists cy cx,
    Tester.column prices (Tester.ticker_y r) = Ok cy /\
    Tester.column prices (Tester.ticker_x r) = Ok cx.
Proof.
  intros Hout Hin. unfold Tester.screen_universe in Hout.
  destruct (Tester.for_pairs _ _ _) as [valid|] eqn:E; cbn [bind] in Hout;
    [|discriminate].
  injection Hout as <-.
  assert (Hall : Forall (Tester.kept lstsq adfuller coint self prices)
                   (Tester.sort_by_half_life valid)).
  { apply TesterFacts.sort_by_half_life_Forall.
    exact (TesterFacts.for_pairs_kept lstsq adfuller coint corr self prices
             _ [] valid (Forall_nil _) E). }
  rewrite Forall_forall in Hall.
  destruct (Hall r Hin) as (_ & _ & cy & cx & _ & Hy & Hx & _).
  now exists cy, cx.
Qed.

(** X16: when the panel has no row after the training window, and screening
    selected a pair, [run] does not return an empty result: the Kalman filter
    is run on the empty trading series of the first pair and raises
    [IndexError]. *)
Theorem run_without_trading_rows (config : Config) (prices : Tester.DataFrame)
  (start_date end_date : option string)
  (r : Tester.pair_record) (rs : list Tester.pair_record) :
  screen (coint_tester config)
    (head_rows (cfg_rolling_window config)
       (restrict loc_from loc_to prices start_date end_date)) = Ok (r :: rs) ->
  (1 <= cfg_max_pairs config)%nat ->
  (forall name col,
      In (name, col) (restrict loc_from loc_to prices start_date end_date) ->
      (length col <= cfg_rolling_window config)%nat) ->
  run_ config prices start_date end_date = Raise IndexError.
Proof.
  intros Hscreen Hmax Hrows. unfold run. rewrite Hscreen. cbn [bind].
  destruct (cfg_max_pairs config) as [|m]; [lia|]. cbn [firstn run_pairs].
  destruct (screened_columns _ _ _ r Hscreen (or_introl eq_refl))
    as (cy & cx & Hy & Hx).
  unfold head_rows in Hy, Hx. rewrite column_map in Hy, Hx.
  destruct (Tester.column _ (Tester.ticker_y r)) as [cy0|] eqn:Ey;
    cbn [bind] in Hy; [|discriminate].
  destruct (Tester.column _ (Tester.ticker_x r)) as [cx0|] eqn:Ex;
    cbn [bind] in Hx; [|discriminate].
  unfold run_pair, tail_rows. rewrite !column_map, Ey, Ex. cbn [bind].
  destruct (column_Ok_In _ _ _ Ey) as (nm & Hin).
  rewrite (skipn_all2 cy0) by (apply (Hrows nm); assumption).
  reflexivity.
Qed.

End EngineFacts.
End EngineFacts.

(** ** Performance metrics: ranges *)

Module BacktestMore.
Import Backtest.
Section BacktestMore.

Variable np_sqrt : float -> float.
Variable np_power : float -> float -> float.
Variable pd_std pd_skew pd_kurtosis : list float -> float.

Local Abbreviation metrics :=
  (_compute_metrics np_sqrt np_power pd_std pd_skew pd_kurtosis).

Lemma filter_length_mono {A : Type} (f g : A -> bool) (l : list A) :
  (forall a, f a = true -> g a = true) ->
  (length (filter f l) <= length (filter g l))%nat.
Proof.
  intros H. induction l as [|a l IH]; cbn [filter]; [lia|].
  destruct (f a) eqn:Ef.
  - rewrite (H a Ef). simpl. lia.
  - destruct (g a); simpl; lia.
Qed.

Lemma positive_is_nonzero (v : float) :
  fgt v (Fin 0) = true -> negb (feqb v (Fin 0)) = true.
Proof.
  unfold fgt. destruct v as [q| | |]; try discriminate; try reflexivity.
  intros H. apply flt_Fin in H. cbn [feqb].
  destruct (Qeq_bool q 0) eqn:E; [|reflexivity].
  apply Qeq_bool_eq in E. exfalso. lra.
Qed.

Lemma ratio_of_counts (w t : nat) :
  (w <= t)%nat -> t <> 0%nat ->
  exists q : Q, (of_nat w / of_nat t)%float = Fin q /\ 0 <= q /\ q <= 1.
Proof.
  intros Hw Ht. unfold of_nat, of_Z. cbn [fdiv].
  assert (Hq : Qeq_bool (inject_Z (Z.of_nat t)) 0 = false).
  { destruct (Qeq_bool _ 0) eqn:E; [|reflexivity].
    apply Qeq_bool_eq in E. unfold Qeq in E. simpl in E. lia. }
  rewrite Hq. eexists. split; [reflexivity|]. rewrite Qred_correct.
  assert (H0 : 0 < inject_Z (Z.of_nat t)).
  { unfold Qlt. simpl. lia. }
  assert (H1 : 0 <= inject_Z (Z.of_nat w)).
  { unfold Qle. simpl. lia. }
  assert (H2 : inject_Z (Z.of_nat w) <= inject_Z (Z.of_nat t)).
  { unfold Qle. simpl. lia. }
  split.
  - apply Qle_shift_div_l; lra.
  - apply Qle_shift_div_r; lra.
Qed.

(** X17: the win rate [_compute_metrics] reports is a finite number between 0
    and 1 (the days with a positive return are among the days with a non-zero
    return, and it is 0 when no return is non-zero), and the number of trading
    days is the number of returns that are not missing. *)
Theorem win_rate_in_unit_interval (returns : list float) (m : dict) :
  metrics returns = Ok m -> dropna returns <> [] ->
  (exists q : Q, dict_get m "win_rate" = Some (Fin q) /\ 0 <= q /\ q <= 1) /\
  dict_get m "num_trading_days" = Some (of_nat (length (dropna returns))).
Proof.
  intros Hm Hr. unfold _compute_metrics in Hm.
  assert (Hn : length (dropna returns) <> 0%nat)
    by (destruct (dropna returns); [contradiction|discriminate]).
  destruct (Nat.eqb (length (dropna returns)) 0) eqn:En;
    [apply Nat.eqb_eq in En; contradiction|].
  unfold py_truediv in Hm. rewrite (BacktestFacts.of_nat_nonzero _ Hn) in Hm.
  cbn [bind] in Hm. injection Hm as <-.
  cbn [dict_get String.eqb Ascii.eqb Bool.eqb]. split; [|reflexivity].
  set (wins := length (filter (fun v0 => fgt v0 (Fin 0)) (dropna returns))).
  set (trades := length (filter (fun v0 => negb (feqb v0 (Fin 0))) (dropna returns))).
  assert (Hw : (wins <= trades)%nat)
    by (apply filter_length_mono; exact positive_is_nonzero).
  change (exists q : Q,
            Some (if negb (Nat.eqb trades 0)
                  then (of_nat wins / of_nat trades)%float else Fin 0)
            = Some (Fin q) /\ 0 <= q /\ q <= 1).
  destruct (Nat.eqb trades 0) eqn:Et; cbn [negb].
  - exists 0. split; [reflexivity|]. split; lra.
  - apply Nat.eqb_neq in Et.
    destruct (ratio_of_counts wins trades Hw Et) as (q & Hq & H0 & H1).
    exists q. split; [now rewrite Hq|split; assumption].
Qed.

Lemma fold_min_le (l : list float) :
  forall m, isnan m = false -> Forall (fun e => isnan e = false) l ->
  fle (fold_left (fun m e => if flt e m then e else m) l m) m = true.
Proof.
  induction l as [|e l IH]; intros m Hm Hl; cbn [fold_left].
  - destruct m; try discriminate; try reflexivity. apply fle_Fin. lra.
  - inversion Hl as [|? ? He Hl']; subst.
    destruct (flt e m) eqn:E.
    + apply fle_trans with e; [now apply IH|now apply flt_fle].
    + now apply IH.
Qed.

Lemma series_min_le_head (v : float) (rest : list float) :
  isnan v = false -> fle (series_min (v :: rest)) v = true.
Proof.
  intros Hv. unfold series_min, dropna. cbn [filter]. rewrite Hv. cbn [negb].
  apply fold_min_le; [assumption|].
  apply Forall_forall. intros e He. apply filter_In in He.
  destruct He as [_ He]. now destruct (isnan e).
Qed.

Lemma cumprod_head (c : Q) (l : list float) :
  exists t, cumprod (Fin c :: l) = Fin c :: t.
Proof. unfold cumprod. cbn [map isnan np_cumprod combine fst snd]. now eexists. Qed.

Lemma cummax_head (c : Q) (l : list float) :
  exists t, cummax (Fin c :: l) = Fin c :: t.
Proof. unfold cummax. cbn [cummax_from isnan]. now eexists. Qed.

Lemma drawdown_head (c : Q) (l : list float) :
  ~ c == 0 ->
  exists z t,
    series_op fdiv (series_op fsub (cumprod (Fin c :: l))
                      (cummax (cumprod (Fin c :: l))))
      (cummax (cumprod (Fin c :: l)))
    = Fin z :: t /\ z == 0.
Proof.
  intros Hc. destruct (cumprod_head c l) as (t & ->).
  destruct (cummax_head c t) as (t' & ->). cbn [series_op fsub].
  assert (Hq : Qeq_bool c 0 = false).
  { destruct (Qeq_bool c 0) eqn:E; [|reflexivity].
    apply Qeq_bool_eq in E. contradiction. }
  unfold fdiv at 1. rewrite Hq. eexists. eexists. split; [reflexivity|].
  rewrite !Qred_correct. unfold Qdiv. setoid_replace (c - c) with 0 by ring. ring.
Qed.

(** X18: when the first return present is finite and not -100%, the maximum
    drawdown [_compute_metrics] reports is a number that is at most 0:
    drawdowns are reported as non-positive fractions. *)
Theorem max_drawdown_not_positive (returns : list float) (m : dict)
  (q : Q) (rest : list float) :
  metrics returns = Ok m -> dropna returns = Fin q :: rest -> ~ q == -1 ->
  exists dd, dict_get m "max_drawdown" = Some dd /\ fle dd (Fin 0) = true.
Proof.
  intros Hm Hr Hq. unfold _compute_metrics in Hm. rewrite Hr in Hm.
  change (Nat.eqb (length (Fin q :: rest)) 0) with false in Hm.
  unfold py_truediv in Hm.
  rewrite BacktestFacts.of_nat_nonzero in Hm by discriminate.
  cbn [bind] in Hm. injection Hm as <-.
  set (cum := cumprod (Fin (Qred (1 + q)) :: map (fun v => (Fin 1 + v)%float) rest)).
  exists (series_min (series_op fdiv (series_op fsub cum (cummax cum)) (cummax cum))).
  split; [reflexivity|]. unfold cum.
  destruct (drawdown_head (Qred (1 + q)) (map (fun v => (Fin 1 + v)%float) rest))
    as (z & t & -> & Hz).
  { rewrite Qred_correct. intros H. apply Hq. lra. }
  apply fle_trans with (Fin z); [apply series_min_le_head; reflexivity|].
  apply fle_Fin. lra.
Qed.

End BacktestMore.
End BacktestMore.

(** ** Profit and loss of generated signals *)

Module PnlMore.
Import Signals.

Lemma reindex_length (n : nat) (col : list float) : length (reindex n col) = n.
Proof.
  unfold reindex. rewrite length_app, length_firstn, repeat_length. lia.
Qed.

Lemma pnl_head (p : Z) (ps : list Z) (y x : list float) (hedge_ratio tc_bps : float) :
  let pnl := compute_signal_pnl (p :: ps) y x hedge_ratio tc_bps in
  exists s n c,
    strategy_return pnl = NaN :: s /\ net_return pnl = NaN :: n /\
    cumulative_return pnl = NaN :: c /\
    length s = length ps /\ length n = length ps /\ length c = length ps.
Proof.
  intros pnl. unfold pnl, compute_signal_pnl.
  cbn [strategy_return net_return cumulative_return].
  set (spread_ret := series_op fsub (pct_change y)
                       (map (fun v => (hedge_ratio * v)%float) (pct_change x))).
  set (costs := reindex (length (p :: ps)) (map _ _)).
  assert (Hs : exists s, reindex (length (p :: ps))
                 (series_op fmul (shift1 (map of_Z (p :: ps))) spread_ret) = NaN :: s
                 /\ length s = length ps).
  { pose proof (reindex_length (length (p :: ps))
                  (series_op fmul (shift1 (map of_Z (p :: ps))) spread_ret)) as Hl.
    assert (H : exists s, reindex (length (p :: ps))
                 (series_op fmul (shift1 (map of_Z (p :: ps))) spread_ret) = NaN :: s).
    { cbn [map shift1 length]. destruct spread_ret as [|r rs]; cbn [series_op fmul];
        unfold reindex; cbn [firstn app]; eexists; reflexivity. }
    destruct H as (s & H). exists s. split; [exact H|].
    rewrite H in Hl. simpl in Hl. lia. }
  destruct Hs as (s & -> & Hls).
  assert (Hc : exists c0 cs, costs = c0 :: cs /\ length cs = length ps).
  { pose proof (reindex_length (length (p :: ps))
       (map (fun d => (fabs d * tc_bps / Fin 10000)%float) (diff (map of_Z (p :: ps))))) as Hl.
    fold costs in Hl. destruct costs as [|c0 cs]; [discriminate|].
    exists c0, cs. split; [reflexivity|]. simpl in Hl. lia. }
  destruct Hc as (c0 & cs & -> & Hlc).
  cbn [series_op fsub map]. unfold cumprod. cbn [map isnan np_cumprod combine fst fadd].
  eexists _, _, _. repeat split; try reflexivity.
  - exact Hls.
  - rewrite length_series_op; lia.
  - rewrite length_map, length_combine, length_np_cumprod_from, !length_map,
      length_series_op by lia. lia.
Qed.


(** X19: the first row of a profit-and-loss frame is missing.  For any
    non-empty position column the strategy return, the net return and the
    cumulative return of row 0 are NaN, whatever the prices are: the frame
    carries one return fewer than it has rows. *)
Theorem pnl_first_row_missing (p : Z) (ps : list Z) (y x : list float)
  (hedge_ratio tc_bps : float) :
  let pnl := compute_signal_pnl (p :: ps) y x hedge_ratio tc_bps in
  exists s n c,
    strategy_return pnl = NaN :: s /\ net_return pnl = NaN :: n /\
    cumulative_return pnl = NaN :: c /\
    length s = length ps /\ length n = length ps /\ length c = length ps.
Proof. exact (pnl_head p ps y x hedge_ratio tc_bps). Qed.

Lemma unit_cost (a b : Z) (c : Q) :
  (Z.abs (a - b) <= 1)%Z ->
  exists k : Q,
    (fabs (of_Z a - of_Z b) * Fin c / Fin 10000)%float = Fin k /\
    (k == 0 \/ k == c / 10000).
Proof.
  intros H. unfold of_Z. cbn [fsub fabs fmul fdiv].
  change (Qeq_bool 10000 0) with false. cbv iota.
  eexists. split; [reflexivity|]. rewrite !Qred_correct.
  assert (Hd : (a - b = -1 \/ a - b = 0 \/ a - b = 1)%Z) by lia.
  assert (Hq : inject_Z a - inject_Z b == inject_Z (a - b)).
  { unfold Zminus. rewrite inject_Z_plus, inject_Z_opp. reflexivity. }
  rewrite Hq.
  destruct Hd as [-> | [-> | ->]].
  - right. change (Qabs (inject_Z (-1))) with 1. field.
  - left. change (Qabs (inject_Z 0)) with 0. field.
  - right. change (Qabs (inject_Z 1)) with 1. field.
Qed.

Section Generate.

Variable ewm_mean ewm_std : float -> list float -> list float.
Variable rolling_mean rolling_std : nat -> list float -> list float.

(** X20: signals and their profit and loss composed.  On aligned prices, the
    positions [generate_signals] returns are charged, at every row after the
    first, either nothing or one unit of cost, [tc_bps / 10000]: the charge for
    two units, a reversal, never occurs. *)
Theorem generated_costs_one_unit (self : ZScoreSignalGenerator) (y x : list float)
  (hedge_ratio intercept : float) (df : signals_frame) (c : Q) (t : nat) :
  generate_signals ewm_mean ewm_std rolling_mean rolling_std self y x
    hedge_ratio intercept = Ok df ->
  length x = length y -> (S t < length y)%nat ->
  exists k : Q,
    nth (S t)
      (transaction_costs (compute_signal_pnl (sig_position df) y x hedge_ratio (Fin c)))
      NaN = Fin k /\
    (k == 0 \/ k == c / 10000).
Proof.
  intros Hdf Hxy Ht. rewrite SignalFacts.generate_signals_eval in Hdf.
  injection Hdf as <-. cbn [sig_position].
  set (zs := firstn _ _).
  assert (Hz : length zs = length y).
  { unfold zs. rewrite length_firstn, SignalMore.length_compute_spread.
    pose proof (SignalFacts.length_zscores ewm_mean ewm_std rolling_mean rolling_std
                  self (compute_spread y x hedge_ratio intercept)) as H.
    rewrite SignalMore.length_compute_spread in H. lia. }
  assert (Hp : length (recorded self zs) = length y)
    by now rewrite SignalMore.length_recorded.
  destruct (SignalFacts.pnl_columns (recorded self zs) y x hedge_ratio (Fin c))
    as (_ & -> & _); [lia|lia|].
  rewrite (nth_map_lt _ _ _ NaN) by (rewrite length_diff, length_map; lia).
  rewrite nth_diff by (rewrite length_map; lia).
  rewrite !(nth_map_lt of_Z _ _ 0%Z) by lia.
  apply unit_cost.
  unfold recorded in *. destruct zs as [|z zs']; [simpl in Hp; lia|].
  apply (SignalMore.small_steps_nth _ 0%Z); [|lia].
  cbn [small_steps]. split; [lia|].
  apply SignalMore.track_small_steps; [right; left; reflexivity|now left].
Qed.

End Generate.

End PnlMore.

(** ** The orchestrator: the first trading day *)

Module EngineMore.
Import Engine.
Section EngineMore.

Variable lstsq : list (list float) -> list float -> result (list float).
Variable adfuller : list float -> result (float * float * list float).
Variable coint : list float -> list float -> result (float * float).
Variable corr : Tester.DataFrame -> string -> string -> float.
Variable ewm_mean ewm_std : float -> list float -> list float.
Variable rolling_mean rolling_std : nat -> list float -> list float.
Variable np_sqrt : float -> float.
Variable np_power : float -> float -> float.
Variable pd_std pd_skew pd_kurtosis : list float -> float.
Variable loc_from loc_to : string -> Tester.DataFrame -> Tester.DataFrame.

Local Abbreviation run_ :=
  (run lstsq adfuller coint corr ewm_mean ewm_std rolling_mean rolling_std
     np_sqrt np_power pd_std pd_skew pd_kurtosis loc_from loc_to).
Local Abbreviation pairs_loop :=
  (run_pairs ewm_mean ewm_std rolling_mean rolling_std np_sqrt).
Local Abbreviation pair_body :=
  (run_pair ewm_mean ewm_std rolling_mean rolling_std np_sqrt).

Lemma set_key_values {V : Type} (Q : V -> Prop) (d : list (string * V))
  (key : string) (value : V) :
  Forall Q (map snd d) -> Q value -> Forall Q (map snd (set_key d key value)).
Proof.
  intros Hd Hv. induction d as [|[k v] d IH]; cbn [set_key map snd].
  - constructor; [exact Hv|constructor].
  - inversion Hd as [|? ? Hq Hrest]; subst.
    destruct (String.eqb k key); cbn [map snd]; constructor; auto.
Qed.

Lemma set_key_not_empty {V : Type} (d : list (string * V)) (key : string) (value : V) :
  set_key d key value <> [].
Proof.
  destruct d as [|[k v] d]; cbn [set_key]; [discriminate|].
  destruct (String.eqb k key); discriminate.
Qed.

Lemma run_pair_first_row (config : Config) (trading : Tester.DataFrame)
  (acc out : list (string * list float)) (p : Tester.pair_record) :
  Forall (fun c => exists rest, c = NaN :: rest) (map snd acc) ->
  pair_body config trading acc p = Ok out ->
  Forall (fun c => exists rest, c = NaN :: rest) (map snd out) /\ out <> [].
Proof.
  intros Hacc H. unfold run_pair in H.
  destruct (Tester.column trading (Tester.ticker_y p)) as [y|]; cbn [bind] in H;
    [|discriminate].
  destruct (Tester.column trading (Tester.ticker_x p)) as [x|]; cbn [bind] in H;
    [|discriminate].
  destruct y as [|y0 ys]; [discriminate|].
  destruct (Kalman.filter np_sqrt kalman (y0 :: ys) x); cbn [bind] in H; [|discriminate].
  rewrite SignalFacts.generate_signals_eval in H. cbn [bind] in H.
  injection H as <-. split; [|apply set_key_not_empty].
  apply set_key_values; [exact Hacc|].
  cbn [Signals.sig_position].
  set (zs := firstn _ _).
  pose proof (SignalMore.length_recorded (signal_gen config) zs) as Hlen.
  assert (Hz : length zs = Nat.max (length (y0 :: ys)) (length x)).
  { unfold zs. rewrite length_firstn, SignalMore.length_compute_spread.
    pose proof (SignalFacts.length_zscores ewm_mean ewm_std rolling_mean rolling_std
                  (signal_gen config)
                  (Signals.compute_spread (y0 :: ys) x (Tester.hedge_ratio p)
                     (Tester.intercept p))) as Hl.
    rewrite SignalMore.length_compute_spread in Hl. lia. }
  destruct (Signals.recorded (signal_gen config) zs) as [|q qs];
    [cbn [length] in *; lia|].
  pose proof (PnlMore.pnl_head q qs (y0 :: ys) x (Tester.hedge_ratio p) (Fin 5)) as Hh.
  cbv zeta in Hh. destruct Hh as (_ & n & _ & _ & Hn & _).
  exists n. exact Hn.
Qed.

Lemma run_pairs_first_row (config : Config) (trading : Tester.DataFrame)
  (pairs : list Tester.pair_record) :
  forall acc out,
    Forall (fun c => exists rest, c = NaN :: rest) (map snd acc) ->
    pairs_loop config trading pairs acc = Ok out ->
    Forall (fun c => exists rest, c = NaN :: rest) (map snd out) /\
    (pairs <> [] -> out <> []).
Proof.
  induction pairs as [|p pairs IH]; intros acc out Hacc H; cbn [run_pairs] in H.
  - injection H as <-. split; [exact Hacc|congruence].
  - destruct (pair_body config trading acc p) as [acc'|] eqn:E; cbn [bind] in H;
      [|discriminate].
    destruct (run_pair_first_row _ _ _ _ _ Hacc E) as (Hacc' & Hne).
    destruct pairs as [|p' pairs'].
    + cbn [run_pairs] in H. injection H as <-. split; [exact Hacc'|intros _; exact Hne].
    + destruct (IH _ _ Hacc' H) as (Hout & Hn). split; [exact Hout|].
      intros _. apply Hn. discriminate.
Qed.

Lemma dropna_all_missing (l : list float) :
  Forall (fun v => v = NaN) l -> dropna l = [].
Proof.
  induction 1 as [|v l -> _ IH]; [reflexivity|]. cbn [dropna filter isnan negb].
  exact IH.
Qed.

Lemma row_means_first_row (cols : list (list float)) :
  cols <> [] -> Forall (fun c => exists rest, c = NaN :: rest) cols ->
  exists rest, row_means cols = NaN :: rest.
Proof.
  intros Hne Hall. unfold row_means.
  assert (Hh : exists h, frame_height cols = S h).
  { destruct cols as [|c cols]; [congruence|].
    inversion Hall as [|? ? (r & ->) _]; subst.
    unfold frame_height. cbn [map fold_right length].
    destruct (fold_right Nat.max 0%nat (map (@length float) cols)); eexists; reflexivity. }
  destruct Hh as (h & ->). cbn [seq map].
  exists (map (fun t => mean (map (fun c => nth t c NaN) cols)) (seq 1 h)).
  f_equal. unfold mean. rewrite dropna_all_missing; [reflexivity|].
  apply Forall_map. eapply Forall_impl; [|exact Hall].
  intros c (r & ->). reflexivity.
Qed.

(** X21: the first trading day never has a portfolio return.  When [run]
    returns a full result, either no pair was kept ([max_pairs] is 0: the
    portfolio series, the pair frame and the metrics are all empty) or the
    first row of [portfolio_returns] is NaN, so the metrics are computed on at
    most one day fewer than the trading period has. *)
Theorem run_first_day_missing (config : Config) (prices : Tester.DataFrame)
  (start_date end_date : option string)
  (port : list float) (pair_results : list (string * list float)) (m : dict)
  (selected : list Tester.pair_record) :
  run_ config prices start_date end_date = Ok (Ran port pair_results m selected) ->
  (cfg_max_pairs config = 0%nat /\ selected = [] /\ port = [] /\
   pair_results = [] /\ m = []) \/
  (selected <> [] /\ exists rest, port = NaN :: rest /\
     (length (dropna port) <= length rest)%nat).
Proof.
  intros H. unfold run in H.
  destruct (Tester.screen_universe _ _ _ _ _ _) as [[|r rs]|]; cbn [bind] in H;
    try discriminate.
  destruct (cfg_max_pairs config) as [|k].
  - left. cbn [firstn run_pairs bind map] in H.
    change (row_means []) with (@nil float) in H.
    change (Backtest._compute_metrics np_sqrt np_power pd_std pd_skew pd_kurtosis [])
      with (@Ok dict []) in H.
    cbn [bind] in H. injection H as <- <- <- <-. auto.
  - right. cbn [firstn] in H.
    destruct (pairs_loop config _ (r :: firstn k rs) []) as [pnls|] eqn:E;
      cbn [bind] in H; [|discriminate].
    assert (H0 : Forall (fun c : list float => exists rest, c = NaN :: rest)
                   (map snd (@nil (string * list float)))) by constructor.
    destruct (run_pairs_first_row _ _ _ _ _ H0 E) as (Hall & Hne).
    destruct (row_means_first_row (map snd pnls)) as (rest & Hrest).
    { intros Hm. apply Hne; [discriminate|]. now destruct pnls. }
    { exact Hall. }
    destruct (Backtest._compute_metrics _ _ _ _ _ _); cbn [bind] in H; [|discriminate].
    injection H as <- <- <- <-. split; [discriminate|].
    exists rest. split; [exact Hrest|]. rewrite Hrest.
    cbn [dropna filter isnan negb]. apply filter_length_le.
Qed.

End EngineMore.
End EngineMore.

(** ** The test and the signal generator on one spread *)

Module SpreadFacts.
Import Tester.
Section SpreadFacts.

Variable lstsq : list (list float) -> list float -> result (list float).
Variable adfuller : list float -> result (float * float * list float).
Variable coint : list float -> list float -> result (float * float).

Lemma zip_with_series_op (f : float -> float -> float) (a b : list float) :
  length a = length b -> zip_with f a b = Ok (series_op f a b).
Proof.
  revert b. induction a as [|p a IH]; intros [|q b] H; simpl in *; try discriminate.
  - reflexivity.
  - rewrite IH by lia. reflexivity.
Qed.

(** X27: the spread [engle_granger_test] tests for stationarity is the spread
    the signal generator trades.  On series of one length, the [spread] entry
    of the test's result is what [compute_spread] gives for the same series
    with the hedge ratio and intercept of that result, row by row
    [y - hedge_ratio * x - intercept], and it has the length of the series. *)
Theorem tested_spread_is_traded_spread (y x : list float) (results : eg_result) :
  length x = length y ->
  engle_granger_test lstsq adfuller coint y x = Ok results ->
  eg_spread results
  = Signals.compute_spread y x (eg_hedge_ratio results) (eg_intercept results) /\
  length (eg_spread results) = length y /\
  (forall t, (t < length y)%nat ->
     nth t (eg_spread results) NaN
     = (nth t y NaN - eg_hedge_ratio results * nth t x NaN
        - eg_intercept results)%float).
Proof.
  intros Hlen H. unfold engle_granger_test in H.
  destruct (lstsq _ _) as [beta|]; cbn [bind] in H; [|discriminate].
  destruct (getitem beta 1) as [beta1|]; cbn [bind] in H; [|discriminate].
  rewrite zip_with_series_op in H by (rewrite length_map; lia). cbn [bind] in H.
  destruct (getitem beta 0) as [beta0|]; cbn [bind] in H; [|discriminate].
  destruct (adfuller _) as [[[adf_stat p_value] cv]|]; cbn [bind] in H; [|discriminate].
  destruct (coint y x) as [[cs cp]|]; cbn [bind] in H; [|discriminate].
  injection H as <-. cbn [eg_spread eg_hedge_ratio eg_intercept].
  split; [reflexivity|].
  assert (Hl : length (series_op fsub y (map (fun v => (beta1 * v)%float) x)) = length y)
    by (rewrite length_series_op; rewrite ?length_map; lia).
  split; [now rewrite length_map|].
  intros t Ht.
  rewrite (nth_map_lt _ _ _ NaN) by lia.
  rewrite (nth_series_op fsub y (map (fun v => (beta1 * v)%float) x) t)
    by (rewrite ?length_map; lia).
  rewrite (nth_map_lt _ x _ NaN) by lia. reflexivity.
Qed.

End SpreadFacts.
End SpreadFacts.

(** ** Position sizing and the drawdown monitor *)

Module RiskFacts.
Import Risk.

Lemma py_max_zero (v : float) : fle (Fin 0) (py_max (Fin 0) v) = true.
Proof.
  unfold py_max. destruct (flt (Fin 0) v) eqn:E; [now apply flt_fle|reflexivity].
Qed.

Lemma feqb_fabs (a : float) : feqb (fabs a) zero = feqb a zero.
Proof.
  destruct a as [q| | |]; try reflexivity. unfold fabs, feqb, zero.
  destruct (Qeq_bool q 0) eqn:E.
  - apply Qeq_bool_iff in E. apply Qeq_bool_iff. rewrite Qred_correct, E. reflexivity.
  - destruct (Qeq_bool (Qred (Qabs q)) 0) eqn:E'; [|reflexivity].
    apply Qeq_bool_iff in E'. rewrite Qred_correct in E'.
    assert (Hq : q == 0).
    { revert E'. apply Qabs_case; intros; lra. }
    apply Qeq_bool_iff in Hq. congruence.
Qed.

Lemma kelly_size_numpy (self : PositionSizer) (win_rate avg_win avg_loss : float) :
  exists r, compute_kelly_size np_truediv self win_rate avg_win avg_loss = Ok r /\
            fle (Fin 0) r = true.
Proof.
  unfold compute_kelly_size, np_truediv.
  destruct (feqb avg_loss (Fin 0)); cbn [bind]; eexists; split;
    try reflexivity; apply py_max_zero.
Qed.

(** X22: the Kelly size is never negative and never NaN.  With numpy numbers
    [compute_kelly_size] always returns; with Python floats it returns or
    raises [ZeroDivisionError], and it raises exactly when the average loss is
    not zero and the win/loss ratio [avg_win / abs(avg_loss)] is zero (an
    average win of 0).  Every value returned is at least 0, and it is 0 when the
    average loss is 0. *)
Theorem kelly_size_outcomes (self : PositionSizer) (win_rate avg_win avg_loss : float) :
  (exists r, compute_kelly_size np_truediv self win_rate avg_win avg_loss = Ok r /\
             fle (Fin 0) r = true) /\
  (forall r, compute_kelly_size py_truediv self win_rate avg_win avg_loss = Ok r ->
             fle (Fin 0) r = true) /\
  (forall e, compute_kelly_size py_truediv self win_rate avg_win avg_loss = Raise e ->
             e = ZeroDivisionError) /\
  (compute_kelly_size py_truediv self win_rate avg_win avg_loss = Raise ZeroDivisionError
   <-> feqb avg_loss (Fin 0) = false /\
       feqb (avg_win / fabs avg_loss)%float (Fin 0) = true) /\
  (feqb avg_loss (Fin 0) = true ->
   forall truediv,
     compute_kelly_size truediv self win_rate avg_win avg_loss = Ok (Fin 0)).
Proof.
  unfold compute_kelly_size, np_truediv, py_truediv.
  pose proof (feqb_fabs avg_loss) as Hab. unfold zero in *.
  destruct (feqb avg_loss (Fin 0)) eqn:E0; cbn [bind].
  - split; [|split; [|split; [|split]]].
    + exists (Fin 0). split; reflexivity.
    + now intros r [= <-].
    + discriminate.
    + split; [discriminate|]. intros (H & _). discriminate.
    + reflexivity.
  - rewrite Hab. cbn [bind].
    destruct (feqb (avg_win / fabs avg_loss)%float (Fin 0)) eqn:Eb; cbn [bind].
    + split; [|split; [|split; [|split]]].
      * eexists. split; [reflexivity|apply py_max_zero].
      * discriminate.
      * now intros e [= <-].
      * split; [auto|reflexivity].
      * discriminate.
    + split; [|split; [|split; [|split]]].
      * eexists. split; [reflexivity|apply py_max_zero].
      * intros r [= <-]. apply py_max_zero.
      * discriminate.
      * split; [discriminate|]. intros (_ & H). discriminate.
      * discriminate.
Qed.

Lemma py_min_bounds (k m : float) :
  fle (Fin 0) k = true -> fle (Fin 0) m = true ->
  fle (Fin 0) (py_min k m) = true /\ fle (py_min k m) m = true.
Proof.
  intros Hk Hm. unfold py_min. destruct (flt m k) eqn:E.
  - split; [exact Hm|]. float_cases.
  - split; [exact Hk|]. float_cases.
Qed.

(** X23: [size_from_backtest] never raises, and for a non-negative cap
    [max_size] the size it returns lies between 0 and the cap; it is 0 when the
    returns have no gain or no loss. *)
Theorem size_from_backtest_bounds (self : PositionSizer) (returns : list float)
  (max_size : float) :
  fle (Fin 0) max_size = true ->
  exists r,
    size_from_backtest self returns max_size = Ok r /\
    fle (Fin 0) r = true /\ fle r max_size = true /\
    (filter (fun v => fgt v (Fin 0)) returns = [] \/
     filter (fun v => flt v (Fin 0)) returns = [] -> r = Fin 0).
Proof.
  intros Hm. unfold size_from_backtest.
  set (wins := filter (fun v => fgt v (Fin 0)) returns).
  set (losses := filter (fun v => flt v (Fin 0)) returns).
  set (nonzero := filter (fun v => negb (feqb v (Fin 0))) returns).
  destruct (Nat.eqb (length wins) 0 || Nat.eqb (length losses) 0) eqn:E.
  - exists (Fin 0). repeat split; try reflexivity. exact Hm.
  - apply orb_false_iff in E. destruct E as (Ew & El).
    apply Nat.eqb_neq in Ew. apply Nat.eqb_neq in El.
    assert (Hn : (length wins <= length nonzero)%nat).
    { apply BacktestMore.filter_length_mono. exact BacktestMore.positive_is_nonzero. }
    unfold py_truediv at 1. rewrite BacktestFacts.of_nat_nonzero by lia. cbn [bind].
    destruct (kelly_size_numpy self
                (of_nat (length wins) / of_nat (length nonzero))%float
                (mean wins) (mean losses)) as (k & -> & Hk).
    cbn [bind]. exists (py_min k max_size).
    destruct (py_min_bounds k max_size Hk Hm) as (H1 & H2).
    repeat split; try assumption.
    intros [H | H].
    + fold wins in H. rewrite H in Ew. now contradiction Ew.
    + fold losses in H. rewrite H in El. now contradiction El.
Qed.


Lemma py_max_ge (a b : float) : isnan a = false -> fle a (py_max a b) = true.
Proof.
  intros Ha. unfold py_max. destruct (flt a b) eqn:E; [now apply flt_fle|].
  destruct a; try discriminate; try reflexivity. apply fle_Fin. lra.
Qed.

Lemma py_max_ge_r (a b : float) :
  isnan a = false -> isnan b = false -> fle b (py_max a b) = true.
Proof.
  intros Ha Hb. unfold py_max. destruct (flt a b) eqn:E.
  - destruct b; try discriminate; try reflexivity. apply fle_Fin. lra.
  - float_cases.
Qed.

Lemma positive_not_zero (a : float) : flt (Fin 0) a = true -> feqb a zero = false.
Proof.
  destruct a as [q| | |]; try discriminate; try reflexivity.
  intros H. apply flt_Fin in H. unfold feqb, zero.
  destruct (Qeq_bool q 0) eqn:E; [|reflexivity].
  apply Qeq_bool_eq in E. exfalso. lra.
Qed.

(** One call of [update] on a monitor whose peak is positive. *)
Lemma update_step (self : DrawdownMonitor) (value : float) :
  flt (Fin 0) (peak self) = true ->
  exists m out,
    update py_truediv self value = Ok (m, out) /\
    flt (Fin 0) (peak m) = true /\
    fle (peak self) (peak m) = true /\
    max_drawdown m = max_drawdown self /\
    current_value m = value /\
    (is_stopped self = true -> is_stopped m = true).
Proof.
  intros Hp. unfold update.
  assert (Hn : isnan (peak self) = false) by (apply (flt_not_nan _ _ Hp)).
  assert (Hle : fle (peak self) (py_max (peak self) value) = true)
    by now apply py_max_ge.
  assert (Hpos : flt (Fin 0) (py_max (peak self) value) = true)
    by (eapply flt_fle_trans; eassumption).
  unfold py_truediv. rewrite (positive_not_zero _ Hpos). cbn [bind].
  eexists _, _. split; [reflexivity|]. cbn [peak max_drawdown current_value is_stopped].
  repeat split; try assumption.
  intros ->. now destruct (fge _ _).
Qed.

Lemma updates_steps (values : list float) :
  forall self : DrawdownMonitor,
  flt (Fin 0) (peak self) = true ->
  exists m,
    updates py_truediv self values = Ok m /\
    flt (Fin 0) (peak m) = true /\
    fle (peak self) (peak m) = true /\
    max_drawdown m = max_drawdown self /\
    (is_stopped self = true -> is_stopped m = true).
Proof.
  induction values as [|v values IH]; intros self Hp; cbn [updates].
  - exists self. split; [reflexivity|]. split; [exact Hp|].
    split; [|split; [reflexivity|auto]].
    destruct (peak self); try discriminate; try reflexivity. apply fle_Fin. lra.
  - destruct (update_step self v Hp) as (m1 & out & -> & Hp1 & Hle1 & Hd1 & _ & Hs1).
    cbn [bind fst].
    destruct (IH m1 Hp1) as (m2 & -> & Hp2 & Hle2 & Hd2 & Hs2).
    exists m2. repeat split; try assumption.
    + eapply fle_trans; eassumption.
    + congruence.
    + auto.
Qed.

(** X24: a monitor that is never reset never fails and never reopens.  From
    [DrawdownMonitor(max_drawdown)], any sequence of [update] calls with
    Python floats returns (the peak is at least 1, so the division is defined,
    also for NaN or infinite values); along any continuation the peak does not
    decrease, the limit is unchanged, and once stopped the monitor stays
    stopped. *)
Theorem monitor_peak_and_latch (max_dd : float) (before after : list float) :
  exists m1 m2,
    updates py_truediv (new_monitor max_dd) before = Ok m1 /\
    updates py_truediv m1 after = Ok m2 /\
    updates py_truediv (new_monitor max_dd) (before ++ after) = Ok m2 /\
    fle (Fin 1) (peak m1) = true /\
    fle (peak m1) (peak m2) = true /\
    max_drawdown m2 = max_dd /\
    (is_stopped m1 = true -> is_stopped m2 = true).
Proof.
  destruct (updates_steps before (new_monitor max_dd) eq_refl)
    as (m1 & H1 & Hp1 & Hle1 & Hd1 & _).
  destruct (updates_steps after m1 Hp1) as (m2 & H2 & _ & Hle2 & Hd2 & Hs2).
  exists m1, m2.
  split; [exact H1|]. split; [exact H2|]. split; [|split; [exact Hle1|]].
  - clear - H1 H2. revert H1. generalize (new_monitor max_dd).
    induction before as [|v before IH]; intros m0 H; cbn [updates app] in *.
    + injection H as ->. exact H2.
    + destruct (update py_truediv m0 v) as [r|]; cbn [bind] in *; [|discriminate].
      now apply IH.
  - split; [exact Hle2|]. split; [|exact Hs2].
    rewrite Hd2, Hd1. reflexivity.
Qed.

(** X25: the drawdown [update] reports.  On a monitor with a positive finite
    peak, a finite value gives a finite drawdown that is at least 0, is 0
    exactly when the value is a new high (at or above the old peak), and is at
    most 1 when the value is not negative; the monitor is stopped afterwards
    exactly when it was stopped before or the drawdown reaches the limit. *)
Theorem update_reports_drawdown (self : DrawdownMonitor) (p v : Q) :
  peak self = Fin p -> 0 < p ->
  exists (m : DrawdownMonitor) (d pk : Q) (stopped : bool),
    update py_truediv self (Fin v) = Ok (m, (Fin d, Fin pk, stopped)) /\
    peak m = Fin pk /\ is_stopped m = stopped /\ p <= pk /\ v <= pk /\
    0 <= d /\ (d == 0 <-> p <= v) /\ (0 <= v -> d <= 1) /\
    stopped = (fge (Fin d) (max_drawdown self) || is_stopped self)%bool.
Proof.
  intros Hp Hpos. unfold update. rewrite Hp. unfold py_max.
  destruct (flt (Fin p) (Fin v)) eqn:E.
  - apply flt_Fin in E. unfold py_truediv, feqb, zero.
    destruct (Qeq_bool v 0) eqn:Ev; [apply Qeq_bool_eq in Ev; exfalso; lra|].
    cbn [bind fsub fdiv]. rewrite Ev.
    set (d := Qred (Qred (v - v) / v)).
    assert (Hd : d == 0) by (unfold d; rewrite !Qred_correct; field; lra).
    exists {| max_drawdown := max_drawdown self; peak := Fin v; current_value := Fin v;
              is_stopped := if fge (Fin d) (max_drawdown self) then true
                            else is_stopped self |}, d, v,
           (if fge (Fin d) (max_drawdown self) then true else is_stopped self).
    cbn [peak is_stopped].
    split; [reflexivity|]. split; [reflexivity|]. split; [reflexivity|].
    split; [lra|]. split; [lra|]. split; [lra|]. split; [split; intros; lra|].
    split; [intros; lra|]. destruct (fge _ _); reflexivity.
  - apply flt_Fin_false in E. unfold py_truediv, feqb, zero.
    destruct (Qeq_bool p 0) eqn:Ev; [apply Qeq_bool_eq in Ev; exfalso; lra|].
    cbn [bind fsub fdiv]. rewrite Ev.
    set (d := Qred (Qred (p - v) / p)).
    assert (Hd : d == 1 - v / p) by (unfold d; rewrite !Qred_correct; field; lra).
    assert (Hv : v / p <= 1) by (apply Qle_shift_div_r; lra).
    exists {| max_drawdown := max_drawdown self; peak := Fin p; current_value := Fin v;
              is_stopped := if fge (Fin d) (max_drawdown self) then true
                            else is_stopped self |}, d, p,
           (if fge (Fin d) (max_drawdown self) then true else is_stopped self).
    cbn [peak is_stopped].
    split; [reflexivity|]. split; [reflexivity|]. split; [reflexivity|].
    split; [lra|]. split; [lra|]. split; [lra|]. split; [split|split].
    + intros H0.
      assert (Hvp : v / p == 1) by lra.
      assert (Hq : v == (v / p) * p) by (field; lra).
      rewrite Hvp in Hq. lra.
    + intros Hpv. assert (Hq : v == p) by lra. rewrite Hd, Hq. field. lra.
    + intros Hv0.
      assert (0 <= v / p) by (apply Qle_shift_div_l; lra). lra.
    + destruct (fge _ _); reflexivity.
Qed.

(** X26: [reset] at a current value of zero leaves a peak of zero: the next
    [update] with a Python float that is not positive (or is NaN) raises
    [ZeroDivisionError]. *)
Theorem update_after_reset_at_zero (self : DrawdownMonitor) (value : float) :
  feqb (current_value self) zero = true -> flt (Fin 0) value = false ->
  update py_truediv (reset self) value = Raise ZeroDivisionError.
Proof.
  intros Hc Hv. unfold update, reset. cbn [peak max_drawdown is_stopped current_value].
  assert (Hm : py_max (current_value self) value = current_value self).
  { unfold py_max. destruct (current_value self) as [q| | |]; try discriminate.
    unfold feqb, zero in Hc. apply Qeq_bool_eq in Hc.
    destruct value as [w| | |]; try reflexivity; try discriminate.
    apply flt_Fin_false in Hv.
    destruct (flt (Fin q) (Fin w)) eqn:E; [|reflexivity].
    apply flt_Fin in E. exfalso. lra. }
  rewrite Hm. unfold py_truediv. rewrite Hc. reflexivity.
Qed.

End RiskFacts.

(** ** Sector limits *)

Module SectorFacts.
Import Sector.
Section SectorFacts.

Variable set_order : list string -> list string.

Local Abbreviation exposures_of := (compute_sector_exposures set_order).
Local Abbreviation scale := (scale_to_constraints set_order).

Lemma get_default_missing {V : Type} (d : list (string * V)) (key : string)
  (default : V) :
  lookup d key = None -> get_default d key default = default.
Proof. unfold get_default. now intros ->. Qed.

Lemma fold_left_idle {A B : Type} (f : A -> B -> A) (l : list B) (a : A) :
  (forall b, In b l -> forall a', f a' b = a') -> fold_left f l a = a.
Proof.
  revert a. induction l as [|b l IH]; intros a H; cbn [fold_left]; [reflexivity|].
  rewrite (H b (or_introl eq_refl)). apply IH. intros b' Hb. apply H. now right.
Qed.

Lemma scale_pairs_unmapped (self : SectorConstraintManager) (sector : string)
  (s : float) (active_pairs : list Tester.pair_record) (scaled : dict) :
  (forall p, In p active_pairs ->
     lookup (sector_map self) (Tester.ticker_y p) = None /\
     lookup (sector_map self) (Tester.ticker_x p) = None) ->
  scale_pairs self sector s active_pairs scaled = scaled.
Proof.
  intros H. unfold scale_pairs. apply fold_left_idle. intros p Hp a'.
  destruct (H p Hp) as (Hy & Hx). unfold in_sector. now rewrite Hy, Hx.
Qed.

Lemma exposure_body_balanced (self : SectorConstraintManager) (position_sizes : dict)
  (st : dict * dict) (p : Tester.pair_record) :
  lookup (sector_map self) (Tester.ticker_y p) = None ->
  lookup (sector_map self) (Tester.ticker_x p) = None ->
  (forall k v, lookup position_sizes k = Some v -> is_finite v = true) ->
  balanced st -> balanced (exposure_body self position_sizes st p).
Proof.
  intros Hy Hx Hfin (Heq & Hst). unfold exposure_body.
  destruct (feqb _ (Fin 0)); [split; assumption|].
  rewrite !(get_default_missing (sector_map self)) by assumption.
  assert (Hsize : exists w, get_default position_sizes (pair_key p) (Fin 0) = Fin w).
  { unfold get_default. destruct (lookup position_sizes (pair_key p)) as [v|] eqn:E.
    - specialize (Hfin _ _ E). destruct v; try discriminate. eexists; reflexivity.
    - eexists; reflexivity. }
  destruct Hsize as (w & ->). rewrite <- Heq. split; [reflexivity|]. right.
  cbn [fst fabs]. destruct Hst as [-> | (q & -> & Hq)].
  - cbn [set_key get_default lookup fadd]. eexists. split; [reflexivity|].
    rewrite !Qred_correct. pose proof (Qabs_nonneg w). lra.
  - cbn [set_key get_default lookup String.eqb Ascii.eqb Bool.eqb fadd].
    eexists. split; [reflexivity|].
    rewrite !Qred_correct. pose proof (Qabs_nonneg w). lra.
Qed.

Lemma exposures_balanced (self : SectorConstraintManager) (position_sizes : dict)
  (active_pairs : list Tester.pair_record) :
  (forall p, In p active_pairs ->
     lookup (sector_map self) (Tester.ticker_y p) = None /\
     lookup (sector_map self) (Tester.ticker_x p) = None) ->
  (forall k v, lookup position_sizes k = Some v -> is_finite v = true) ->
  forall st, balanced st ->
  balanced (fold_left (exposure_body self position_sizes) active_pairs st).
Proof.
  intros Hun Hfin. induction active_pairs as [|p ps IH]; intros st Hst;
    cbn [fold_left]; [exact Hst|].
  apply IH; [intros q Hq; apply Hun; now right|].
  destruct (Hun p (or_introl eq_refl)) as (Hy & Hx).
  now apply exposure_body_balanced.
Qed.

Lemma exposure_of_balanced (st : dict * dict) (s : string) :
  balanced st -> neutral (exposure_of (fst st) (snd st) s).
Proof.
  intros (Heq & Hst). rewrite <- Heq. unfold exposure_of.
  assert (Hl : exists q : Q, get_default (fst st) s (Fin 0) = Fin q /\ 0 <= q).
  { destruct Hst as [-> | (q & -> & Hq)].
    - exists 0. split; [reflexivity|lra].
    - unfold get_default. cbn [lookup]. destruct (String.eqb _ s).
      + exists q. split; [reflexivity|exact Hq].
      + exists 0. split; [reflexivity|lra]. }
  destruct Hl as (q & -> & Hq). exists q.
  cbn [long_exposure short_exposure net_exposure gross_exposure fsub fadd].
  repeat split; try assumption.
  f_equal. transitivity (Qred 0); [apply Qred_complete; lra|reflexivity].
Qed.

Lemma exposures_neutral (st : dict * dict) (keys : list string) :
  balanced st ->
  forall acc : list (string * SectorExposure),
  Forall neutral (map snd acc) ->
  Forall neutral
    (map snd
       (fold_left
          (fun exposures s => set_key exposures s (exposure_of (fst st) (snd st) s))
          keys acc)).
Proof.
  intros Hst. induction keys as [|s keys IH]; intros acc Hacc; cbn [fold_left];
    [exact Hacc|].
  apply IH. apply EngineMore.set_key_values; [exact Hacc|].
  now apply exposure_of_balanced.
Qed.

Lemma lookup_values {V : Type} (P : V -> Prop) (d : list (string * V)) (key : string)
  (v : V) :
  Forall P (map snd d) -> lookup d key = Some v -> P v.
Proof.
  induction d as [|[k0 v0] d IH]; cbn [lookup map snd]; [discriminate|].
  intros H. inversion H as [|? ? H0 Hrest]; subst.
  destruct (String.eqb k0 key); [now intros [= <-]|now apply IH].
Qed.

Lemma set_key_keys {V : Type} (d : list (string * V)) (key : string) (value : V) :
  (forall k, In k (map fst (set_key d key value)) -> k = key \/ In k (map fst d)) /\
  (NoDup (map fst d) -> NoDup (map fst (set_key d key value))).
Proof.
  induction d as [|[k0 v0] d (IHin & IHnd)]; cbn [set_key map fst].
  - split.
    + intros k [<- | []]. now left.
    + intros _. constructor; [intros []|constructor].
  - destruct (String.eqb k0 key) eqn:E; cbn [map fst].
    + split; [intros k H; now right|auto].
    + split.
      * intros k [<- | H]; [right; now left|].
        destruct (IHin k H) as [-> | H']; [now left|right; now right].
      * intros Hnd. inversion Hnd as [|? ? Hnotin Hrest]; subst.
        constructor; [|now apply IHnd].
        intros H. destruct (IHin k0 H) as [-> | H']; [|contradiction].
        rewrite String.eqb_refl in E. discriminate.
Qed.

Lemma lookup_In {V : Type} (d : list (string * V)) (key : string) (v : V) :
  NoDup (map fst d) -> In (key, v) d -> lookup d key = Some v.
Proof.
  induction d as [|[k0 v0] d IH]; cbn [map fst lookup]; [intros _ []|].
  intros Hnd Hin. inversion Hnd as [|? ? Hnotin Hrest]; subst.
  destruct Hin as [[= -> ->] | Hin].
  - now rewrite String.eqb_refl.
  - destruct (String.eqb k0 key) eqn:E; [|now apply IH].
    apply String.eqb_eq in E. subst k0. exfalso. apply Hnotin.
    apply in_map_iff. now exists (key, v).
Qed.

Lemma exposures_keys (st : dict * dict) (keys : list string) :
  forall acc : list (string * SectorExposure),
  NoDup (map fst acc) ->
  NoDup
    (map fst
       (fold_left
          (fun exposures s => set_key exposures s (exposure_of (fst st) (snd st) s))
          keys acc)).
Proof.
  induction keys as [|s keys IH]; intros acc Hacc; cbn [fold_left]; [exact Hacc|].
  apply IH. now apply set_key_keys.
Qed.

Lemma scale_loop_unmapped (self : SectorConstraintManager)
  (exposures : list (string * SectorExposure))
  (active_pairs : list Tester.pair_record) (n g : Q) (sizes : dict) :
  (forall p, In p active_pairs ->
     lookup (sector_map self) (Tester.ticker_y p) = None /\
     lookup (sector_map self) (Tester.ticker_x p) = None) ->
  max_sector_net self = Fin n -> 0 <= n ->
  max_sector_gross self = Fin g -> 0 <= g ->
  Forall neutral (map snd exposures) ->
  forall rest : list (string * SectorExposure),
  (forall s e, In (s, e) rest -> lookup exposures s = Some e) ->
  scale_loop self exposures active_pairs (check_constraints self rest) sizes = Ok sizes.
Proof.
  intros Hun Hn Hn0 Hg Hg0 Hall.
  induction rest as [|[s e] rest IH]; intros Hin; [reflexivity|].
  assert (IH' : scale_loop self exposures active_pairs (check_constraints self rest) sizes
                = Ok sizes).
  { apply IH. intros s' e' H. apply (Hin s' e'). now right. }
  change (check_constraints self ((s, e) :: rest))
    with ((s, fle (fabs (net_exposure e)) (max_sector_net self)
              && fle (gross_exposure e) (max_sector_gross self))
          :: check_constraints self rest).
  set (tl := check_constraints self rest) in *. clearbody tl. cbn [scale_loop].
  pose proof (Hin s e (or_introl eq_refl)) as El.
  destruct (lookup_values neutral exposures s e Hall El)
    as (q & Hq & _ & _ & Hnet & Hgross).
  rewrite El. cbn [bind]. rewrite Hnet, Hgross, Hg, Hn. unfold fgt.
  change (fle (fabs (Fin 0)) (Fin n)) with (fle (Fin 0) (Fin n)).
  rewrite (proj2 (fle_Fin 0 n) Hn0). cbn [andb].
  destruct (fle (Fin (Qred (q + q))) (Fin g)) eqn:E; [exact IH'|].
  apply fle_Fin_false in E. rewrite (proj2 (flt_Fin g (Qred (q + q))) E).
  rewrite Qred_correct in E.
  unfold py_truediv, feqb, zero.
  destruct (Qeq_bool (Qred (q + q)) 0) eqn:E0.
  { apply Qeq_bool_eq in E0. rewrite Qred_correct in E0. exfalso. lra. }
  cbn [bind]. rewrite scale_pairs_unmapped by assumption. exact IH'.
Qed.

(** X28: pairs of unmapped tickers are never scaled.  When no ticker of the
    active pairs has an entry in [sector_map] (as with the default, empty
    map), with finite sizes and non-negative finite limits,
    [scale_to_constraints] returns the sizes it was given, however far the
    exposure booked under "Unknown" exceeds the gross limit: the scaling loop
    looks tickers up without the "Unknown" default that the exposure
    computation uses. *)
Theorem unmapped_pairs_never_scaled (self : SectorConstraintManager)
  (active_pairs : list Tester.pair_record) (position_sizes : dict) (n g : Q) :
  (forall p, In p active_pairs ->
     lookup (sector_map self) (Tester.ticker_y p) = None /\
     lookup (sector_map self) (Tester.ticker_x p) = None) ->
  (forall k v, lookup position_sizes k = Some v -> is_finite v = true) ->
  max_sector_net self = Fin n -> 0 <= n ->
  max_sector_gross self = Fin g -> 0 <= g ->
  scale self active_pairs position_sizes = Ok position_sizes /\
  (forall s e, In (s, e) (exposures_of self active_pairs position_sizes) ->
     net_exposure e = Fin 0 /\ long_exposure e = short_exposure e).
Proof.
  intros Hun Hfin Hn Hn0 Hg Hg0. unfold scale_to_constraints.
  assert (Hb : balanced (fold_left (exposure_body self position_sizes) active_pairs
                           ([], []))).
  { apply exposures_balanced; try assumption. split; [reflexivity|now left]. }
  assert (Hall : Forall neutral
                   (map snd (exposures_of self active_pairs position_sizes))).
  { unfold compute_sector_exposures. apply exposures_neutral; [exact Hb|constructor]. }
  assert (Hnd : NoDup (map fst (exposures_of self active_pairs position_sizes))).
  { unfold compute_sector_exposures. apply exposures_keys. constructor. }
  split.
  - apply (scale_loop_unmapped self _ active_pairs n g); try assumption.
    intros s e Hin. now apply lookup_In.
  - intros s e Hin. rewrite Forall_forall in Hall.
    destruct (Hall e) as (q & _ & Hl & Hs & Hnet & _).
    { apply in_map_iff. now exists (s, e). }
    split; [exact Hnet|congruence].
Qed.

End SectorFacts.
End SectorFacts.

(** ** The further properties on concrete inputs *)

Module ChecksMore.
Import Examples ExamplesMore.

Local Open Scope string_scope.

(** X3 with the default configuration on three rows and two series of
    observations. *)
Lemma filter_std_ignores_observations_witness :
  exists df df',
    Kalman.filter rational_sqrt kalman_default [Fin 1; Fin 2; Fin 3]
      [Fin 1; Fin 1; Fin 2] = Ok df /\
    Kalman.filter rational_sqrt kalman_default [Fin 5; NaN; Fin 0]
      [Fin 1; Fin 1; Fin 2] = Ok df' /\
    Kalman.col_hedge_ratio_std df' = Kalman.col_hedge_ratio_std df.
Proof.
  apply (KalmanMore.filter_std_ignores_observations rational_sqrt kalman_default
           (Fin 1) (Fin 5) (Fin 1) [Fin 2; Fin 3] [NaN; Fin 0] [Fin 1; Fin 2]);
    reflexivity.
Defined.

(** X5 with the default configuration on three rows. *)
Lemma filter_columns_witness :
  exists df,
    Kalman.filter rational_sqrt kalman_default [Fin 1; Fin 2; Fin 3]
      [Fin 1; Fin 1; Fin 2] = Ok df /\
    (forall t, (t < 3)%nat ->
       nth t (Kalman.col_spread df) NaN
       = (nth t [Fin 1; Fin 2; Fin 3] NaN
          - nth t (Kalman.col_hedge_ratio df) NaN * nth t [Fin 1; Fin 1; Fin 2] NaN)%float) /\
    (forall t, (S t < 3)%nat ->
       nth (S t) (Kalman.col_forecast_error df) NaN
       = (nth (S t) [Fin 1; Fin 2; Fin 3] NaN
          - nth t (Kalman.col_hedge_ratio df) NaN
            * nth (S t) [Fin 1; Fin 1; Fin 2] NaN)%float).
Proof.
  apply (KalmanMore.filter_columns rational_sqrt kalman_default (Fin 1) (Fin 1)
           [Fin 2; Fin 3] [Fin 1; Fin 2]); reflexivity.
Defined.

(** X7 between the first two rows of the path [rise_fall_rise]. *)
Lemma no_reversal_in_one_step_witness :
  (Z.abs (nth 1 (Signals.sig_position (frame_of (signals_of rise_fall_rise))) 0%Z
          - nth 0 (Signals.sig_position (frame_of (signals_of rise_fall_rise))) 0%Z)
   <= 1)%Z.
Proof.
  apply (SignalMore.no_reversal_in_one_step mean_zero std_one rolling_unused
           rolling_unused generator_default rise_fall_rise
           (map (fun _ => Fin 0) rise_fall_rise) (Fin 0) (Fin 0)
           (frame_of (signals_of rise_fall_rise)) 0).
  - reflexivity.
  - vm_compute. lia.
Defined.

(** X8: a stop at 10 instead of 3.5, on the path [rise_fall_rise]. *)
Lemma stop_threshold_has_no_effect_witness :
  Signals.generate_signals mean_zero std_one rolling_unused rolling_unused
    generator_wide_stop rise_fall_rise (map (fun _ => Fin 0) rise_fall_rise)
    (Fin 0) (Fin 0)
  = Signals.generate_signals mean_zero std_one rolling_unused rolling_unused
      generator_default rise_fall_rise (map (fun _ => Fin 0) rise_fall_rise)
      (Fin 0) (Fin 0).
Proof.
  apply (SignalMore.stop_threshold_has_no_effect mean_zero std_one rolling_unused
           rolling_unused generator_default generator_wide_stop
           (1 # 2) (7 # 2) 10); try reflexivity; lra.
Defined.

(** X9: the paths [rise_fall_rise] and [gap_after_entry] agree on two rows. *)
Lemma positions_depend_on_prefix_witness :
  firstn 2 (Signals.sig_position (frame_of (signals_of gap_after_entry)))
  = firstn 2 (Signals.sig_position (frame_of (signals_of rise_fall_rise))).
Proof.
  apply (SignalMore.positions_depend_on_prefix mean_zero std_one rolling_unused
           rolling_unused mean_zero std_one rolling_unused rolling_unused
           generator_default generator_default
           rise_fall_rise (map (fun _ => Fin 0) rise_fall_rise)
           gap_after_entry (map (fun _ => Fin 0) gap_after_entry)
           (Fin 0) (Fin 0) (Fin 0) (Fin 0)); reflexivity.
Defined.

(** X10: the path [rise_fall_rise] and its mirror image. *)
Lemma positions_mirror_witness :
  Signals.sig_position (frame_of (signals_of fall_rise_fall))
  = map Z.opp (Signals.sig_position (frame_of (signals_of rise_fall_rise))).
Proof.
  apply (SignalMore.positions_mirror mean_zero std_one rolling_unused
           rolling_unused mean_zero std_one rolling_unused rolling_unused
           generator_default generator_default 2
           rise_fall_rise (map (fun _ => Fin 0) rise_fall_rise)
           fall_rise_fall (map (fun _ => Fin 0) fall_rise_fall)
           (Fin 0) (Fin 0) (Fin 0) (Fin 0)); try reflexivity; lra.
Defined.

(** X11 on the panel of A and B: the record of the pair (A, B). *)
Lemma screened_pairs_passed_every_filter_witness :
  TesterRolling.passed lstsq_needs_three adfuller_significant coint_significant
    corr_high tester_small panel_A_B pair_A_B /\
  exists l1 l2 l3, map fst panel_A_B = (l1 ++ "A" :: l2 ++ "B" :: l3)%list.
Proof.
  apply (TesterMore.screened_pairs_passed_every_filter lstsq_needs_three
           adfuller_significant coint_significant corr_high tester_small
           panel_A_B [pair_A_B] pair_A_B).
  - reflexivity.
  - left. reflexivity.
Defined.

(** X12 on the panel with three instruments of which C misses two prices. *)
Lemma screened_pairs_sorted_witness :
  StronglySorted by_half_life (records_of (screen panel_two_gaps)).
Proof.
  apply (TesterMore.screened_pairs_sorted lstsq_needs_three adfuller_significant
           coint_significant corr_high tester_small panel_two_gaps).
  reflexivity.
Defined.

(** X15: a configured window of 60 rows. *)
Lemma run_window_below_default_witness :
  run_of config_short_window panel_trading = Ok Engine.NoPairs.
Proof.
  apply (EngineFacts.run_window_below_default lstsq_needs_three adfuller_significant
           coint_significant corr_high mean_zero std_one rolling_unused
           rolling_unused rational_sqrt power_stub moment_stub moment_stub
           moment_stub loc_all loc_all config_short_window panel_trading None None).
  vm_compute. lia.
Defined.

(** X16: a panel of exactly 252 rows, on which the pair (A, B) is selected. *)
Lemma run_without_trading_rows_witness :
  run_of config_default panel_training = Raise IndexError.
Proof.
  apply (EngineFacts.run_without_trading_rows lstsq_needs_three adfuller_significant
           coint_significant corr_high mean_zero std_one rolling_unused
           rolling_unused rational_sqrt power_stub moment_stub moment_stub
           moment_stub loc_all loc_all config_default panel_training None None
           pair_A_B []).
  - vm_compute. reflexivity.
  - vm_compute. lia.
  - intros name col [[= <- <-] | [[= <- <-] | []]]; vm_compute; lia.
Defined.

(** X17 on returns with a gain, a gap, a loss and a flat day. *)
Lemma win_rate_in_unit_interval_witness :
  (exists q : Q,
      dict_get (dict_of (metrics_of returns_mixed)) "win_rate" = Some (Fin q) /\
      0 <= q /\ q <= 1) /\
  dict_get (dict_of (metrics_of returns_mixed)) "num_trading_days"
  = Some (of_nat (length (dropna returns_mixed))).
Proof.
  apply (BacktestMore.win_rate_in_unit_interval rational_sqrt power_stub moment_stub
           moment_stub moment_stub returns_mixed).
  - reflexivity.
  - discriminate.
Defined.

(** X18 on the same returns. *)
Lemma max_drawdown_not_positive_witness :
  exists dd,
    dict_get (dict_of (metrics_of returns_mixed)) "max_drawdown" = Some dd /\
    fle dd (Fin 0) = true.
Proof.
  apply (BacktestMore.max_drawdown_not_positive rational_sqrt power_stub moment_stub
           moment_stub moment_stub returns_mixed (dict_of (metrics_of returns_mixed))
           (1 # 100) [Fin (-1 # 50); Fin 0]).
  - reflexivity.
  - reflexivity.
  - intros H. discriminate H.
Defined.

(** X20 at the entry of the path [rise_fall_rise], with a cost of 5 basis
    points. *)
Lemma generated_costs_one_unit_witness :
  exists k : Q,
    nth 1
      (Signals.transaction_costs
         (Signals.compute_signal_pnl
            (Signals.sig_position (frame_of (signals_of rise_fall_rise)))
            rise_fall_rise (map (fun _ => Fin 0) rise_fall_rise) (Fin 0) (Fin 5)))
      NaN = Fin k /\
    (k == 0 \/ k == 5 / 10000).
Proof.
  apply (PnlMore.generated_costs_one_unit mean_zero std_one rolling_unused
           rolling_unused generator_default rise_fall_rise
           (map (fun _ => Fin 0) rise_fall_rise) (Fin 0) (Fin 0)
           (frame_of (signals_of rise_fall_rise)) 5 0).
  - reflexivity.
  - reflexivity.
  - vm_compute. lia.
Defined.

(** X21: three trading rows after a training window of 252 rows. *)
Lemma run_first_day_missing_witness :
  (Engine.cfg_max_pairs config_default = 0%nat /\
   ran_selected (run_of config_default panel_trading) = [] /\
   ran_port (run_of config_default panel_trading) = [] /\
   ran_pair_results (run_of config_default panel_trading) = [] /\
   ran_metrics (run_of config_default panel_trading) = []) \/
  (ran_selected (run_of config_default panel_trading) <> [] /\
   exists rest,
     ran_port (run_of config_default panel_trading) = NaN :: rest /\
     (length (dropna (ran_port (run_of config_default panel_trading)))
      <= length rest)%nat).
Proof.
  apply (EngineMore.run_first_day_missing lstsq_needs_three adfuller_significant
           coint_significant corr_high mean_zero std_one rolling_unused
           rolling_unused rational_sqrt power_stub moment_stub moment_stub
           moment_stub loc_all loc_all config_default panel_trading None None).
  vm_compute. reflexivity.
Defined.

(** X23: the half-Kelly sizer with a cap of 10%. *)
Lemma size_from_backtest_bounds_witness :
  exists r,
    Risk.size_from_backtest sizer_default returns_gainful (Fin (1 # 10)) = Ok r /\
    fle (Fin 0) r = true /\ fle r (Fin (1 # 10)) = true /\
    (filter (fun v => fgt v (Fin 0)) returns_gainful = [] \/
     filter (fun v => flt v (Fin 0)) returns_gainful = [] -> r = Fin 0).
Proof.
  apply (RiskFacts.size_from_backtest_bounds sizer_default returns_gainful
           (Fin (1 # 10))).
  reflexivity.
Defined.

(** X25: a fall to 0.9 from the initial peak of 1. *)
Lemma update_reports_drawdown_witness :
  exists (m : Risk.DrawdownMonitor) (d pk : Q) (stopped : bool),
    Risk.update py_truediv (Risk.new_monitor (Fin (15 # 100))) (Fin (9 # 10))
    = Ok (m, (Fin d, Fin pk, stopped)) /\
    Risk.peak m = Fin pk /\ Risk.is_stopped m = stopped /\ 1 <= pk /\
    9 # 10 <= pk /\
    0 <= d /\ (d == 0 <-> 1 <= 9 # 10) /\ (0 <= 9 # 10 -> d <= 1) /\
    stopped = (fge (Fin d) (Fin (15 # 100)) || false)%bool.
Proof.
  apply (RiskFacts.update_reports_drawdown (Risk.new_monitor (Fin (15 # 100)))
           1 (9 # 10)); [reflexivity|lra].
Defined.

(** X26: a monitor whose value fell to zero, reset and updated at zero. *)
Lemma update_after_reset_at_zero_witness :
  Risk.update py_truediv (Risk.reset monitor_at_zero) (Fin 0)
  = Raise ZeroDivisionError.
Proof.
  apply (RiskFacts.update_after_reset_at_zero monitor_at_zero (Fin 0)); reflexivity.
Defined.

(** X27 on the pair (A, B). *)
Lemma tested_spread_is_traded_spread_witness :
  Tester.eg_spread (eg_of eg_A_B)
  = Signals.compute_spread [Fin 10; Fin 11; Fin 12; Fin 13]
      [Fin 20; Fin 21; Fin 23; Fin 22]
      (Tester.eg_hedge_ratio (eg_of eg_A_B)) (Tester.eg_intercept (eg_of eg_A_B)) /\
  length (Tester.eg_spread (eg_of eg_A_B)) = 4%nat /\
  (forall t, (t < 4)%nat ->
     nth t (Tester.eg_spread (eg_of eg_A_B)) NaN
     = (nth t [Fin 10; Fin 11; Fin 12; Fin 13] NaN
        - Tester.eg_hedge_ratio (eg_of eg_A_B)
          * nth t [Fin 20; Fin 21; Fin 23; Fin 22] NaN
        - Tester.eg_intercept (eg_of eg_A_B))%float).
Proof.
  apply (SpreadFacts.tested_spread_is_traded_spread lstsq_needs_three
           adfuller_significant coint_significant
           [Fin 10; Fin 11; Fin 12; Fin 13] [Fin 20; Fin 21; Fin 23; Fin 22]
           (eg_of eg_A_B)); reflexivity.
Defined.

(** X28: the default manager on the pair (A, B) held at 50%: booked under
    "Unknown", the gross exposure is 1, over the limit of 0.30, and the size
    comes back unchanged. *)
Lemma unmapped_pairs_never_scaled_witness :
  Sector.scale_to_constraints first_occurrence manager_default [pair_A_B] sizes_A_B
  = Ok sizes_A_B /\
  (forall s e,
      In (s, e) (Sector.compute_sector_exposures first_occurrence manager_default
                   [pair_A_B] sizes_A_B) ->
      Sector.net_exposure e = Fin 0 /\
      Sector.long_exposure e = Sector.short_exposure e).
Proof.
  apply (SectorFacts.unmapped_pairs_never_scaled first_occurrence manager_default
           [pair_A_B] sizes_A_B (15 # 100) (30 # 100)).
  - intros p _. split; reflexivity.
  - intros k v. unfold sizes_A_B. cbn [lookup].
    destruct (String.eqb "A/B" k); [|discriminate]. intros [= <-]. reflexivity.
  - reflexivity.
  - lra.
  - reflexivity.
  - lra.
Defined.

End ChecksMore.
